(** * MusicVisualizer: a shallow embedding of [src/script.js]

    The file models the visualization engine of [script.js]: the canvas
    drawing context, the four draw routines, the particle field and the
    animation loop with its event handlers.

    Numbers.  JavaScript numbers are modelled as real numbers: rounding,
    infinities and NaN are outside the model.  The only place where the
    source can produce NaN from well-typed data is a read of a typed array
    past its end ([undefined], which arithmetic turns into NaN); such a read
    is modelled as [None] and what the source does with the NaN is written
    out at the read.  Divisions are by constants, by the device pixel ratio
    ([|| 1] keeps it from being [0]), by [particles.length] inside a
    callback of [forEach], and by [bufferLength], which is not [0] when
    [dataArray] holds [bufferLength] elements and a loop body runs or
    [reduce] returns.

    Time and chance.  [Date.now()] and the spectrum the analyser delivers
    are inputs of a tick; [Math.random()] is a stream of numbers.

    Styles.  The colour strings [rgba(...)] and [hsla(...)] built by
    template literals are modelled by their components. *)

From Stdlib Require Import Reals Lra Lia List String ZArith Bool Zfloor.
From Stdlib Require Import Ascii DecimalString.
Import ListNotations.

Open Scope R_scope.

(** ** JavaScript values and built-ins *)

Module Js.

(** Errors a call can raise in this program. *)
Inductive Error : Type :=
| TypeError
| IndexSizeError.

(** The completion of a call: it returns or it throws. *)
Inductive Completion (A : Type) : Type :=
| Normal (a : A)
| Throw (e : Error).
Arguments Normal {A} a.
Arguments Throw {A} e.

(** Computations over a mutable store [St] that may throw; the store
    survives a throw, as mutations done before the exception do. *)
Definition M (St A : Type) : Type := St -> Completion A * St.

Definition ret {St A} (a : A) : M St A := fun s => (Normal a, s).

Definition bind {St A B} (m : M St A) (k : A -> M St B) : M St B :=
  fun s =>
    match m s with
    | (Normal a, s') => k a s'
    | (Throw e, s') => (Throw e, s')
    end.

Definition throw {St A} (e : Error) : M St A := fun s => (Throw e, s).
Definition get {St} : M St St := fun s => (Normal s, s).
Definition put {St} (s : St) : M St unit := fun _ => (Normal tt, s).
Definition modify {St} (f : St -> St) : M St unit := fun s => (Normal tt, f s).

(** Run a computation on a component of a larger store. *)
Definition zoom {St T A} (proj : St -> T) (upd : T -> St -> St)
           (m : M T A) : M St A :=
  fun s => let (r, t) := m (proj s) in (r, upd t s).

(** [for (let i = lo; i < lo + n; i++) body(i)] with a loop-carried
    value. *)
Fixpoint for_range {St A} (n lo : nat) (body : nat -> A -> M St A) (a : A)
  : M St A :=
  match n with
  | O => ret a
  | S n' => bind (body lo a) (for_range n' (S lo) body)
  end.

Definition numlt (a b : R) : bool := if Rlt_dec a b then true else false.

Definition Math_min (a b : R) : R := Rmin a b.
Definition Math_max (a b : R) : R := Rmax a b.
Definition Math_sqrt (a : R) : R := sqrt a.
Definition Math_floor (a : R) : Z := Zfloor a.

(** [a % b] on numbers: the remainder has the sign of the dividend. *)
Definition trunc (a : R) : Z := if Rle_dec 0 a then Zfloor a else Zceil a.
Definition rem (a b : R) : R := a - b * IZR (trunc (a / b)).

(** [x || 1] on a number: [0] is falsy. *)
Definition or1 (x : R) : R := if Req_dec_T x 0 then 1 else x.

(** [arr.reduce((a, b) => f(a, b))] without an initial value: the first
    element seeds the accumulator and an empty array raises TypeError. *)
Definition reduce {St} (f : R -> R -> R) (arr : list R) : M St R :=
  match arr with
  | [] => throw TypeError
  | a :: rest => ret (fold_left f rest a)
  end.

End Js.

Import Js.

Declare Scope js_scope.
Delimit Scope js_scope with js.
Notation "x <- m ;; k" := (bind m (fun x => k))
  (at level 61, m at next level, right associativity) : js_scope.
Notation "m ;;; k" := (bind m (fun _ => k))
  (at level 61, right associativity) : js_scope.
Open Scope js_scope.

(** ** The 2D drawing context *)

Module Canvas.

(** A CSS colour as the template literals of the source build it:
    [rgba(r, g, b, a)] or [hsla(h, s%, l%, a)]. *)
Inductive Color : Type :=
| Rgba (r g b a : R)
| Hsla (h s l a : R).

Inductive Style : Type :=
| Solid (c : Color)
| LinearGradient (x0 y0 x1 y1 : R) (stops : list (R * Color))
| RadialGradient (x0 y0 r0 x1 y1 r1 : R) (stops : list (R * Color)).

Inductive PathCmd : Type :=
| MoveTo (x y : R)
| LineTo (x y : R)
| Arc (x y radius startAngle endAngle : R).

(** What reaches the surface: each entry carries the style in force when
    it was painted. *)
Inductive PaintOp : Type :=
| FillRect (style : Style) (x y w h : R)
| ClearRect (x y w h : R)
| StrokePath (style : Style) (lineWidth : R) (path : list PathCmd)
| FillPath (style : Style) (path : list PathCmd).

Record Ctx : Type := mkCtx {
  fillStyle : Style;
  strokeStyle : Style;
  lineWidth : R;
  path : list PathCmd;
  painted : list PaintOp
}.

Definition paint (op : PaintOp) (c : Ctx) : Ctx :=
  mkCtx (fillStyle c) (strokeStyle c) (lineWidth c) (path c)
        (painted c ++ [op]).

Definition setFillStyle (s : Style) : M Ctx unit :=
  modify (fun c => mkCtx s (strokeStyle c) (lineWidth c) (path c) (painted c)).
Definition setStrokeStyle (s : Style) : M Ctx unit :=
  modify (fun c => mkCtx (fillStyle c) s (lineWidth c) (path c) (painted c)).
Definition setLineWidth (w : R) : M Ctx unit :=
  modify (fun c => mkCtx (fillStyle c) (strokeStyle c) w (path c) (painted c)).
Definition setPath (p : list PathCmd) : M Ctx unit :=
  modify (fun c => mkCtx (fillStyle c) (strokeStyle c) (lineWidth c) p (painted c)).

Definition fillRect (x y w h : R) : M Ctx unit :=
  modify (fun c => paint (FillRect (fillStyle c) x y w h) c).
Definition clearRect (x y w h : R) : M Ctx unit :=
  modify (fun c => paint (ClearRect x y w h) c).

Definition beginPath : M Ctx unit := setPath [].
Definition moveTo (x y : R) : M Ctx unit :=
  c <- get ;; setPath (path c ++ [MoveTo x y]).
Definition lineTo (x y : R) : M Ctx unit :=
  c <- get ;; setPath (path c ++ [LineTo x y]).

(** [arc] raises IndexSizeError on a negative radius. *)
Definition arc (x y radius startAngle endAngle : R) : M Ctx unit :=
  if numlt radius 0 then throw IndexSizeError
  else c <- get ;; setPath (path c ++ [Arc x y radius startAngle endAngle]).

Definition stroke : M Ctx unit :=
  modify (fun c => paint (StrokePath (strokeStyle c) (lineWidth c) (path c)) c).
Definition fill : M Ctx unit :=
  modify (fun c => paint (FillPath (fillStyle c) (path c)) c).

Definition createLinearGradient (x0 y0 x1 y1 : R) : M Ctx Style :=
  ret (LinearGradient x0 y0 x1 y1 []).

(** [createRadialGradient] raises IndexSizeError on a negative radius. *)
Definition createRadialGradient (x0 y0 r0 x1 y1 r1 : R) : M Ctx Style :=
  if numlt r0 0 || numlt r1 0 then throw IndexSizeError
  else ret (RadialGradient x0 y0 r0 x1 y1 r1 []).

Definition addColorStop (offset : R) (c : Color) (g : Style) : Style :=
  match g with
  | Solid c0 => Solid c0
  | LinearGradient x0 y0 x1 y1 stops =>
      LinearGradient x0 y0 x1 y1 (stops ++ [(offset, c)])
  | RadialGradient x0 y0 r0 x1 y1 r1 stops =>
      RadialGradient x0 y0 r0 x1 y1 r1 (stops ++ [(offset, c)])
  end.

(** The context a canvas starts with: black styles, unit line width, an
    empty path, nothing painted. *)
Definition fresh : Ctx :=
  mkCtx (Solid (Rgba 0 0 0 1)) (Solid (Rgba 0 0 0 1)) 1 [] [].

End Canvas.

Import Canvas.

(** ** Bars mode: [drawBars] *)

Section Bars.

Variables (width height : R) (bufferLength : nat) (dataArray : list Z).

Definition barWidth : R := width / INR bufferLength * 2.5.

(** One iteration of the loop of [drawBars]; [x] is the loop-carried
    offset.  A read past the end of [dataArray] gives a NaN [barHeight],
    on which [createLinearGradient] raises TypeError. *)
Definition drawBars_body (i : nat) (x : R) : M Ctx R :=
  match nth_error dataArray i with
  | None => throw TypeError
  | Some d =>
      let barHeight := IZR d / 255 * height * 0.8 in
      let hue := INR i / INR bufferLength * 360 in
      gradient <- createLinearGradient 0 (height - barHeight) 0 height ;;
      let gradient := addColorStop 0 (Hsla hue 100 50 0.8) gradient in
      let gradient := addColorStop 1 (Hsla hue 100 70 0.6) gradient in
      setFillStyle gradient ;;;
      fillRect x (height - barHeight) barWidth barHeight ;;;
      setFillStyle (Solid (Hsla hue 100 80 0.3)) ;;;
      fillRect x (height - barHeight - 10) barWidth 5 ;;;
      ret (x + (barWidth + 1))
  end.

Definition drawBars : M Ctx unit :=
  setFillStyle (Solid (Rgba 0 0 0 0.2)) ;;;
  fillRect 0 0 width height ;;;
  _ <- for_range bufferLength 0 drawBars_body 0 ;;
  ret tt.

End Bars.

(** ** Radial mode: [drawCircle] *)

Section Circle.

Variables (width height : R) (bufferLength : nat) (dataArray : list Z).

Definition centerX : R := width / 2.
Definition centerY : R := height / 2.
Definition radius : R := Math_min width height / 4.

(** One iteration of the loop of [drawCircle].  A read past the end of
    [dataArray] makes [x2] and [y2] NaN, and [lineTo] does nothing on
    NaN: the stroked path then holds the [moveTo] alone. *)
Definition drawCircle_body (i : nat) (_ : unit) : M Ctx unit :=
  let angle := INR i / INR bufferLength * PI * 2 in
  let x1 := centerX + cos angle * radius in
  let y1 := centerY + sin angle * radius in
  let hue := INR i / INR bufferLength * 360 in
  setStrokeStyle (Solid (Hsla hue 100 50 0.8)) ;;;
  setLineWidth 2 ;;;
  beginPath ;;;
  moveTo x1 y1 ;;;
  match nth_error dataArray i with
  | None => ret tt
  | Some d =>
      let barHeight := IZR d / 255 * 100 in
      let x2 := centerX + cos angle * (radius + barHeight) in
      let y2 := centerY + sin angle * (radius + barHeight) in
      lineTo x2 y2
  end ;;;
  stroke.

Definition drawCircle : M Ctx unit :=
  setFillStyle (Solid (Rgba 0 0 0 0.1)) ;;;
  fillRect 0 0 width height ;;;
  for_range bufferLength 0 drawCircle_body tt ;;;
  beginPath ;;;
  arc centerX centerY radius 0 (PI * 2) ;;;
  setStrokeStyle (Solid (Rgba 255 255 255 0.5)) ;;;
  setLineWidth 2 ;;;
  stroke.

End Circle.

(** ** Wave mode: [drawWave] *)

Section Wave.

(** [now] is the value of [Date.now()] during the call. *)
Variables (now width height : R) (bufferLength : nat) (dataArray : list Z).

Definition sliceWidth : R := width / INR bufferLength.

(** The inner loop; [x] is loop-carried.  On a read past the end [y] is
    NaN and [moveTo] / [lineTo] do nothing. *)
Definition drawWave_point (layer : nat) (i : nat) (x : R) : M Ctx R :=
  match nth_error dataArray i with
  | None => ret tt
  | Some d =>
      let v := IZR d / 255 in
      let y := height / 2
               + (v * height / 3 * sin ((INR i + INR layer * 30) * 0.1))
               - (INR layer * 30) in
      if Nat.eqb i 0 then moveTo x y else lineTo x y
  end ;;;
  ret (x + sliceWidth).

Definition drawWave_layer (layer : nat) (_ : unit) : M Ctx unit :=
  beginPath ;;;
  setLineWidth 3 ;;;
  let hue := rem (now / 50 + INR layer * 120) 360 in
  setStrokeStyle (Solid (Hsla hue 100 50 0.6)) ;;;
  _ <- for_range bufferLength 0 (drawWave_point layer) 0 ;;
  stroke.

Definition drawWave : M Ctx unit :=
  setFillStyle (Solid (Rgba 0 0 0 0.2)) ;;;
  fillRect 0 0 width height ;;;
  for_range 3 0 drawWave_layer tt.

End Wave.

(** ** Particles mode: the particle field and [drawParticles] *)

Module Particle.
Record t : Type := mk {
  x : R;
  y : R;
  radius : R;
  speedX : R;
  speedY : R;
  hue : R
}.
End Particle.

(** [arr[i] = v] on an existing index. *)
Fixpoint set_nth {A} (i : nat) (v : A) (l : list A) : list A :=
  match l, i with
  | [], _ => []
  | _ :: l', O => v :: l'
  | a :: l', S i' => a :: set_nth i' v l'
  end.

(** [arr[i]] on a typed array, [i] a number with an integer value:
    [None] stands for [undefined]. *)
Definition typed_get (arr : list Z) (i : Z) : option Z :=
  if (i <? 0)%Z then None else nth_error arr (Z.to_nat i).

Section Particles.

Variables (now width height : R) (bufferLength : nat) (dataArray : list Z).

(** [drawParticles] mutates the particle objects and paints: its store is
    [this.particles] with the drawing context.  The objects of the array
    are distinct (each is a fresh literal pushed by [initParticles]), so
    the array is modelled as a list of records updated by index. *)
Definition Store : Type := (list Particle.t * Ctx)%type.

Definition onCtx {A} (m : M Ctx A) : M Store A :=
  zoom snd (fun c s => (fst s, c)) m.

Definition setParticle (index : nat) (p : Particle.t) : M Store unit :=
  modify (fun s => (set_nth index p (fst s), snd s)).

(** Reflection, evaluated on the moved coordinate before it is clamped. *)
Definition reflect (pos bound speed : R) : R :=
  if numlt pos 0 || numlt bound pos then speed * -1 else speed.

Definition clamp (bound pos : R) : R := Math_max 0 (Math_min bound pos).

(** The movement of one particle: lines 288-295 of the source. *)
Definition move (scale : R) (particle : Particle.t) : Particle.t :=
  let x1 := Particle.x particle + Particle.speedX particle * scale in
  let y1 := Particle.y particle + Particle.speedY particle * scale in
  let speedX1 := reflect x1 width (Particle.speedX particle) in
  let speedY1 := reflect y1 height (Particle.speedY particle) in
  Particle.mk (clamp width x1) (clamp height y1)
              (Particle.radius particle) speedX1 speedY1
              (Particle.hue particle).

(** One iteration of the inner loop over [j]: the link from [particle]
    (already moved) to [this.particles[j]] (not yet moved in this
    tick). *)
Definition link (particle : Particle.t) (hue intensity : R)
           (j : nat) (_ : unit) : M Store unit :=
  s <- get ;;
  match nth_error (fst s) j with
  | None => throw TypeError
  | Some other =>
      let dx := Particle.x other - Particle.x particle in
      let dy := Particle.y other - Particle.y particle in
      let distance := Math_sqrt (dx * dx + dy * dy) in
      if numlt distance (100 * intensity) then
        onCtx (setStrokeStyle (Solid (Hsla hue 100 50 (intensity * 0.3))) ;;;
               setLineWidth 1 ;;;
               beginPath ;;;
               moveTo (Particle.x particle) (Particle.y particle) ;;;
               lineTo (Particle.x other) (Particle.y other) ;;;
               stroke)
      else ret tt
  end.

Definition dataIndex (index len : nat) : Z :=
  Math_floor (INR index / INR len * INR bufferLength).

(** The callback of [this.particles.forEach].  [forEach] visits the
    indices that exist.  On a read of [dataArray] past its end
    [intensity] and [size] are NaN and [createRadialGradient] raises
    TypeError, after the particle has been moved. *)
Definition drawParticles_body (scale : R) (index : nat) (_ : unit)
  : M Store unit :=
  s <- get ;;
  match nth_error (fst s) index with
  | None => ret tt
  | Some particle0 =>
      let len := List.length (fst s) in
      let particle := move scale particle0 in
      setParticle index particle ;;;
      match typed_get dataArray (dataIndex index len) with
      | None => throw TypeError
      | Some d =>
          let intensity := IZR d / 255 in
          let size := Particle.radius particle * (1 + intensity * 2) in
          let hue := rem (Particle.hue particle + now / 50) 360 in
          gradient <- onCtx (createRadialGradient
                               (Particle.x particle) (Particle.y particle) 0
                               (Particle.x particle) (Particle.y particle) size) ;;
          let gradient := addColorStop 0 (Hsla hue 100 50 intensity) gradient in
          let gradient := addColorStop 1 (Hsla hue 100 50 0) gradient in
          onCtx (setFillStyle gradient ;;;
                 beginPath ;;;
                 arc (Particle.x particle) (Particle.y particle) size 0 (PI * 2) ;;;
                 fill) ;;;
          for_range (len - (index + 1)) (index + 1)
                    (link particle hue intensity) tt
      end
  end.

Definition drawParticles : M Store unit :=
  onCtx (setFillStyle (Solid (Rgba 0 0 0 0.1)) ;;;
         fillRect 0 0 width height) ;;;
  sum <- reduce Rplus (map IZR dataArray) ;;
  let average := sum / INR bufferLength in
  let scale := average / 128 in
  s <- get ;;
  for_range (List.length (fst s)) 0 (drawParticles_body scale) tt.

End Particles.

(** ** The engine: [MusicVisualizer] *)

Inductive AudioContextState : Type := Suspended | Running.

(** The object and the parts of its environment it reads and writes.
    [analyser] holds the analyser's [frequencyBinCount].  [dataArray] and
    [bufferLength] are [null] until [initAudioContext]; [null] is
    represented by the empty array and by [0], on which every draw routine
    behaves as on [null] ([i < null] is [i < 0], and [reduce] raises
    TypeError); [visualize], their only caller, raises before reaching
    them while [analyser] is [null].  Every callback registered with
    [requestAnimationFrame] is [() => this.visualize()], so a pending
    callback is its handle. *)
Record State : Type := mkState {
  (* this.audio: the media element *)
  audioPaused : bool;
  audioCurrentTime : R;
  (* this.canvas and window.devicePixelRatio *)
  canvasWidth : R;
  canvasHeight : R;
  devicePixelRatio : R;
  ctx : Ctx;
  (* fields of the constructor *)
  audioContext : option AudioContextState;
  analyser : option nat;
  dataArray : list Z;
  bufferLength : nat;
  isPlaying : bool;
  animationId : option nat;
  mode : string;
  particles : list Particle.t;
  (* the host's animation-frame callbacks *)
  pendingFrames : list nat;
  nextHandle : nat
}.

Definition set_audioPaused (v : bool) (s : State) : State :=
  mkState v (audioCurrentTime s) (canvasWidth s) (canvasHeight s)
    (devicePixelRatio s) (ctx s) (audioContext s) (analyser s) (dataArray s)
    (bufferLength s) (isPlaying s) (animationId s) (mode s) (particles s)
    (pendingFrames s) (nextHandle s).
Definition set_audioCurrentTime (v : R) (s : State) : State :=
  mkState (audioPaused s) v (canvasWidth s) (canvasHeight s)
    (devicePixelRatio s) (ctx s) (audioContext s) (analyser s) (dataArray s)
    (bufferLength s) (isPlaying s) (animationId s) (mode s) (particles s)
    (pendingFrames s) (nextHandle s).
Definition set_ctx (v : Ctx) (s : State) : State :=
  mkState (audioPaused s) (audioCurrentTime s) (canvasWidth s) (canvasHeight
    s) (devicePixelRatio s) v (audioContext s) (analyser s) (dataArray s)
    (bufferLength s) (isPlaying s) (animationId s) (mode s) (particles s)
    (pendingFrames s) (nextHandle s).
Definition set_audioContext (v : option AudioContextState) (s : State) : State :=
  mkState (audioPaused s) (audioCurrentTime s) (canvasWidth s) (canvasHeight
    s) (devicePixelRatio s) (ctx s) v (analyser s) (dataArray s) (bufferLength
    s) (isPlaying s) (animationId s) (mode s) (particles s) (pendingFrames s)
    (nextHandle s).
Definition set_analyser (v : option nat) (s : State) : State :=
  mkState (audioPaused s) (audioCurrentTime s) (canvasWidth s) (canvasHeight
    s) (devicePixelRatio s) (ctx s) (audioContext s) v (dataArray s)
    (bufferLength s) (isPlaying s) (animationId s) (mode s) (particles s)
    (pendingFrames s) (nextHandle s).
Definition set_dataArray (v : list Z) (s : State) : State :=
  mkState (audioPaused s) (audioCurrentTime s) (canvasWidth s) (canvasHeight
    s) (devicePixelRatio s) (ctx s) (audioContext s) (analyser s) v
    (bufferLength s) (isPlaying s) (animationId s) (mode s) (particles s)
    (pendingFrames s) (nextHandle s).
Definition set_bufferLength (v : nat) (s : State) : State :=
  mkState (audioPaused s) (audioCurrentTime s) (canvasWidth s) (canvasHeight
    s) (devicePixelRatio s) (ctx s) (audioContext s) (analyser s) (dataArray
    s) v (isPlaying s) (animationId s) (mode s) (particles s) (pendingFrames
    s) (nextHandle s).
Definition set_isPlaying (v : bool) (s : State) : State :=
  mkState (audioPaused s) (audioCurrentTime s) (canvasWidth s) (canvasHeight
    s) (devicePixelRatio s) (ctx s) (audioContext s) (analyser s) (dataArray
    s) (bufferLength s) v (animationId s) (mode s) (particles s)
    (pendingFrames s) (nextHandle s).
Definition set_animationId (v : option nat) (s : State) : State :=
  mkState (audioPaused s) (audioCurrentTime s) (canvasWidth s) (canvasHeight
    s) (devicePixelRatio s) (ctx s) (audioContext s) (analyser s) (dataArray
    s) (bufferLength s) (isPlaying s) v (mode s) (particles s) (pendingFrames
    s) (nextHandle s).
Definition set_mode (v : string) (s : State) : State :=
  mkState (audioPaused s) (audioCurrentTime s) (canvasWidth s) (canvasHeight
    s) (devicePixelRatio s) (ctx s) (audioContext s) (analyser s) (dataArray
    s) (bufferLength s) (isPlaying s) (animationId s) v (particles s)
    (pendingFrames s) (nextHandle s).
Definition set_particles (v : list Particle.t) (s : State) : State :=
  mkState (audioPaused s) (audioCurrentTime s) (canvasWidth s) (canvasHeight
    s) (devicePixelRatio s) (ctx s) (audioContext s) (analyser s) (dataArray
    s) (bufferLength s) (isPlaying s) (animationId s) (mode s) v
    (pendingFrames s) (nextHandle s).
Definition set_pendingFrames (v : list nat) (s : State) : State :=
  mkState (audioPaused s) (audioCurrentTime s) (canvasWidth s) (canvasHeight
    s) (devicePixelRatio s) (ctx s) (audioContext s) (analyser s) (dataArray
    s) (bufferLength s) (isPlaying s) (animationId s) (mode s) (particles s) v
    (nextHandle s).
Definition set_nextHandle (v : nat) (s : State) : State :=
  mkState (audioPaused s) (audioCurrentTime s) (canvasWidth s) (canvasHeight
    s) (devicePixelRatio s) (ctx s) (audioContext s) (analyser s) (dataArray
    s) (bufferLength s) (isPlaying s) (animationId s) (mode s) (particles s)
    (pendingFrames s) v.

Section Engine.

(** [this.canvas.width / (window.devicePixelRatio || 1)] *)
Definition logicalWidth (s : State) : R :=
  canvasWidth s / or1 (devicePixelRatio s).
Definition logicalHeight (s : State) : R :=
  canvasHeight s / or1 (devicePixelRatio s).

Definition onContext {A} (m : M Ctx A) : M State A := zoom ctx set_ctx m.

Definition onField {A} (m : M Store A) : M State A :=
  zoom (fun s => (particles s, ctx s))
       (fun f s => set_particles (fst f) (set_ctx (snd f) s)) m.

(** [Math.random()] is a stream of numbers in [0, 1); [initParticles]
    draws six per particle, in the order of the object literal. *)
Definition newParticle (random : nat -> R) (s : State) (i : nat) : Particle.t :=
  Particle.mk
    (random (6 * i)%nat * canvasWidth s / or1 (devicePixelRatio s))
    (random (6 * i + 1)%nat * canvasHeight s / or1 (devicePixelRatio s))
    (random (6 * i + 2)%nat * 3 + 1)
    ((random (6 * i + 3)%nat - 0.5) * 2)
    ((random (6 * i + 4)%nat - 0.5) * 2)
    (random (6 * i + 5)%nat * 360).

Definition initParticles (random : nat -> R) : M State unit :=
  s <- get ;;
  modify (set_particles (map (newParticle random s) (seq 0 100))).

(** [fftSize = 256] gives [frequencyBinCount = 128]; a new [Uint8Array]
    is filled with zeros.  [state0] is the state the browser gives a new
    audio context. *)
Definition initAudioContext (state0 : AudioContextState) (random : nat -> R)
  : M State unit :=
  modify (set_audioContext (Some state0)) ;;;
  modify (set_analyser (Some 128%nat)) ;;;
  modify (set_bufferLength 128%nat) ;;;
  modify (set_dataArray (repeat 0%Z 128)) ;;;
  initParticles random.

(** [this.audio.src = url]: the media element starts its load algorithm,
    which pauses the element and puts its playback position back to 0. *)
Definition setAudioSrc : M State unit :=
  modify (set_audioPaused true) ;;;
  modify (set_audioCurrentTime 0).

(** [handleFileSelect] with a file chosen: the track is replaced; the
    track name and the [loadedmetadata] listener touch the page only; the
    audio graph and the particles are created the first time only. *)
Definition handleFileSelect (state0 : AudioContextState) (random : nat -> R)
  : M State unit :=
  setAudioSrc ;;;
  s <- get ;;
  match audioContext s with
  | None => initAudioContext state0 random
  | Some _ => ret tt
  end.

Definition truthy (id : option nat) : bool :=
  match id with
  | Some (S _) => true
  | _ => false
  end.

Definition requestAnimationFrame : M State nat :=
  s <- get ;;
  modify (fun s => set_nextHandle (S (nextHandle s))
                     (set_pendingFrames (pendingFrames s ++ [nextHandle s]) s)) ;;;
  ret (nextHandle s).

Definition cancelAnimationFrame (id : nat) : M State unit :=
  modify (fun s => set_pendingFrames
                     (filter (fun h => negb (Nat.eqb h id)) (pendingFrames s)) s).

(** [analyser.getByteFrequencyData(dataArray)] overwrites the array with
    the current spectrum [sample]: the array keeps its length, excess
    bins are dropped and excess elements are left as they are. *)
Definition overwrite (sample arr : list Z) : list Z :=
  firstn (List.length arr) sample ++ skipn (List.length sample) arr.

Definition getByteFrequencyData (sample : list Z) : M State unit :=
  s <- get ;;
  match analyser s with
  | None => throw TypeError
  | Some _ => modify (set_dataArray (overwrite sample (dataArray s)))
  end.

Definition clearCanvas : M State unit :=
  s <- get ;;
  let width := logicalWidth s in
  let height := logicalHeight s in
  onContext (clearRect 0 0 width height).

Definition drawBars_ : M State unit :=
  s <- get ;;
  onContext (drawBars (logicalWidth s) (logicalHeight s)
                      (bufferLength s) (dataArray s)).

Definition drawCircle_ : M State unit :=
  s <- get ;;
  onContext (drawCircle (logicalWidth s) (logicalHeight s)
                        (bufferLength s) (dataArray s)).

Definition drawWave_ (now : R) : M State unit :=
  s <- get ;;
  onContext (drawWave now (logicalWidth s) (logicalHeight s)
                      (bufferLength s) (dataArray s)).

Definition drawParticles_ (now : R) : M State unit :=
  s <- get ;;
  onField (drawParticles now (logicalWidth s) (logicalHeight s)
                         (bufferLength s) (dataArray s)).

(** One tick.  [now] is [Date.now()] and [sample] the spectrum the
    analyser holds during the call.  The [switch] has no default. *)
Definition visualize (now : R) (sample : list Z) : M State unit :=
  s <- get ;;
  if negb (isPlaying s) then ret tt
  else
    id <- requestAnimationFrame ;;
    modify (set_animationId (Some id)) ;;;
    getByteFrequencyData sample ;;;
    s <- get ;;
    if String.eqb (mode s) "bars"%string then drawBars_
    else if String.eqb (mode s) "circle"%string then drawCircle_
    else if String.eqb (mode s) "wave"%string then drawWave_ now
    else if String.eqb (mode s) "particles"%string then drawParticles_ now
    else ret tt.

Definition play (now : R) (sample : list Z) : M State unit :=
  s <- get ;;
  match audioContext s with
  | Some Suspended => modify (set_audioContext (Some Running))
  | _ => ret tt
  end ;;;
  modify (set_audioPaused false) ;;;
  modify (set_isPlaying true) ;;;
  visualize now sample.

Definition pause : M State unit :=
  modify (set_audioPaused true) ;;;
  modify (set_isPlaying false).

Definition stop : M State unit :=
  modify (set_audioPaused true) ;;;
  modify (set_audioCurrentTime 0) ;;;
  modify (set_isPlaying false) ;;;
  s <- get ;;
  match animationId s with
  | Some id => if truthy (Some id) then cancelAnimationFrame id else ret tt
  | None => ret tt
  end ;;;
  clearCanvas.

(** [value] is [event.target.value], a string. *)
Definition changeMode (value : string) : M State unit :=
  modify (set_mode value).

(** The host runs the callbacks pending at the start of a frame; an
    exception raised by one is reported and the others still run. *)
Definition runCallback (now : R) (sample : list Z) (s : State) : State :=
  snd (visualize now sample s).

Definition animationFrame (now : R) (sample : list Z) (s : State) : State :=
  fold_left (fun s _ => runCallback now sample s) (pendingFrames s)
            (set_pendingFrames [] s).

(** The state the constructor leaves, on a canvas of the given size. *)
Definition construct (canvasWidth canvasHeight devicePixelRatio : R) : State :=
  mkState true 0 canvasWidth canvasHeight devicePixelRatio fresh
          None None [] 0 false None "bars" [] [] 1.

End Engine.

(** ** Observations on what a routine paints *)

(** The operations a computation adds to the surface. *)
Definition emitted {A} (m : M Ctx A) (c : Ctx) : list PaintOp :=
  skipn (List.length (painted c)) (painted (snd (m c))).

(** In [drawBars] a bar is the rectangle filled with the linear gradient
    and its cap the rectangle filled with a plain [hsla] colour; the
    background is filled with an [rgba] colour. *)
Definition isBarFill (op : PaintOp) : bool :=
  match op with
  | FillRect (LinearGradient _ _ _ _ _) _ _ _ _ => true
  | _ => false
  end.

Definition isCapStrip (op : PaintOp) : bool :=
  match op with
  | FillRect (Solid (Hsla _ _ _ _)) _ _ _ _ => true
  | _ => false
  end.

Definition barFills (ops : list PaintOp) : list PaintOp := filter isBarFill ops.
Definition capStrips (ops : list PaintOp) : list PaintOp := filter isCapStrip ops.

Definition rectX (op : PaintOp) : R :=
  match op with
  | FillRect _ x _ _ _ | ClearRect x _ _ _ => x
  | _ => 0
  end.

(** The top edge of a rectangle of non-negative height ([y] grows
    downwards) and its bottom edge. *)
Definition rectTop (op : PaintOp) : R :=
  match op with
  | FillRect _ _ y _ _ | ClearRect _ y _ _ => y
  | _ => 0
  end.

Definition rectHeight (op : PaintOp) : R :=
  match op with
  | FillRect _ _ _ _ h | ClearRect _ _ _ h => h
  | _ => 0
  end.

Definition rectBottom (op : PaintOp) : R := rectTop op + rectHeight op.

Definition noOp : PaintOp := ClearRect 0 0 0 0.

(** The height of bar [i]: [(this.dataArray[i] / 255) * height * 0.8]. *)
Definition barHeightAt (height : R) (dataArray : list Z) (i : nat) : R :=
  IZR (nth i dataArray 0%Z) / 255 * height * 0.8.

(** The two rectangles [drawBars] paints for bin [i], with the offset [x]
    in closed form. *)
Section BarOps.

Variables (width height : R) (bufferLength : nat) (dataArray : list Z).

Definition barStep : R := barWidth width bufferLength + 1.
Definition barHue (i : nat) : R := INR i / INR bufferLength * 360.

Definition barOp (i : nat) : PaintOp :=
  let bh := barHeightAt height dataArray i in
  FillRect (LinearGradient 0 (height - bh) 0 height
              [(0, Hsla (barHue i) 100 50 0.8); (1, Hsla (barHue i) 100 70 0.6)])
           (INR i * barStep) (height - bh) (barWidth width bufferLength) bh.

Definition capOp (i : nat) : PaintOp :=
  let bh := barHeightAt height dataArray i in
  FillRect (Solid (Hsla (barHue i) 100 80 0.3))
           (INR i * barStep) (height - bh - 10) (barWidth width bufferLength) 5.

End BarOps.

(** The line segments among the painted operations: the stroked paths made
    of one [moveTo] and one [lineTo], as pairs of end points. *)
Definition segmentOf (op : PaintOp) : option ((R * R) * (R * R)) :=
  match op with
  | StrokePath _ _ [MoveTo x1 y1; LineTo x2 y2] => Some ((x1, y1), (x2, y2))
  | _ => None
  end.

Fixpoint segments (ops : list PaintOp) : list ((R * R) * (R * R)) :=
  match ops with
  | [] => []
  | op :: ops' =>
      match segmentOf op with
      | Some sg => sg :: segments ops'
      | None => segments ops'
      end
  end.

(** Euclidean distance between two points of the surface. *)
Definition distance (p q : R * R) : R :=
  sqrt ((fst p - fst q) * (fst p - fst q) + (snd p - snd q) * (snd p - snd q)).

(** The stroke [drawCircle] paints for bin [i]. *)
Section CircleOps.

Variables (width height : R) (bufferLength : nat) (dataArray : list Z).

Definition spokeAngle (i : nat) : R := INR i / INR bufferLength * PI * 2.
Definition spokeLength (i : nat) : R := IZR (nth i dataArray 0%Z) / 255 * 100.

Definition spokeOp (i : nat) : PaintOp :=
  let r := radius width height in
  StrokePath (Solid (Hsla (INR i / INR bufferLength * 360) 100 50 0.8)) 2
    [MoveTo (centerX width + cos (spokeAngle i) * r)
            (centerY height + sin (spokeAngle i) * r);
     LineTo (centerX width + cos (spokeAngle i) * (r + spokeLength i))
            (centerY height + sin (spokeAngle i) * (r + spokeLength i))].

Definition baseCircleOp : PaintOp :=
  StrokePath (Solid (Rgba 255 255 255 0.5)) 2
    [Arc (centerX width) (centerY height) (radius width height) 0 (PI * 2)].

End CircleOps.

(** The operations a computation over the particle store paints. *)
Definition emittedField {A} (m : M Store A) (s : Store) : list PaintOp :=
  skipn (List.length (painted (snd s))) (painted (snd (snd (m s)))).

Definition isStroke (op : PaintOp) : bool :=
  match op with
  | StrokePath _ _ _ => true
  | _ => false
  end.

Definition strokes (ops : list PaintOp) : list PaintOp := filter isStroke ops.

(** A position within the surface: [0 <= x <= width], [0 <= y <= height]. *)
Definition inBounds (width height : R) (p : Particle.t) : Prop :=
  0 <= Particle.x p <= width /\ 0 <= Particle.y p <= height.

(** The energy factor [scale] of [drawParticles] on a non-empty
    [dataArray]: [(sum / bufferLength) / 128]. *)
Definition energy (bufferLength : nat) (dataArray : list Z) : R :=
  match map IZR dataArray with
  | [] => 0
  | a :: rest => fold_left Rplus rest a / INR bufferLength / 128
  end.

(** What the analyser and [initParticles] guarantee: [dataArray] holds
    [bufferLength] bytes, at least one, and no particle has a negative
    radius. *)
Definition spectrumOk (bufferLength : nat) (dataArray : list Z) : Prop :=
  List.length dataArray = bufferLength
  /\ dataArray <> []
  /\ Forall (fun d => (0 <= d <= 255)%Z) dataArray.

Definition fieldOk (particles : list Particle.t) : Prop :=
  Forall (fun p => 0 <= Particle.radius p) particles.

(** ** Observations on the engine *)

(** The values of the mode selector the [switch] of [visualize] knows. *)
Definition validModes : list string :=
  ["bars"%string; "circle"%string; "wave"%string; "particles"%string].

(** The fields the animation loop lives on. *)
Definition sameLoop (s s' : State) : Prop :=
  isPlaying s' = isPlaying s
  /\ pendingFrames s' = pendingFrames s
  /\ animationId s' = animationId s
  /\ nextHandle s' = nextHandle s.

(** The callbacks left pending by the [cancelAnimationFrame] of [stop]. *)
Definition afterCancel (s : State) : list nat :=
  match animationId s with
  | Some (S id) => filter (fun h => negb (Nat.eqb h (S id))) (pendingFrames s)
  | _ => pendingFrames s
  end.

Definition numle (a b : R) : bool := if Rle_dec a b then true else false.

(** [clearRect] over a rectangle that contains the whole surface erases
    everything painted before. *)
Definition clearsSurface (width height : R) (op : PaintOp) : bool :=
  match op with
  | ClearRect x y w h =>
      numle x 0 && numle y 0 && numle width (x + w) && numle height (y + h)
  | _ => false
  end.

(** What is left on a surface of the given size after a sequence of
    operations: those painted since the last clear of the whole surface. *)
Definition visible (width height : R) (ops : list PaintOp) : list PaintOp :=
  fold_left (fun acc op => if clearsSurface width height op then [] else acc ++ [op])
            ops [].

Definition surfaceCleared (s : State) : Prop :=
  visible (logicalWidth s) (logicalHeight s) (painted (ctx s)) = [].

(** A run of display frames, each with its clock value and spectrum. *)
Definition frames (inputs : list (R * list Z)) (s : State) : State :=
  fold_left (fun s i => animationFrame (fst i) (snd i) s) inputs s.

(** ** Concrete inputs *)

(** An engine on a surface of 800 by 400, playing, with the given mode,
    spectrum and particles. *)
Definition playing (mode : string) (dataArray : list Z)
           (particles : list Particle.t) : State :=
  mkState false 0 800 400 1 fresh (Some Running)
          (Some (List.length dataArray)) dataArray (List.length dataArray)
          true None mode particles [] 1.

(** A particle on the right edge of a surface of width 800, moving right. *)
Definition edgeParticle : Particle.t := Particle.mk 800 200 2 1 0 0.

(** The stroke [drawWave] paints for a layer, with the offset [x] of its
    points in closed form. *)
Section WaveOps.

Variables (now width height : R) (bufferLength : nat) (dataArray : list Z).

Definition waveY (layer i : nat) : R :=
  height / 2
  + (IZR (nth i dataArray 0%Z) / 255 * height / 3
     * sin ((INR i + INR layer * 30) * 0.1))
  - (INR layer * 30).

Definition wavePoint (layer i : nat) : PathCmd :=
  if Nat.eqb i 0
  then MoveTo (INR i * sliceWidth width bufferLength) (waveY layer i)
  else LineTo (INR i * sliceWidth width bufferLength) (waveY layer i).

Definition waveOp (layer : nat) : PaintOp :=
  StrokePath (Solid (Hsla (rem (now / 50 + INR layer * 120) 360) 100 50 0.6)) 3
             (map (wavePoint layer) (seq 0 bufferLength)).

End WaveOps.

(** The path of a stroke or fill, and the coordinates of a path command. *)
Definition pathOf (op : PaintOp) : list PathCmd :=
  match op with
  | StrokePath _ _ p | FillPath _ p => p
  | _ => []
  end.

Definition strokeWidth (op : PaintOp) : R :=
  match op with
  | StrokePath _ w _ => w
  | _ => 0
  end.

Definition cmdX (cmd : PathCmd) : R :=
  match cmd with
  | MoveTo x _ | LineTo x _ | Arc x _ _ _ _ => x
  end.

Definition cmdY (cmd : PathCmd) : R :=
  match cmd with
  | MoveTo _ y | LineTo _ y | Arc _ y _ _ _ => y
  end.

Definition isMoveTo (cmd : PathCmd) : bool :=
  match cmd with
  | MoveTo _ _ => true
  | _ => false
  end.

Definition noCmd : PathCmd := MoveTo 0 0.

(** A byte of a [Uint8Array]. *)
Definition isByte (d : Z) : Prop := (0 <= d <= 255)%Z.

Definition noSegment : (R * R) * (R * R) := ((0, 0), (0, 0)).

(** What [drawParticles] never changes in a particle: its radius, its hue
    and the magnitude of its speed along each axis. *)
Definition sameAttributes (p p' : Particle.t) : Prop :=
  Particle.radius p' = Particle.radius p
  /\ Particle.hue p' = Particle.hue p
  /\ Rabs (Particle.speedX p') = Rabs (Particle.speedX p)
  /\ Rabs (Particle.speedY p') = Rabs (Particle.speedY p).

Definition isFill (op : PaintOp) : bool :=
  match op with
  | FillPath _ _ => true
  | _ => false
  end.

Definition fills (ops : list PaintOp) : list PaintOp := filter isFill ops.

(** The disc [drawParticles] paints for a particle [p] (already moved)
    whose bin holds the byte [d]. *)
Definition discOp (now : R) (p : Particle.t) (d : Z) : PaintOp :=
  let intensity := IZR d / 255 in
  let size := Particle.radius p * (1 + intensity * 2) in
  let hue := rem (Particle.hue p + now / 50) 360 in
  FillPath (RadialGradient (Particle.x p) (Particle.y p) 0
                           (Particle.x p) (Particle.y p) size
                           [(0, Hsla hue 100 50 intensity); (1, Hsla hue 100 50 0)])
           [Arc (Particle.x p) (Particle.y p) size 0 (PI * 2)].

(** The byte of the bin that the particle of index [index] in a field of
    [len] particles reads ([0] when there is none). *)
Definition binOf (bufferLength : nat) (dataArray : list Z) (index len : nat) : Z :=
  match typed_get dataArray (dataIndex bufferLength index len) with
  | Some d => d
  | None => 0%Z
  end.

(** Centre and radius of a disc. *)
Definition discCentre (op : PaintOp) : R * R :=
  match pathOf op with
  | [Arc x y _ _ _] => (x, y)
  | _ => (0, 0)
  end.

Definition discRadius (op : PaintOp) : R :=
  match pathOf op with
  | [Arc _ _ r _ _] => r
  | _ => 0
  end.

(** ** The event listeners: [initEventListeners] *)

(** The events the constructor subscribes to that reach the engine, with
    what each delivers: a file chosen (with the state the browser gives
    the new audio context and the random numbers [initParticles] draws), a
    click on play (with the clock and the spectrum of the tick it starts),
    on pause and on stop, the end of the track, a change of the mode
    selector, and a display frame of the host (with the clock and the
    spectrum of its ticks).  The volume slider, the progress bar and the
    [timeupdate] event touch the media element and the page only; a
    resize of the window is not modelled. *)
Inductive Event : Type :=
| FileSelected (state0 : AudioContextState) (random : nat -> R)
| PlayClicked (now : R) (sample : list Z)
| PauseClicked
| StopClicked
| AudioEnded
| ModeChanged (value : string)
| Frame (now : R) (sample : list Z).

(** The state an event leaves; an exception raised by a listener is
    reported by the host and the state stays as the listener left it. *)
Definition fire (e : Event) (s : State) : State :=
  match e with
  | FileSelected state0 random => snd (handleFileSelect state0 random s)
  | PlayClicked now sample => snd (play now sample s)
  | PauseClicked => snd (pause s)
  | StopClicked => snd (stop s)
  | AudioEnded => snd (stop s)
  | ModeChanged value => snd (changeMode value s)
  | Frame now sample => animationFrame now sample s
  end.

Definition fireAll (es : list Event) (s : State) : State :=
  fold_left (fun s e => fire e s) es s.

(** What the host guarantees of the inputs of an event: random numbers
    lie in [0, 1) and a spectrum is made of bytes. *)
Definition eventOk (e : Event) : Prop :=
  match e with
  | FileSelected _ random => forall n, 0 <= random n < 1
  | PlayClicked _ sample | Frame _ sample => Forall isByte sample
  | _ => True
  end.

(** The invariant of the engine: a canvas of non-negative size and pixel
    ratio, a spectrum array of [bufferLength] bytes, particles of non-negative
    radius within the surface and, once the audio graph exists, 128 bins
    and 100 particles. *)
Definition engineOk (s : State) : Prop :=
  0 <= canvasWidth s /\ 0 <= canvasHeight s /\ 0 <= devicePixelRatio s
  /\ List.length (dataArray s) = bufferLength s
  /\ Forall isByte (dataArray s)
  /\ fieldOk (particles s)
  /\ Forall (inBounds (logicalWidth s) (logicalHeight s)) (particles s)
  /\ (analyser s <> None ->
      bufferLength s = 128%nat /\ List.length (particles s) = 100%nat).

(** The ranges [initParticles] draws a particle from. *)
Definition freshParticle (width height : R) (p : Particle.t) : Prop :=
  0 <= Particle.x p <= width /\ 0 <= Particle.y p <= height
  /\ 1 <= Particle.radius p < 4
  /\ -1 <= Particle.speedX p < 1
  /\ -1 <= Particle.speedY p < 1
  /\ 0 <= Particle.hue p < 360.

(** The state in which [play] calls [visualize]: a suspended audio
    context resumed, the media element playing, [isPlaying] set. *)
Definition started (s : State) : State :=
  set_isPlaying true
    (set_audioPaused false
       (match audioContext s with
        | Some Suspended => set_audioContext (Some Running) s
        | _ => s
        end)).

(** ** Transport glue: [formatTime], [seek], [updateProgress] *)

(** [n.toString()] and the [${n}] of a template literal, on a number with
    an integer value (below [10^21] in magnitude, where JavaScript still
    prints all digits): the decimal digits, with a sign when negative. *)
Definition toString (n : Z) : string := NilZero.string_of_int (Z.to_int n).

(** [s.padStart(n, c)] with a pad string of one character. *)
Definition padStart (n : nat) (c : ascii) (s : string) : string :=
  (string_of_list_ascii (repeat c (n - String.length s)) ++ s)%string.

Definition formatTime (seconds : R) : string :=
  let mins := Math_floor (seconds / 60) in
  let secs := Math_floor (rem seconds 60) in
  (toString mins ++ ":" ++ padStart 2 "0" (toString secs))%string.

(** [seek]: [clickX] is [event.offsetX], [offsetWidth] the width of the
    progress bar and [duration] the duration of the track. *)
Definition seek (clickX offsetWidth duration : R) : M State unit :=
  modify (set_audioCurrentTime (clickX / offsetWidth * duration)).

(** [updateProgress] writes two things to the page: the width of the
    progress bar in percent and the text of the current time. *)
Definition updateProgress (duration : R) (s : State) : R * string :=
  let progress := audioCurrentTime s / duration * 100 in
  (progress, formatTime (audioCurrentTime s)).

(** The digit of a number between 0 and 9, and the two digits of a number
    between 0 and 99. *)
Definition digit (d : Z) : ascii := ascii_of_nat (48 + Z.to_nat d).

Definition twoDigits (n : Z) : string :=
  String (digit (n / 10)) (String (digit (n mod 10)) EmptyString).

(** The engine after a first file has been selected on a canvas of 800 by
    400, and the same engine playing in Particles mode. *)
Definition loadedEngine : State :=
  snd (handleFileSelect Running (fun _ => 0) (construct 800 400 1)).

Definition loadedPlaying : State :=
  set_isPlaying true (set_mode "particles" loadedEngine).

(** The engine after a first file has been selected, the Particles mode
    chosen and play clicked, on a canvas of 800 by 400 with a silent
    spectrum of 128 bins. *)
Definition playingEngine : State :=
  fireAll [FileSelected Running (fun _ => 0); ModeChanged "particles";
           PlayClicked 0 (repeat 0%Z 128)]
          (construct 800 400 1).

(** * Properties *)

(** ** Evaluation of the monad *)

Ltac run :=
  repeat (unfold bind, ret, modify, get, put, throw, zoom; cbn).

(** ** Bars mode *)

Section BarsFacts.

Variables (width height : R) (bufferLength : nat) (dataArray : list Z).

Let step : R := barStep width bufferLength.
Let bar : nat -> PaintOp := barOp width height bufferLength dataArray.
Let cap : nat -> PaintOp := capOp width height bufferLength dataArray.

Lemma drawBars_loop (n lo : nat) (c : Ctx) :
  (lo + n <= List.length dataArray)%nat ->
  exists c',
    for_range n lo (drawBars_body width height bufferLength dataArray)
              (INR lo * step) c
    = (Normal (INR (lo + n) * step), c')
    /\ painted c' = painted c ++ flat_map (fun i => [bar i; cap i]) (seq lo n).
Proof.
  revert lo c. induction n as [|n IH]; intros lo c Hlen.
  - exists c. cbn. rewrite Nat.add_0_r, app_nil_r. split; reflexivity.
  - destruct (nth_error dataArray lo) as [d|] eqn:Hd.
    2:{ apply nth_error_None in Hd. lia. }
    cbn [for_range]. unfold bind at 1. unfold drawBars_body at 1.
    rewrite Hd. run.
    replace (INR lo * step + (barWidth width bufferLength + 1))
      with (INR (S lo) * step) by (rewrite S_INR; unfold step, barStep; ring).
    match goal with |- context [for_range n (S lo) _ _ ?c1] =>
      destruct (IH (S lo) c1) as (c' & Hrun & Hp) end.
    { lia. }
    replace (S lo + n)%nat with (lo + S n)%nat in Hrun by lia.
    exists c'. rewrite Hrun. split; [reflexivity|].
    rewrite Hp. cbn. rewrite <- !app_assoc. cbn.
    unfold bar, cap, barOp, capOp, barHeightAt.
    rewrite (nth_error_nth _ _ _ Hd). reflexivity.
Qed.

Lemma drawBars_painted (c : Ctx) :
  List.length dataArray = bufferLength ->
  exists c',
    drawBars width height bufferLength dataArray c = (Normal tt, c')
    /\ painted c' = painted c
                    ++ FillRect (Solid (Rgba 0 0 0 0.2)) 0 0 width height
                    :: flat_map (fun i => [bar i; cap i]) (seq 0 bufferLength).
Proof.
  intros Hlen. unfold drawBars. run.
  match goal with |- context [for_range _ 0 _ 0 ?c1] =>
    destruct (drawBars_loop bufferLength 0 c1) as (c' & Hrun & Hp) end.
  { lia. }
  replace (INR 0 * step) with 0 in Hrun by (cbn; ring).
  rewrite Hrun. exists c'. split; [reflexivity|].
  rewrite Hp. cbn. rewrite <- app_assoc. reflexivity.
Qed.


Lemma emitted_app {A} (m : M Ctx A) (c : Ctx) (ops : list PaintOp) :
  painted (snd (m c)) = painted c ++ ops -> emitted m c = ops.
Proof.
  intros H. unfold emitted. rewrite H, skipn_app, skipn_all, Nat.sub_diag.
  reflexivity.
Qed.

Lemma drawBars_emitted (c : Ctx) :
  List.length dataArray = bufferLength ->
  fst (drawBars width height bufferLength dataArray c) = Normal tt
  /\ emitted (drawBars width height bufferLength dataArray) c
     = FillRect (Solid (Rgba 0 0 0 0.2)) 0 0 width height
       :: flat_map (fun i => [bar i; cap i]) (seq 0 bufferLength).
Proof.
  intros Hlen. destruct (drawBars_painted c Hlen) as (c' & Hrun & Hp).
  split.
  - rewrite Hrun. reflexivity.
  - apply emitted_app. rewrite Hrun. exact Hp.
Qed.

Lemma barFills_pairs (l : list nat) :
  barFills (flat_map (fun i => [bar i; cap i]) l) = map bar l.
Proof.
  induction l as [|i l IH]; [reflexivity|].
  cbn. unfold barFills in IH. rewrite IH. reflexivity.
Qed.

Lemma capStrips_pairs (l : list nat) :
  capStrips (flat_map (fun i => [bar i; cap i]) l) = map cap l.
Proof.
  induction l as [|i l IH]; [reflexivity|].
  cbn. unfold capStrips in IH. rewrite IH. reflexivity.
Qed.

Lemma drawBars_barFills (c : Ctx) :
  List.length dataArray = bufferLength ->
  barFills (emitted (drawBars width height bufferLength dataArray) c)
  = map bar (seq 0 bufferLength).
Proof.
  intros Hlen. destruct (drawBars_emitted c Hlen) as [_ ->].
  exact (barFills_pairs _).
Qed.

Lemma drawBars_capStrips (c : Ctx) :
  List.length dataArray = bufferLength ->
  capStrips (emitted (drawBars width height bufferLength dataArray) c)
  = map cap (seq 0 bufferLength).
Proof.
  intros Hlen. destruct (drawBars_emitted c Hlen) as [_ ->].
  exact (capStrips_pairs _).
Qed.

Lemma nth_map_seq {A} (f : nat -> A) (n i : nat) (d : A) :
  (i < n)%nat -> nth i (map f (seq 0 n)) d = f i.
Proof.
  intros Hi. rewrite (nth_indep _ d (f 0%nat)) by (rewrite length_map, length_seq; exact Hi).
  rewrite (map_nth f), seq_nth by exact Hi. reflexivity.
Qed.

Lemma barStep_pos : 0 <= width -> 0 < step.
Proof.
  intros Hw. unfold step, barStep, barWidth.
  assert (0 <= width / INR bufferLength).
  { destruct bufferLength as [|n].
    - cbn. unfold Rdiv. rewrite Rinv_0. lra.
    - apply Rmult_le_pos; [exact Hw|].
      left. apply Rinv_0_lt_compat. apply lt_0_INR. lia. }
  lra.
Qed.

(** C5: on a spectrum of [bufferLength] bins [drawBars] returns and
    paints exactly [bufferLength] bars and [bufferLength] caps; bar and
    cap of a bin share their offset, the first offset is [0], successive
    offsets differ by exactly [barWidth + 1] with
    [barWidth = (width / bufferLength) * 2.5], and on a surface of
    non-negative width they increase strictly. *)
Theorem drawBars_counts_and_offsets (c : Ctx) :
  List.length dataArray = bufferLength ->
  0 <= width ->
  let ops := emitted (drawBars width height bufferLength dataArray) c in
  let barX i := rectX (nth i (barFills ops) noOp) in
  let capX i := rectX (nth i (capStrips ops) noOp) in
  fst (drawBars width height bufferLength dataArray c) = Normal tt
  /\ List.length (barFills ops) = bufferLength
  /\ List.length (capStrips ops) = bufferLength
  /\ (forall i, (i < bufferLength)%nat -> capX i = barX i)
  /\ (forall i, (i < bufferLength)%nat ->
                barX i = INR i * (width / INR bufferLength * 2.5 + 1))
  /\ (forall i, (S i < bufferLength)%nat ->
                barX (S i) - barX i = width / INR bufferLength * 2.5 + 1
                /\ barX i < barX (S i)).
Proof.
  intros Hlen Hw ops barX capX. subst ops barX capX. cbv beta.
  rewrite (drawBars_barFills c Hlen), (drawBars_capStrips c Hlen).
  rewrite !length_map, !length_seq.
  split; [exact (proj1 (drawBars_emitted c Hlen))|].
  split; [reflexivity|]. split; [reflexivity|].
  pose proof (barStep_pos Hw) as Hstep.
  unfold step, barStep, barWidth in Hstep.
  split; [|split].
  - intros i Hi. rewrite !nth_map_seq by exact Hi. reflexivity.
  - intros i Hi. rewrite nth_map_seq by exact Hi. reflexivity.
  - intros i Hi. rewrite !nth_map_seq by lia.
    unfold bar, barOp, rectX, barStep, barWidth. rewrite S_INR. lra.
Qed.

(** C4, as the code has it: for every bin the cap is a strip of height
    [5] over the bar's width whose top edge lies [10] above the top edge
    [height - barHeight] of the bar, so its bottom edge lies [5] above
    that edge: bar and cap are separated by a gap of [5]. *)
Theorem drawBars_cap_above_gap (c : Ctx) (i : nat) :
  List.length dataArray = bufferLength ->
  (i < bufferLength)%nat ->
  let ops := emitted (drawBars width height bufferLength dataArray) c in
  let barRect := nth i (barFills ops) noOp in
  let capRect := nth i (capStrips ops) noOp in
  rectTop barRect = height - barHeightAt height dataArray i
  /\ rectX capRect = rectX barRect
  /\ rectHeight capRect = 5
  /\ rectTop capRect = rectTop barRect - 10
  /\ rectBottom capRect = rectTop barRect - 5.
Proof.
  intros Hlen Hi ops barRect capRect. subst ops barRect capRect.
  rewrite (drawBars_barFills c Hlen), (drawBars_capStrips c Hlen).
  rewrite !nth_map_seq by exact Hi.
  unfold bar, cap, barOp, capOp, rectBottom, rectTop, rectHeight, rectX.
  repeat split; lra.
Qed.

End BarsFacts.

(** ** Radial mode *)

Section CircleFacts.

Variables (width height : R) (bufferLength : nat) (dataArray : list Z).

Let spoke : nat -> PaintOp := spokeOp width height bufferLength dataArray.

Lemma drawCircle_loop (n lo : nat) (c : Ctx) :
  (lo + n <= List.length dataArray)%nat ->
  exists c',
    for_range n lo (drawCircle_body width height bufferLength dataArray) tt c
    = (Normal tt, c')
    /\ painted c' = painted c ++ map spoke (seq lo n).
Proof.
  revert lo c. induction n as [|n IH]; intros lo c Hlen.
  - exists c. cbn. rewrite app_nil_r. split; reflexivity.
  - destruct (nth_error dataArray lo) as [d|] eqn:Hd.
    2:{ apply nth_error_None in Hd. lia. }
    cbn [for_range]. unfold bind at 1. unfold drawCircle_body at 1.
    rewrite Hd. run.
    match goal with |- context [for_range n (S lo) _ _ ?c1] =>
      destruct (IH (S lo) c1) as (c' & Hrun & Hp) end.
    { lia. }
    exists c'. rewrite Hrun. split; [reflexivity|].
    rewrite Hp. cbn. rewrite <- app_assoc. cbn.
    unfold spoke, spokeOp, spokeAngle, spokeLength.
    rewrite (nth_error_nth _ _ _ Hd). reflexivity.
Qed.

Lemma radius_nonneg : 0 <= width -> 0 <= height -> 0 <= radius width height.
Proof.
  intros Hw Hh. unfold radius, Math_min.
  pose proof (Rmin_glb _ _ _ Hw Hh). lra.
Qed.

Lemma numlt_false (a b : R) : b <= a -> numlt a b = false.
Proof. intros H. unfold numlt. destruct (Rlt_dec a b); [lra|reflexivity]. Qed.

Lemma numlt_true (a b : R) : a < b -> numlt a b = true.
Proof. intros H. unfold numlt. destruct (Rlt_dec a b); [reflexivity|lra]. Qed.

Lemma drawCircle_emitted (c : Ctx) :
  List.length dataArray = bufferLength ->
  0 <= width -> 0 <= height ->
  fst (drawCircle width height bufferLength dataArray c) = Normal tt
  /\ emitted (drawCircle width height bufferLength dataArray) c
     = FillRect (Solid (Rgba 0 0 0 0.1)) 0 0 width height
       :: map spoke (seq 0 bufferLength) ++ [baseCircleOp width height].
Proof.
  intros Hlen Hw Hh.
  assert (exists c', drawCircle width height bufferLength dataArray c = (Normal tt, c')
                     /\ painted c' = painted c
                          ++ FillRect (Solid (Rgba 0 0 0 0.1)) 0 0 width height
                          :: map spoke (seq 0 bufferLength) ++ [baseCircleOp width height])
    as (c' & Hrun & Hp).
  { unfold drawCircle. run.
    match goal with |- context [for_range _ 0 _ tt ?c1] =>
      destruct (drawCircle_loop bufferLength 0 c1) as (c1' & Hrun & Hp) end.
    { lia. }
    rewrite Hrun. unfold arc.
    rewrite (numlt_false _ _ (radius_nonneg Hw Hh)). run.
    eexists. split; [reflexivity|]. cbn. rewrite Hp. cbn.
    rewrite <- !app_assoc. reflexivity. }
  split.
  - rewrite Hrun. reflexivity.
  - apply emitted_app. rewrite Hrun. exact Hp.
Qed.

Lemma segments_app (l1 l2 : list PaintOp) :
  segments (l1 ++ l2) = segments l1 ++ segments l2.
Proof.
  induction l1 as [|op l1 IH]; [reflexivity|].
  cbn. destruct (segmentOf op); rewrite IH; reflexivity.
Qed.

Lemma segments_spokes (l : list nat) :
  segments (map spoke l)
  = map (fun i => match segmentOf (spoke i) with
                  | Some sg => sg
                  | None => ((0, 0), (0, 0))
                  end) l.
Proof.
  induction l as [|i l IH]; [reflexivity|].
  cbn. rewrite IH. reflexivity.
Qed.

Lemma on_circle (a r : R) :
  0 <= r -> sqrt (cos a * r * (cos a * r) + sin a * r * (sin a * r)) = r.
Proof.
  intros Hr.
  replace (cos a * r * (cos a * r) + sin a * r * (sin a * r))
    with (Rsqr r * (Rsqr (sin a) + Rsqr (cos a))) by (unfold Rsqr; ring).
  rewrite sin2_cos2, Rmult_1_r. apply sqrt_Rsqr. exact Hr.
Qed.

(** C7: on a spectrum whose bins are all [0], over a surface of
    non-negative dimensions, [drawCircle] returns and strokes one line
    segment per bin, and both end points of every segment lie at
    distance [min(width, height) / 4] from the centre of the surface. *)
Theorem drawCircle_silent_on_base_circle (c : Ctx) :
  List.length dataArray = bufferLength ->
  Forall (fun d => d = 0%Z) dataArray ->
  0 <= width -> 0 <= height ->
  let ops := emitted (drawCircle width height bufferLength dataArray) c in
  let centre := (width / 2, height / 2) in
  let baseRadius := Rmin width height / 4 in
  fst (drawCircle width height bufferLength dataArray c) = Normal tt
  /\ List.length (segments ops) = bufferLength
  /\ Forall (fun sg => distance (fst sg) centre = baseRadius
                       /\ distance (snd sg) centre = baseRadius)
            (segments ops).
Proof.
  intros Hlen Hzero Hw Hh ops centre baseRadius. subst ops.
  destruct (drawCircle_emitted c Hlen Hw Hh) as [Hn ->].
  split; [exact Hn|].
  change (?a :: ?l ++ ?t) with ([a] ++ l ++ t).
  rewrite !segments_app, segments_spokes. cbn [segments segmentOf baseCircleOp app].
  rewrite app_nil_r. split.
  - rewrite length_map, length_seq. reflexivity.
  - apply Forall_forall. intros sg Hin.
    apply in_map_iff in Hin. destruct Hin as (i & <- & Hi).
    apply in_seq in Hi.
    assert (Hbin : nth i dataArray 0%Z = 0%Z).
    { rewrite Forall_forall in Hzero. apply Hzero. apply nth_In. lia. }
    pose proof (radius_nonneg Hw Hh) as Hr.
    unfold spoke, spokeOp, spokeLength, distance, centre, baseRadius. cbn.
    rewrite Hbin. unfold centerX, centerY.
    fold (radius width height) in *.
    replace (radius width height + 0 / 255 * 100) with (radius width height) by lra.
    replace (width / 2 + cos (spokeAngle bufferLength i) * radius width height - width / 2)
      with (cos (spokeAngle bufferLength i) * radius width height) by ring.
    replace (height / 2 + sin (spokeAngle bufferLength i) * radius width height - height / 2)
      with (sin (spokeAngle bufferLength i) * radius width height) by ring.
    rewrite on_circle by exact Hr. split; reflexivity.
Qed.

End CircleFacts.

(** ** Particles mode *)

Section ParticlesFacts.

Variables (now width height : R) (bufferLength : nat) (dataArray : list Z).

Let body := drawParticles_body now width height bufferLength dataArray.

Lemma nth_error_mid {A} (done todo : list A) (a : A) :
  nth_error (done ++ a :: todo) (List.length done) = Some a.
Proof.
  rewrite nth_error_app2 by lia. rewrite Nat.sub_diag. reflexivity.
Qed.

Lemma set_nth_mid {A} (done todo : list A) (a v : A) :
  set_nth (List.length done) v (done ++ a :: todo) = done ++ v :: todo.
Proof.
  induction done as [|b done IH]; [reflexivity|].
  cbn. rewrite IH. reflexivity.
Qed.

Lemma sqrt_not_below_zero (a : R) : numlt (Math_sqrt a) (100 * 0) = false.
Proof.
  apply numlt_false. unfold Math_sqrt. pose proof (sqrt_pos a). lra.
Qed.

(** The links of a particle never touch the particle array; they
    complete when every index they visit exists. *)
Lemma link_loop_run (p : Particle.t) (hue intensity : R) (n j : nat)
      (ps : list Particle.t) (c : Ctx) :
  (j + n <= List.length ps)%nat ->
  exists c',
    for_range n j (link p hue intensity) tt (ps, c) = (Normal tt, (ps, c')).
Proof.
  revert j c. induction n as [|n IH]; intros j c Hj.
  - exists c. reflexivity.
  - destruct (nth_error ps j) as [other|] eqn:Ho.
    2:{ apply nth_error_None in Ho. lia. }
    cbn [for_range]. unfold bind at 1. unfold link at 1.
    unfold bind at 1, get at 1. cbn [fst]. rewrite Ho.
    destruct (numlt _ _).
    + unfold onCtx, zoom. run. apply IH. lia.
    + unfold ret at 1. apply IH. lia.
Qed.

(** With intensity [0] the links paint nothing, whatever they visit. *)
Lemma link_loop_silent (p : Particle.t) (hue : R) (n j : nat) (s : Store) :
  snd (for_range n j (link p hue 0) tt s) = s.
Proof.
  revert j. induction n as [|n IH]; intros j; [reflexivity|].
  cbn [for_range]. unfold bind at 1. unfold link at 1.
  unfold bind at 1, get at 1.
  destruct (nth_error (fst s) j) as [other|].
  - rewrite sqrt_not_below_zero. unfold ret at 1. apply IH.
  - reflexivity.
Qed.


Lemma dataIndex_range (index len : nat) :
  (index < len)%nat -> (0 < bufferLength)%nat ->
  (0 <= dataIndex bufferLength index len < Z.of_nat bufferLength)%Z.
Proof.
  intros Hi Hpos. unfold dataIndex, Math_floor.
  set (r := INR index / INR len * INR bufferLength).
  assert (Hlen : 0 < INR len) by (apply lt_0_INR; lia).
  assert (Hidx : 0 <= INR index) by apply pos_INR.
  assert (Hlt : INR index < INR len) by (apply lt_INR; exact Hi).
  assert (Hn : 0 < INR bufferLength) by (apply lt_0_INR; exact Hpos).
  assert (Hq : 0 <= INR index / INR len < 1).
  { split.
    - apply Rmult_le_pos; [exact Hidx|]. left. apply Rinv_0_lt_compat. exact Hlen.
    - apply (Rmult_lt_reg_r (INR len)); [exact Hlen|].
      unfold Rdiv. rewrite Rmult_assoc, Rinv_l by lra. lra. }
  assert (Hr : 0 <= r < INR bufferLength) by (unfold r; nra).
  split.
  - apply Zfloor_lub. cbn. lra.
  - apply lt_IZR. rewrite <- INR_IZR_INZ.
    pose proof (Zfloor_bound r). lra.
Qed.

Lemma typed_get_some (index len : nat) :
  (index < len)%nat -> spectrumOk bufferLength dataArray ->
  exists d, typed_get dataArray (dataIndex bufferLength index len) = Some d
            /\ (0 <= d <= 255)%Z.
Proof.
  intros Hi (Hlen & Hne & Hbytes).
  assert (Hpos : (0 < bufferLength)%nat).
  { destruct dataArray; [congruence|]. cbn in Hlen. lia. }
  pose proof (dataIndex_range index len Hi Hpos) as Hrange.
  unfold typed_get.
  destruct (Z.ltb_spec (dataIndex bufferLength index len) 0); [lia|].
  destruct (nth_error dataArray (Z.to_nat (dataIndex bufferLength index len)))
    as [d|] eqn:Hd.
  - exists d. split; [reflexivity|].
    rewrite Forall_forall in Hbytes. apply Hbytes.
    eapply nth_error_In. exact Hd.
  - apply nth_error_None in Hd. lia.
Qed.

(** One call of the callback on a well-formed store: the particle at
    [index] is replaced by its moved value, the others are left alone,
    and the call returns. *)
Lemma drawParticles_body_run (scale : R) (done todo : list Particle.t)
      (p0 : Particle.t) (c : Ctx) :
  spectrumOk bufferLength dataArray ->
  0 <= Particle.radius p0 ->
  exists c',
    body scale (List.length done) tt (done ++ p0 :: todo, c)
    = (Normal tt, (done ++ move width height scale p0 :: todo, c')).
Proof.
  intros Hok Hrad. unfold body, drawParticles_body.
  unfold bind at 1, get at 1. cbn [fst].
  rewrite nth_error_mid.
  unfold bind at 1, setParticle, modify. cbn [fst snd].
  rewrite set_nth_mid.
  destruct (typed_get_some (List.length done) (List.length (done ++ p0 :: todo)))
    as (d & -> & Hd); [rewrite length_app; cbn; lia|exact Hok|].
  set (p := move width height scale p0).
  assert (Hsize : 0 <= Particle.radius p * (1 + IZR d / 255 * 2)).
  { assert (0 <= IZR d) by (apply IZR_le; lia).
    assert (0 <= IZR d / 255) by (apply Rmult_le_pos; lra).
    apply Rmult_le_pos; [exact Hrad|lra]. }
  unfold bind at 1, onCtx at 1, zoom at 1, createRadialGradient.
  rewrite (numlt_false 0 0) by lra. rewrite numlt_false by exact Hsize.
  cbn [orb ret fst snd].
  unfold bind at 1, onCtx at 1, zoom at 1, arc.
  rewrite numlt_false by exact Hsize. run.
  match goal with |- context [for_range ?n ?j ?f tt (?ps, ?c1)] =>
    destruct (link_loop_run p (rem (Particle.hue p + now / 50) 360) (IZR d / 255)
                            n j ps c1) as (c' & Hrun) end.
  { rewrite !length_app. cbn. lia. }
  exists c'. exact Hrun.
Qed.

Lemma drawParticles_loop_run (scale : R) (todo done : list Particle.t) (c : Ctx) :
  spectrumOk bufferLength dataArray ->
  fieldOk todo ->
  exists c',
    for_range (List.length todo) (List.length done) (body scale) tt (done ++ todo, c)
    = (Normal tt, (done ++ map (move width height scale) todo, c')).
Proof.
  intros Hok. revert done c.
  induction todo as [|p0 todo IH]; intros done c Hfield.
  - exists c. reflexivity.
  - inversion Hfield as [|? ? Hrad Hrest]; subst.
    cbn [List.length for_range]. unfold bind at 1.
    destruct (drawParticles_body_run scale done todo p0 c Hok Hrad) as (c1 & ->).
    destruct (IH (done ++ [move width height scale p0]) c1 Hrest) as (c' & Hrun).
    rewrite length_app, <- app_assoc in Hrun. cbn in Hrun.
    rewrite Nat.add_1_r in Hrun.
    exists c'. rewrite Hrun. rewrite <- app_assoc. reflexivity.
Qed.

(** On a well-formed store [drawParticles] returns, and moves every
    particle once by the energy factor of the spectrum. *)
Lemma drawParticles_run (ps : list Particle.t) (c : Ctx) :
  spectrumOk bufferLength dataArray ->
  fieldOk ps ->
  exists c',
    drawParticles now width height bufferLength dataArray (ps, c)
    = (Normal tt,
       (map (move width height (energy bufferLength dataArray)) ps, c')).
Proof.
  intros Hok Hfield. pose proof Hok as (Hlen & Hne & Hbytes).
  unfold drawParticles. unfold bind at 1, onCtx at 1, zoom at 1. run.
  unfold energy. destruct (map IZR dataArray) as [|a rest] eqn:Hmap.
  { destruct dataArray; [congruence|discriminate]. }
  run.
  match goal with |- context [for_range _ 0 ?f tt (ps, ?c1)] =>
    destruct (drawParticles_loop_run (fold_left Rplus rest a / INR bufferLength / 128)
                ps [] c1 Hok Hfield) as (c' & Hrun) end.
  exists c'. exact Hrun.
Qed.


Lemma clamp_range (bound pos : R) : 0 <= bound -> 0 <= clamp bound pos <= bound.
Proof.
  intros Hb. unfold clamp, Math_max, Math_min, Rmax, Rmin.
  destruct (Rle_dec bound pos); destruct (Rle_dec 0 _); lra.
Qed.

Lemma move_inBounds (scale : R) (p : Particle.t) :
  0 <= width -> 0 <= height -> inBounds width height (move width height scale p).
Proof.
  intros Hw Hh. unfold inBounds, move. cbn.
  split; apply clamp_range; assumption.
Qed.

Lemma fold_left_Rplus_ge (l : list R) (a : R) :
  Forall (fun v => 0 <= v) l -> a <= fold_left Rplus l a.
Proof.
  revert a. induction l as [|v l IH]; intros a Hl; cbn; [lra|].
  inversion Hl; subst. specialize (IH (a + v) ltac:(assumption)). lra.
Qed.

Lemma fold_left_Rplus_gt (l : list R) (a : R) :
  Forall (fun v => 0 <= v) l -> Exists (fun v => 0 < v) l ->
  a < fold_left Rplus l a.
Proof.
  revert a. induction l as [|v l IH]; intros a Hl Hex; cbn.
  - inversion Hex.
  - inversion Hl; subst. inversion Hex; subst.
    + pose proof (fold_left_Rplus_ge l (a + v) ltac:(assumption)). lra.
    + specialize (IH (a + v) ltac:(assumption) ltac:(assumption)). lra.
Qed.

(** A spectrum with a non-zero bin has a positive energy factor. *)
Lemma energy_pos :
  spectrumOk bufferLength dataArray ->
  Exists (fun d => (0 < d)%Z) dataArray ->
  0 < energy bufferLength dataArray.
Proof.
  intros (Hlen & Hne & Hbytes) Hex. unfold energy.
  assert (Hnn : Forall (fun v => 0 <= v) (map IZR dataArray)).
  { apply Forall_map. eapply Forall_impl; [|exact Hbytes].
    intros d Hd. cbn beta in Hd |- *. apply IZR_le. lia. }
  assert (Hpos : Exists (fun v => 0 < v) (map IZR dataArray)).
  { apply Exists_map. eapply Exists_impl; [|exact Hex].
    intros d Hd. cbn beta in Hd |- *. apply IZR_lt. exact Hd. }
  assert (Hn : 0 < INR bufferLength).
  { apply lt_0_INR. destruct dataArray; [congruence|]. cbn in Hlen. lia. }
  destruct (map IZR dataArray) as [|a rest]; [inversion Hpos|].
  assert (Hsum : 0 < fold_left Rplus rest a).
  { inversion Hnn; subst. inversion Hpos; subst.
    - pose proof (fold_left_Rplus_ge rest a ltac:(assumption)). lra.
    - pose proof (fold_left_Rplus_gt rest a ltac:(assumption) ltac:(assumption)). lra. }
  apply Rdiv_lt_0_compat; [|lra].
  apply Rdiv_lt_0_compat; assumption.
Qed.

(** A particle on the right edge that moves right by a positive amount
    is reflected and stays on the edge. *)
Lemma move_at_right_edge (scale : R) (p : Particle.t) :
  0 <= width -> 0 < scale ->
  Particle.x p = width -> Particle.speedX p = 1 ->
  Particle.speedX (move width height scale p) = -1
  /\ Particle.x (move width height scale p) = width.
Proof.
  intros Hw Hs Hx Hv. unfold move. cbn. rewrite Hx, Hv. split.
  - unfold reflect. rewrite (numlt_true width (width + 1 * scale)) by lra.
    rewrite orb_true_r. lra.
  - unfold clamp, Math_max, Math_min, Rmax, Rmin.
    destruct (Rle_dec width _); destruct (Rle_dec 0 _); lra.
Qed.

(** A particle that does not move is not reflected. *)
Lemma move_at_rest (p : Particle.t) :
  0 <= Particle.x p <= width ->
  Particle.speedX (move width height 0 p) = Particle.speedX p.
Proof.
  intros Hx. unfold move. cbn. unfold reflect.
  rewrite !numlt_false by lra. reflexivity.
Qed.

(** Whatever a call does, a loop keeps what each iteration keeps. *)
Lemma for_range_keeps {St A} (Inv : St -> Prop) (body' : nat -> A -> M St A) :
  (forall i a s, Inv s -> Inv (snd (body' i a s))) ->
  forall n lo a s, Inv s -> Inv (snd (for_range n lo body' a s)).
Proof.
  intros Hbody. induction n as [|n IH]; intros lo a s Hs; [exact Hs|].
  cbn [for_range]. unfold bind.
  specialize (Hbody lo a s Hs).
  destruct (body' lo a s) as [[a'|e] s1]; cbn [snd] in *.
  - apply IH. exact Hbody.
  - exact Hbody.
Qed.

Lemma onCtx_particles {A} (m : M Ctx A) (s : Store) :
  fst (snd (onCtx m s)) = fst s.
Proof.
  unfold onCtx, zoom. destruct (m (snd s)). reflexivity.
Qed.

Lemma link_particles (p : Particle.t) (hue intensity : R) (j : nat) (s : Store) :
  fst (snd (link p hue intensity j tt s)) = fst s.
Proof.
  unfold link. unfold bind at 1, get at 1.
  destruct (nth_error (fst s) j) as [other|]; [|reflexivity].
  destruct (numlt _ _); [apply onCtx_particles|reflexivity].
Qed.

Lemma set_nth_Forall {A} (P : A -> Prop) (i : nat) (v : A) (l : list A) :
  P v -> Forall P l -> Forall P (set_nth i v l).
Proof.
  intros Hv Hl. revert i. induction Hl as [|a l Ha Hl IH]; intros i.
  - destruct i; constructor.
  - destruct i as [|i]; cbn; constructor; auto.
Qed.

(** One call of the callback, whether it returns or raises, leaves within
    the surface the particles that were within it and the one it moved. *)
Lemma drawParticles_body_keeps_in_bounds (scale : R) (index : nat) (s : Store) :
  0 <= width -> 0 <= height ->
  Forall (inBounds width height) (fst s) ->
  Forall (inBounds width height) (fst (snd (body scale index tt s))).
Proof.
  intros Hw Hh Hin. unfold body, drawParticles_body.
  unfold bind at 1, get at 1.
  destruct (nth_error (fst s) index) as [p0|]; [|exact Hin].
  unfold bind at 1, setParticle, modify. cbv beta iota.
  set (s1 := (set_nth index (move width height scale p0) (fst s), snd s)).
  assert (H1 : Forall (inBounds width height) (fst s1)).
  { apply set_nth_Forall; [apply move_inBounds; assumption|exact Hin]. }
  clearbody s1.
  destruct (typed_get _ _) as [d|]; [|exact H1].
  unfold bind at 1.
  pose proof (onCtx_particles
                (createRadialGradient
                   (Particle.x (move width height scale p0))
                   (Particle.y (move width height scale p0)) 0
                   (Particle.x (move width height scale p0))
                   (Particle.y (move width height scale p0))
                   (Particle.radius (move width height scale p0) * (1 + IZR d / 255 * 2)))
                s1) as Hg.
  destruct (onCtx (createRadialGradient _ _ _ _ _ _) s1) as [[g|e] s2];
    cbn [snd] in Hg; [|cbn [snd]; rewrite Hg; exact H1].
  unfold bind at 1.
  match goal with |- context [onCtx ?m s2] =>
    pose proof (onCtx_particles m s2) as Hd; destruct (onCtx m s2) as [[[]|e] s3] end;
    cbn [snd] in Hd; [|cbn [snd]; rewrite Hd, Hg; exact H1].
  apply (for_range_keeps (fun s => Forall (inBounds width height) (fst s))).
  - intros j [] s4 H4. rewrite link_particles. exact H4.
  - rewrite Hd, Hg. exact H1.
Qed.

(** [drawParticles], whether it returns or raises and whatever the
    spectrum holds, leaves within the surface a field that was within
    it. *)
Lemma drawParticles_keeps_in_bounds (s : Store) :
  0 <= width -> 0 <= height ->
  Forall (inBounds width height) (fst s) ->
  Forall (inBounds width height)
         (fst (snd (drawParticles now width height bufferLength dataArray s))).
Proof.
  intros Hw Hh Hin. unfold drawParticles.
  unfold bind at 1.
  match goal with |- context [onCtx ?m s] =>
    pose proof (onCtx_particles m s) as H1; destruct (onCtx m s) as [[[]|e] s1] end;
    cbn [snd] in H1; [|cbn [snd]; rewrite H1; exact Hin].
  unfold bind at 1.
  destruct (map IZR dataArray) as [|a rest]; [cbn; rewrite H1; exact Hin|].
  unfold reduce, ret at 1. unfold bind at 1, get at 1.
  apply (for_range_keeps (fun s => Forall (inBounds width height) (fst s))).
  - intros i [] s2 H2. apply drawParticles_body_keeps_in_bounds; assumption.
  - rewrite H1. exact Hin.
Qed.

(** C6: on a surface of non-negative dimensions and a well-formed
    spectrum and field, [drawParticles] returns, keeps the number of
    particles, and leaves every particle within the surface:
    [0 <= x <= width] and [0 <= y <= height]. *)
Theorem drawParticles_positions_in_bounds (ps : list Particle.t) (c : Ctx) :
  spectrumOk bufferLength dataArray ->
  fieldOk ps ->
  0 <= width -> 0 <= height ->
  exists s',
    drawParticles now width height bufferLength dataArray (ps, c) = (Normal tt, s')
    /\ List.length (fst s') = List.length ps
    /\ Forall (inBounds width height) (fst s').
Proof.
  intros Hok Hfield Hw Hh.
  destruct (drawParticles_run ps c Hok Hfield) as (c' & Hrun).
  eexists. split; [exact Hrun|]. cbn [fst]. split.
  - apply length_map.
  - apply Forall_map. apply Forall_forall. intros p _.
    apply move_inBounds; assumption.
Qed.

(** C2, as the code has it: when the spectrum has a non-zero bin (so
    that the energy factor is positive), a particle at [x = width] with
    [speedX = 1] has, after [drawParticles], [speedX = -1] and
    [x = width]. *)
Theorem drawParticles_reflects_at_right_edge
        (ps : list Particle.t) (c : Ctx) (i : nat) (p : Particle.t) :
  spectrumOk bufferLength dataArray ->
  Exists (fun d => (0 < d)%Z) dataArray ->
  fieldOk ps ->
  0 <= width ->
  nth_error ps i = Some p ->
  Particle.x p = width -> Particle.speedX p = 1 ->
  exists s' p',
    drawParticles now width height bufferLength dataArray (ps, c) = (Normal tt, s')
    /\ nth_error (fst s') i = Some p'
    /\ Particle.speedX p' = -1
    /\ Particle.x p' = width.
Proof.
  intros Hok Hex Hfield Hw Hi Hx Hv.
  destruct (drawParticles_run ps c Hok Hfield) as (c' & Hrun).
  eexists. exists (move width height (energy bufferLength dataArray) p).
  split; [exact Hrun|]. cbn [fst]. split.
  - rewrite nth_error_map, Hi. reflexivity.
  - apply move_at_right_edge; try assumption.
    apply energy_pos; assumption.
Qed.

Lemma emittedField_same (A : Type) (m : M Store A) (s : Store) :
  painted (snd (snd (m s))) = painted (snd s) -> emittedField m s = [].
Proof.
  intros H. unfold emittedField. rewrite H. apply skipn_all.
Qed.

(** C10: a particle whose spectrum bin holds [0] strokes nothing during
    its callback: no link is drawn from it to a particle of greater
    index. *)
Theorem drawParticles_body_zero_bin_no_link (scale : R) (index : nat) (s : Store) :
  typed_get dataArray (dataIndex bufferLength index (List.length (fst s))) = Some 0%Z ->
  strokes (emittedField (body scale index tt) s) = [].
Proof.
  intros Hbin. unfold emittedField, body, drawParticles_body.
  unfold bind at 1, get at 1. cbv beta iota.
  destruct (nth_error (fst s) index) as [p0|].
  2:{ cbn. rewrite skipn_all. reflexivity. }
  unfold bind at 1, setParticle, modify. cbv beta iota. cbn [fst snd]. rewrite Hbin.
  replace (IZR 0 / 255) with 0 by lra.
  set (p := move width height scale p0).
  unfold bind at 1, onCtx at 1, zoom at 1, createRadialGradient.
  cbv beta iota. cbn [fst snd].
  destruct (numlt 0 0 || numlt (Particle.radius p * (1 + 0 * 2)) 0) eqn:Hneg.
  { cbn. rewrite skipn_all. reflexivity. }
  apply orb_false_elim in Hneg. destruct Hneg as [_ Hneg].
  cbn [ret fst snd].
  unfold bind at 1, onCtx at 1, zoom at 1, arc. rewrite Hneg. run.
  rewrite link_loop_silent. cbn.
  rewrite skipn_app, skipn_all, Nat.sub_diag. reflexivity.
Qed.

End ParticlesFacts.

(** ** The engine *)

Section EngineFacts.

Lemma onContext_sameLoop {A} (m : M Ctx A) (s : State) :
  sameLoop s (snd (onContext m s)).
Proof.
  unfold onContext, zoom. destruct (m (ctx s)). cbn. repeat split.
Qed.

Lemma onField_sameLoop {A} (m : M Store A) (s : State) :
  sameLoop s (snd (onField m s)).
Proof.
  unfold onField, zoom. destruct (m (particles s, ctx s)). cbn. repeat split.
Qed.

Lemma getByteFrequencyData_sameLoop (sample : list Z) (s : State) :
  sameLoop s (snd (getByteFrequencyData sample s)).
Proof.
  unfold getByteFrequencyData. run. destruct (analyser s); cbn; repeat split.
Qed.

Lemma sameLoop_trans (s1 s2 s3 : State) :
  sameLoop s1 s2 -> sameLoop s2 s3 -> sameLoop s1 s3.
Proof.
  unfold sameLoop. intros (? & ? & ? & ?) (? & ? & ? & ?).
  repeat split; congruence.
Qed.

(** The dispatch of [visualize] leaves the loop's fields alone. *)
Lemma dispatch_sameLoop (now : R) (s : State) :
  sameLoop s
    (snd ((if String.eqb (mode s) "bars"%string then drawBars_
           else if String.eqb (mode s) "circle"%string then drawCircle_
           else if String.eqb (mode s) "wave"%string then drawWave_ now
           else if String.eqb (mode s) "particles"%string then drawParticles_ now
           else ret tt) s)).
Proof.
  destruct (String.eqb (mode s) "bars"%string);
    [|destruct (String.eqb (mode s) "circle"%string);
      [|destruct (String.eqb (mode s) "wave"%string);
        [|destruct (String.eqb (mode s) "particles"%string)]]].
  - unfold drawBars_. run. apply onContext_sameLoop.
  - unfold drawCircle_. run. apply onContext_sameLoop.
  - unfold drawWave_. run. apply onContext_sameLoop.
  - unfold drawParticles_. run. apply onField_sameLoop.
  - cbn. repeat split.
Qed.

(** A tick of a playing engine registers the next one, whatever sampling
    and drawing do afterwards. *)
Lemma visualize_sameLoop (now : R) (sample : list Z) (s : State) :
  isPlaying s = true ->
  sameLoop (set_animationId (Some (nextHandle s))
              (set_nextHandle (S (nextHandle s))
                 (set_pendingFrames (pendingFrames s ++ [nextHandle s]) s)))
           (snd (visualize now sample s)).
Proof.
  intros Hplay. unfold visualize.
  unfold bind at 1, get at 1. cbv beta iota. rewrite Hplay. cbn [negb].
  unfold requestAnimationFrame.
  unfold bind at 1. unfold bind at 1. unfold get at 1. cbv beta iota.
  unfold bind at 1. unfold modify at 1. cbv beta iota. unfold ret at 1.
  cbv beta iota.
  unfold bind at 1. unfold modify at 1. cbv beta iota.
  set (s1 := set_animationId _ _).
  unfold bind at 1.
  pose proof (getByteFrequencyData_sameLoop sample s1) as H2.
  destruct (getByteFrequencyData sample s1) as [[[]|e] s2]; cbn [snd] in *.
  - unfold bind at 1, get at 1. cbv beta iota.
    exact (sameLoop_trans _ _ _ H2 (dispatch_sameLoop now s2)).
  - exact H2.
Qed.

Lemma visualize_playing (now : R) (sample : list Z) (s : State) :
  isPlaying s = true ->
  let s' := snd (visualize now sample s) in
  isPlaying s' = true
  /\ pendingFrames s' = pendingFrames s ++ [nextHandle s]
  /\ animationId s' = Some (nextHandle s)
  /\ nextHandle s' = S (nextHandle s).
Proof.
  intros Hplay s'.
  destruct (visualize_sameLoop now sample s Hplay) as (Ha & Hb & Hc & Hd).
  fold s' in Ha, Hb, Hc, Hd. cbn in Ha, Hb, Hc, Hd.
  repeat split; congruence.
Qed.

Lemma callbacks_alive (now : R) (sample : list Z) (l : list nat) (s : State) :
  isPlaying s = true ->
  let s' := fold_left (fun s _ => runCallback now sample s) l s in
  isPlaying s' = true
  /\ (l <> [] \/ pendingFrames s <> [] -> pendingFrames s' <> []).
Proof.
  revert s. induction l as [|h l IH]; intros s Hplay; cbn.
  - split; [exact Hplay|]. intros [H|H]; [congruence|exact H].
  - destruct (visualize_playing now sample s Hplay) as (Hp & Hq & _).
    destruct (IH (runCallback now sample s) Hp) as (IH1 & IH2).
    split; [exact IH1|]. intros _. apply IH2. right.
    unfold runCallback. rewrite Hq. destruct (pendingFrames s); discriminate.
Qed.

Lemma animationFrame_alive (now : R) (sample : list Z) (s : State) :
  isPlaying s = true -> pendingFrames s <> [] ->
  isPlaying (animationFrame now sample s) = true
  /\ pendingFrames (animationFrame now sample s) <> [].
Proof.
  intros Hplay Hpend. unfold animationFrame.
  destruct (callbacks_alive now sample (pendingFrames s) (set_pendingFrames [] s))
    as (H1 & H2); [exact Hplay|].
  split; [exact H1|]. apply H2. left. exact Hpend.
Qed.

Lemma frames_alive (inputs : list (R * list Z)) (s : State) :
  isPlaying s = true -> pendingFrames s <> [] ->
  isPlaying (frames inputs s) = true /\ pendingFrames (frames inputs s) <> [].
Proof.
  revert s. induction inputs as [|i inputs IH]; intros s Hplay Hpend; cbn.
  - split; assumption.
  - destruct (animationFrame_alive (fst i) (snd i) s Hplay Hpend) as (H1 & H2).
    apply IH; assumption.
Qed.

(** C1, as the code has it: [changeMode] stores the value it is given,
    whether or not it is one of the four modes, and returns: nothing is
    rejected and no default is substituted. *)
Theorem changeMode_stores_any_value (value : string) (s : State) :
  fst (changeMode value s) = Normal tt
  /\ mode (snd (changeMode value s)) = value.
Proof.
  unfold changeMode, modify. cbn. split; reflexivity.
Qed.

(** C8: [changeMode] writes the mode and nothing else; the particle
    array after the call is the array before it, so every particle keeps
    its position, radius, velocity and hue. *)
Theorem changeMode_keeps_particles (value : string) (s : State) :
  let s' := snd (changeMode value s) in
  particles s' = particles s
  /\ (forall i, nth_error (particles s') i = nth_error (particles s) i)
  /\ s' = set_mode value s
  /\ ctx s' = ctx s /\ dataArray s' = dataArray s
  /\ bufferLength s' = bufferLength s
  /\ isPlaying s' = isPlaying s /\ animationId s' = animationId s
  /\ pendingFrames s' = pendingFrames s.
Proof.
  unfold changeMode, modify. cbn. repeat split.
Qed.

Lemma numle_refl (a : R) : numle a a = true.
Proof. unfold numle. destruct (Rle_dec a a); [reflexivity|lra]. Qed.

Lemma visible_after_clear (width height : R) (ops : list PaintOp) :
  visible width height (ops ++ [ClearRect 0 0 width height]) = [].
Proof.
  unfold visible. rewrite fold_left_app. cbn.
  rewrite numle_refl.
  replace (0 + width) with width by ring.
  replace (0 + height) with height by ring.
  rewrite !numle_refl. reflexivity.
Qed.

(** The array the analyser fills keeps its length. *)
Lemma overwrite_length (sample arr : list Z) :
  List.length (overwrite sample arr) = List.length arr.
Proof.
  unfold overwrite. rewrite length_app, length_firstn, length_skipn. lia.
Qed.

(** [initAudioContext] creates a spectrum of 128 bins in an array of that
    length and 100 particles; their radii are not negative when the random
    numbers are not. *)
Lemma initAudioContext_wellformed (state0 : AudioContextState)
      (random : nat -> R) (s : State) :
  let s' := snd (initAudioContext state0 random s) in
  fst (initAudioContext state0 random s) = Normal tt
  /\ bufferLength s' = 128%nat
  /\ List.length (dataArray s') = bufferLength s'
  /\ List.length (particles s') = 100%nat
  /\ ((forall n, 0 <= random n) -> fieldOk (particles s')).
Proof.
  unfold initAudioContext, initParticles. run.
  split; [reflexivity|]. split; [reflexivity|]. split; [reflexivity|].
  split; [reflexivity|].
  intros Hrandom. unfold fieldOk.
  apply Forall_forall. intros p Hp.
  repeat (destruct Hp as [<-|Hp];
          [cbn; match goal with |- 0 <= random ?n * 3 + 1 =>
                  pose proof (Hrandom n); lra end|]).
  destruct Hp.
Qed.

(** A tick of a playing engine with an analyser: the frame is requested,
    the spectrum sampled, and the mode dispatched on. *)
Lemma visualize_dispatch (now : R) (sample : list Z) (s : State) (n : nat) :
  isPlaying s = true -> analyser s = Some n ->
  visualize now sample s
  = (if String.eqb (mode s) "bars" then drawBars_
     else if String.eqb (mode s) "circle" then drawCircle_
     else if String.eqb (mode s) "wave" then drawWave_ now
     else if String.eqb (mode s) "particles" then drawParticles_ now
     else ret tt)
      (set_dataArray (overwrite sample (dataArray s))
         (set_animationId (Some (nextHandle s))
            (set_nextHandle (S (nextHandle s))
               (set_pendingFrames (pendingFrames s ++ [nextHandle s]) s)))).
Proof.
  intros Hplay Han.
  unfold visualize, requestAnimationFrame, getByteFrequencyData.
  unfold bind, get, modify, ret. rewrite Hplay. cbn [negb].
  cbn [analyser set_animationId set_nextHandle set_pendingFrames].
  rewrite Han. reflexivity.
Qed.

(** While the mode is none of the four, a tick of a playing engine
    samples the spectrum, paints nothing and returns. *)
Lemma visualize_unknown_mode (now : R) (sample : list Z) (s : State) (n : nat) :
  isPlaying s = true -> analyser s = Some n ->
  ~ In (mode s) validModes ->
  fst (visualize now sample s) = Normal tt
  /\ ctx (snd (visualize now sample s)) = ctx s
  /\ particles (snd (visualize now sample s)) = particles s.
Proof.
  intros Hplay Han Hmode.
  assert (Hb : String.eqb (mode s) "bars" = false).
  { apply String.eqb_neq. intros E. apply Hmode. rewrite E. cbn. auto. }
  assert (Hc : String.eqb (mode s) "circle" = false).
  { apply String.eqb_neq. intros E. apply Hmode. rewrite E. cbn. auto. }
  assert (Hw : String.eqb (mode s) "wave" = false).
  { apply String.eqb_neq. intros E. apply Hmode. rewrite E. cbn. auto. }
  assert (Hp : String.eqb (mode s) "particles" = false).
  { apply String.eqb_neq. intros E. apply Hmode. rewrite E. cbn. auto. }
  rewrite (visualize_dispatch now sample s n Hplay Han), Hb, Hc, Hw, Hp.
  repeat split.
Qed.

(** A tick of a playing engine in Particles mode on a well-formed
    spectrum and field returns, and moves every particle of the field it
    finds once: the field is the one the engine held before the tick. *)
Lemma visualize_particles_tick (now : R) (sample : list Z) (s : State) (n : nat) :
  isPlaying s = true -> analyser s = Some n ->
  mode s = "particles"%string ->
  spectrumOk (bufferLength s) (overwrite sample (dataArray s)) ->
  fieldOk (particles s) ->
  fst (visualize now sample s) = Normal tt
  /\ particles (snd (visualize now sample s))
     = map (move (logicalWidth s) (logicalHeight s)
                 (energy (bufferLength s) (overwrite sample (dataArray s))))
           (particles s).
Proof.
  intros Hplay Han Hmode Hok Hfield.
  rewrite (visualize_dispatch now sample s n Hplay Han), Hmode.
  cbn [String.eqb Ascii.eqb Bool.eqb andb].
  unfold drawParticles_, bind, get, onField, zoom.
  set (s2 := set_dataArray _ _).
  change (logicalWidth s2) with (logicalWidth s).
  change (logicalHeight s2) with (logicalHeight s).
  change (bufferLength s2) with (bufferLength s).
  change (dataArray s2) with (overwrite sample (dataArray s)).
  change (particles s2) with (particles s).
  destruct (drawParticles_run now (logicalWidth s) (logicalHeight s) (bufferLength s)
              (overwrite sample (dataArray s)) (particles s) (ctx s2) Hok Hfield)
    as (c' & ->).
  split; reflexivity.
Qed.

(** A callback that finds the engine stopped does nothing. *)
Lemma animationFrame_stopped (now : R) (sample : list Z) (s : State) :
  isPlaying s = false ->
  animationFrame now sample s = set_pendingFrames [] s.
Proof.
  intros Hstop. unfold animationFrame.
  assert (H : forall l s0, isPlaying s0 = false ->
                           fold_left (fun s1 (_ : nat) => runCallback now sample s1) l s0 = s0).
  { induction l as [|h l IH]; intros s0 H0; [reflexivity|].
    cbn. unfold runCallback at 2, visualize, bind, get. rewrite H0. cbn.
    apply IH. exact H0. }
  apply H. exact Hstop.
Qed.

Lemma frames_stopped (inputs : list (R * list Z)) (s : State) :
  isPlaying s = false ->
  isPlaying (frames inputs s) = false
  /\ ctx (frames inputs s) = ctx s
  /\ logicalWidth (frames inputs s) = logicalWidth s
  /\ logicalHeight (frames inputs s) = logicalHeight s.
Proof.
  revert s. induction inputs as [|i inputs IH]; intros s Hstop; cbn.
  - repeat split. exact Hstop.
  - rewrite animationFrame_stopped by exact Hstop.
    destruct (IH (set_pendingFrames [] s) Hstop) as (H1 & H2 & H3 & H4).
    unfold frames in *. rewrite H1, H2, H3, H4. repeat split.
Qed.

(** What [stop] does to a state. *)
Lemma stop_run (s : State) :
  stop s
  = (Normal tt,
     set_ctx (paint (ClearRect 0 0 (logicalWidth s) (logicalHeight s)) (ctx s))
             (set_pendingFrames (afterCancel s)
                (set_isPlaying false
                   (set_audioCurrentTime 0 (set_audioPaused true s))))).
Proof.
  unfold stop, afterCancel. run.
  destruct (animationId s) as [[|id]|]; run; reflexivity.
Qed.

Lemma filter_twice {A} (f : A -> bool) (l : list A) :
  filter f (filter f l) = filter f l.
Proof.
  induction l as [|a l IH]; [reflexivity|].
  cbn. destruct (f a) eqn:Hf; cbn; rewrite ?Hf, IH; reflexivity.
Qed.

(** C9: [stop] returns without error on every state, running or not, and
    so does a second [stop] after it; after each of the two calls the
    engine is not playing and the surface is cleared, the second call
    changes nothing but to clear the cleared surface again, and the
    surface stays cleared over the frames that follow. *)
Theorem stop_twice (s : State) :
  let s1 := snd (stop s) in
  let s2 := snd (stop s1) in
  fst (stop s) = Normal tt
  /\ fst (stop s1) = Normal tt
  /\ isPlaying s1 = false /\ isPlaying s2 = false
  /\ surfaceCleared s1 /\ surfaceCleared s2
  /\ s2 = set_ctx (paint (ClearRect 0 0 (logicalWidth s1) (logicalHeight s1))
                         (ctx s1)) s1
  /\ forall inputs, surfaceCleared (frames inputs s2).
Proof.
  intros s1 s2.
  assert (Hc2 : surfaceCleared s2).
  { subst s2 s1. rewrite !stop_run. cbn [fst snd].
    unfold surfaceCleared. cbn. apply visible_after_clear. }
  assert (Hp2 : isPlaying s2 = false).
  { subst s2 s1. rewrite !stop_run. reflexivity. }
  subst s2 s1. rewrite !stop_run in *. cbn [fst snd] in *.
  split; [reflexivity|]. split; [reflexivity|].
  split; [reflexivity|]. split; [reflexivity|].
  split; [|split; [exact Hc2|split]].
  - unfold surfaceCleared. cbn. apply visible_after_clear.
  - unfold afterCancel. cbn.
    destruct (animationId s) as [[|id]|]; cbn; try reflexivity.
    unfold set_ctx, set_pendingFrames. cbn. rewrite filter_twice. reflexivity.
  - intros inputs.
    match type of Hp2 with isPlaying ?st = false =>
      destruct (frames_stopped inputs st Hp2) as (_ & Hctx & Hw & Hh) end.
    unfold surfaceCleared. rewrite Hctx, Hw, Hh. exact Hc2.
Qed.

End EngineFacts.

(** ** Concrete instances *)

Lemma spectrumOk_loud : spectrumOk 1 [255%Z].
Proof.
  repeat split; [discriminate|]. constructor; [lia|constructor].
Qed.

Lemma spectrumOk_silent : spectrumOk 1 [0%Z].
Proof.
  repeat split; [discriminate|]. constructor; [lia|constructor].
Qed.

Lemma fieldOk_edge : fieldOk [edgeParticle].
Proof.
  constructor; [cbn; lra|constructor].
Qed.

(** C5 at a spectrum of two bins. *)
Lemma drawBars_counts_and_offsets_witness :
  List.length [255%Z; 0%Z] = 2%nat /\ 0 <= 800
  /\ List.length (barFills (emitted (drawBars 800 400 2 [255%Z; 0%Z]) fresh)) = 2%nat.
Proof.
  assert (Hlen : List.length [255%Z; 0%Z] = 2%nat) by reflexivity.
  assert (Hw : 0 <= 800) by lra.
  split; [exact Hlen|]. split; [exact Hw|].
  exact (proj1 (proj2 (drawBars_counts_and_offsets 800 400 2 [255%Z; 0%Z] fresh Hlen Hw))).
Defined.

(** C4 at a spectrum of one bin. *)
Lemma drawBars_cap_above_gap_witness :
  rectBottom (nth 0 (capStrips (emitted (drawBars 800 400 1 [255%Z]) fresh)) noOp)
  = rectTop (nth 0 (barFills (emitted (drawBars 800 400 1 [255%Z]) fresh)) noOp) - 5.
Proof.
  assert (Hlen : List.length [255%Z] = 1%nat) by reflexivity.
  assert (Hi : (0 < 1)%nat) by lia.
  exact (proj2 (proj2 (proj2 (proj2
           (drawBars_cap_above_gap 800 400 1 [255%Z] fresh 0 Hlen Hi))))).
Defined.

(** C4 as stated fails: on a surface of 800 by 400 with the single bin at
    255 the bar's top edge is at [y = 80] and the bottom edge of its cap at
    [y = 75]. *)
Lemma drawBars_cap_not_adjacent :
  rectTop (nth 0 (barFills (emitted (drawBars 800 400 1 [255%Z]) fresh)) noOp) = 80
  /\ rectBottom (nth 0 (capStrips (emitted (drawBars 800 400 1 [255%Z]) fresh)) noOp) = 75
  /\ rectBottom (nth 0 (capStrips (emitted (drawBars 800 400 1 [255%Z]) fresh)) noOp)
     <> rectTop (nth 0 (barFills (emitted (drawBars 800 400 1 [255%Z]) fresh)) noOp).
Proof.
  unfold emitted, drawBars, drawBars_body. run.
  unfold rectBottom, rectTop, rectHeight. cbn.
  repeat split; lra.
Qed.

(** C7 at a silent spectrum of two bins. *)
Lemma drawCircle_silent_on_base_circle_witness :
  List.length (segments (emitted (drawCircle 800 400 2 [0%Z; 0%Z]) fresh)) = 2%nat
  /\ Forall (fun sg => distance (fst sg) (800 / 2, 400 / 2) = Rmin 800 400 / 4
                       /\ distance (snd sg) (800 / 2, 400 / 2) = Rmin 800 400 / 4)
            (segments (emitted (drawCircle 800 400 2 [0%Z; 0%Z]) fresh)).
Proof.
  assert (Hlen : List.length [0%Z; 0%Z] = 2%nat) by reflexivity.
  assert (Hzero : Forall (fun d => d = 0%Z) [0%Z; 0%Z]) by (repeat constructor).
  assert (Hw : 0 <= 800) by lra.
  assert (Hh : 0 <= 400) by lra.
  exact (proj2 (drawCircle_silent_on_base_circle 800 400 2 [0%Z; 0%Z] fresh
                  Hlen Hzero Hw Hh)).
Defined.

(** C6 at one particle and a loud spectrum. *)
Lemma drawParticles_positions_in_bounds_witness :
  exists s',
    drawParticles 0 800 400 1 [255%Z] ([edgeParticle], fresh) = (Normal tt, s')
    /\ List.length (fst s') = 1%nat
    /\ Forall (inBounds 800 400) (fst s').
Proof.
  assert (Hw : 0 <= 800) by lra.
  assert (Hh : 0 <= 400) by lra.
  exact (drawParticles_positions_in_bounds 0 800 400 1 [255%Z] [edgeParticle] fresh
           spectrumOk_loud fieldOk_edge Hw Hh).
Defined.

(** C2 at a loud spectrum: the particle on the edge is reflected. *)
Lemma drawParticles_reflects_at_right_edge_witness :
  exists s' p',
    drawParticles 0 800 400 1 [255%Z] ([edgeParticle], fresh) = (Normal tt, s')
    /\ nth_error (fst s') 0 = Some p'
    /\ Particle.speedX p' = -1
    /\ Particle.x p' = 800.
Proof.
  assert (Hex : Exists (fun d => (0 < d)%Z) [255%Z]) by (constructor; lia).
  assert (Hw : 0 <= 800) by lra.
  assert (Hi : nth_error [edgeParticle] 0 = Some edgeParticle) by reflexivity.
  assert (Hx : Particle.x edgeParticle = 800) by reflexivity.
  assert (Hv : Particle.speedX edgeParticle = 1) by reflexivity.
  exact (drawParticles_reflects_at_right_edge 0 800 400 1 [255%Z] [edgeParticle] fresh
           0 edgeParticle spectrumOk_loud Hex fieldOk_edge Hw Hi Hx Hv).
Defined.

(** C2 as stated fails on a silent spectrum: the energy factor is [0], the
    particle on the edge does not leave the surface and keeps
    [speedX = 1]. *)
Lemma drawParticles_silent_no_reflection :
  exists s' p',
    drawParticles 0 800 400 1 [0%Z] ([edgeParticle], fresh) = (Normal tt, s')
    /\ nth_error (fst s') 0 = Some p'
    /\ Particle.speedX p' = 1
    /\ Particle.speedX p' <> -1.
Proof.
  destruct (drawParticles_run 0 800 400 1 [0%Z] [edgeParticle] fresh
              spectrumOk_silent fieldOk_edge) as (c' & Hrun).
  eexists. exists (move 800 400 0 edgeParticle).
  split; [exact Hrun|]. cbn [fst map nth_error].
  assert (He : energy 1 [0%Z] = 0) by (unfold energy; cbn; lra).
  rewrite He. split; [reflexivity|].
  assert (Hs : Particle.speedX (move 800 400 0 edgeParticle) = 1).
  { rewrite move_at_rest; [reflexivity|]. cbn. lra. }
  rewrite Hs. split; [reflexivity|lra].
Qed.

Lemma dataIndex_first_of_two : dataIndex 1 0 2 = 0%Z.
Proof.
  unfold dataIndex, Math_floor. cbn [INR].
  replace (0 / (1 + 1) * 1) with (IZR 0) by lra. apply ZfloorZ.
Qed.

(** C10 at two particles at the same place, the first with its bin at 0:
    the loop over the greater indices runs once and strokes nothing. *)
Lemma drawParticles_body_zero_bin_no_link_witness :
  strokes (emittedField (drawParticles_body 0 800 400 1 [0%Z] 0 0 tt)
                        ([edgeParticle; edgeParticle], fresh)) = [].
Proof.
  assert (Hbin : typed_get [0%Z]
                   (dataIndex 1 0 (List.length (fst ([edgeParticle; edgeParticle], fresh))))
                 = Some 0%Z).
  { cbn [fst List.length]. rewrite dataIndex_first_of_two. reflexivity. }
  exact (drawParticles_body_zero_bin_no_link 0 800 400 1 [0%Z] 0 0
           ([edgeParticle; edgeParticle], fresh) Hbin).
Defined.

(** C1 as stated fails: a value outside the four modes is stored and the
    call returns. *)
Lemma changeMode_accepts_unknown_value :
  ~ In "disco"%string validModes
  /\ fst (changeMode "disco" (construct 800 400 1)) = Normal tt
  /\ mode (snd (changeMode "disco" (construct 800 400 1))) = "disco"%string.
Proof.
  split.
  - intros [H|[H|[H|[H|[]]]]]; discriminate.
  - split; reflexivity.
Qed.

(** * Further properties *)

(** ** Wave mode *)

Section WaveFacts.

Variables (now width height : R) (bufferLength : nat) (dataArray : list Z).

Let sw : R := sliceWidth width bufferLength.
Let point : nat -> nat -> PathCmd := wavePoint width height bufferLength dataArray.

(** The inner loop appends one point per bin to the current path and
    touches nothing else. *)
Lemma drawWave_points_loop (layer n lo : nat) (c : Ctx) :
  (lo + n <= List.length dataArray)%nat ->
  for_range n lo (drawWave_point width height bufferLength dataArray layer)
            (INR lo * sw) c
  = (Normal (INR (lo + n) * sw),
     mkCtx (fillStyle c) (strokeStyle c) (lineWidth c)
           (path c ++ map (point layer) (seq lo n)) (painted c)).
Proof.
  revert lo c. induction n as [|n IH]; intros lo c Hlen.
  - cbn. rewrite Nat.add_0_r, app_nil_r. destruct c. reflexivity.
  - destruct (nth_error dataArray lo) as [d|] eqn:Hd.
    2:{ apply nth_error_None in Hd. lia. }
    cbn [for_range]. unfold bind at 1. unfold drawWave_point at 1.
    rewrite Hd.
    assert (Hpt : point layer lo
                  = if Nat.eqb lo 0
                    then MoveTo (INR lo * sw)
                           (height / 2
                            + (IZR d / 255 * height / 3
                               * sin ((INR lo + INR layer * 30) * 0.1))
                            - (INR layer * 30))
                    else LineTo (INR lo * sw)
                           (height / 2
                            + (IZR d / 255 * height / 3
                               * sin ((INR lo + INR layer * 30) * 0.1))
                            - (INR layer * 30))).
    { unfold point, wavePoint, waveY. rewrite (nth_error_nth _ _ _ Hd). reflexivity. }
    replace (INR lo * sw + sliceWidth width bufferLength)
      with (INR (S lo) * sw) by (rewrite S_INR; unfold sw; ring).
    destruct (Nat.eqb lo 0) eqn:Hz;
      unfold moveTo, lineTo, setPath, bind, get, modify, ret; cbv beta iota;
      rewrite IH by lia;
      cbn [fillStyle strokeStyle lineWidth path painted];
      replace (S lo + n)%nat with (lo + S n)%nat by lia;
      cbn [seq map]; rewrite Hpt, <- app_assoc; reflexivity.
Qed.

Lemma drawWave_layer_run (layer : nat) (c : Ctx) :
  List.length dataArray = bufferLength ->
  exists c',
    drawWave_layer now width height bufferLength dataArray layer tt c = (Normal tt, c')
    /\ painted c' = painted c ++ [waveOp now width height bufferLength dataArray layer]
    /\ fillStyle c' = fillStyle c.
Proof.
  intros Hlen. unfold drawWave_layer. run.
  match goal with |- context [for_range _ 0 _ 0 ?c1] =>
    pose proof (drawWave_points_loop layer bufferLength 0 c1) as Hrun end.
  replace (INR 0 * sw) with 0 in Hrun by (cbn; ring).
  rewrite Hrun by lia. cbn.
  eexists. split; [reflexivity|]. split; reflexivity.
Qed.

(** What [drawWave] paints on a spectrum of [bufferLength] bins. *)
Lemma drawWave_emitted (c : Ctx) :
  List.length dataArray = bufferLength ->
  fst (drawWave now width height bufferLength dataArray c) = Normal tt
  /\ emitted (drawWave now width height bufferLength dataArray) c
     = FillRect (Solid (Rgba 0 0 0 0.2)) 0 0 width height
       :: map (waveOp now width height bufferLength dataArray) [0; 1; 2]%nat.
Proof.
  intros Hlen.
  assert (exists c', drawWave now width height bufferLength dataArray c = (Normal tt, c')
                     /\ painted c' = painted c
                          ++ FillRect (Solid (Rgba 0 0 0 0.2)) 0 0 width height
                          :: map (waveOp now width height bufferLength dataArray)
                                 [0; 1; 2]%nat)
    as (c' & Hrun & Hp).
  { unfold drawWave. unfold bind at 1. unfold setFillStyle, modify at 1.
    unfold bind at 1. unfold fillRect, modify at 1. cbv beta iota.
    set (c0 := paint _ _).
    cbn [for_range]. unfold bind at 1.
    destruct (drawWave_layer_run 0 c0 Hlen) as (c1 & -> & Hp1 & _).
    unfold bind at 1.
    destruct (drawWave_layer_run 1 c1 Hlen) as (c2 & -> & Hp2 & _).
    unfold bind at 1.
    destruct (drawWave_layer_run 2 c2 Hlen) as (c3 & -> & Hp3 & _).
    exists c3. split; [reflexivity|].
    rewrite Hp3, Hp2, Hp1. unfold c0. cbn. rewrite <- !app_assoc. reflexivity. }
  split.
  - rewrite Hrun. reflexivity.
  - apply emitted_app. rewrite Hrun. exact Hp.
Qed.

(** X1: on a spectrum of [bufferLength] bins [drawWave] returns and
    strokes exactly three polylines of line width 3; each has one point
    per bin, the first a [moveTo] and the others [lineTo], and point [i]
    lies at [x = i * (width / bufferLength)]. *)
Theorem drawWave_three_polylines (c : Ctx) (layer i : nat) :
  List.length dataArray = bufferLength ->
  (layer < 3)%nat -> (i < bufferLength)%nat ->
  let ops := emitted (drawWave now width height bufferLength dataArray) c in
  let line := nth layer (strokes ops) noOp in
  fst (drawWave now width height bufferLength dataArray c) = Normal tt
  /\ List.length (strokes ops) = 3%nat
  /\ strokeWidth line = 3
  /\ List.length (pathOf line) = bufferLength
  /\ cmdX (nth i (pathOf line) noCmd) = INR i * (width / INR bufferLength)
  /\ isMoveTo (nth i (pathOf line) noCmd) = Nat.eqb i 0.
Proof.
  intros Hlen Hl Hi ops line. subst line ops.
  destruct (drawWave_emitted c Hlen) as [Hn ->].
  split; [exact Hn|]. split; [reflexivity|].
  assert (Hline : nth layer (strokes
                    (FillRect (Solid (Rgba 0 0 0 0.2)) 0 0 width height
                     :: map (waveOp now width height bufferLength dataArray)
                            [0; 1; 2]%nat)) noOp
                  = waveOp now width height bufferLength dataArray layer).
  { destruct layer as [|[|[|?]]]; [reflexivity|reflexivity|reflexivity|lia]. }
  rewrite Hline. unfold waveOp, strokeWidth, pathOf.
  split; [reflexivity|]. split; [rewrite length_map, length_seq; reflexivity|].
  rewrite nth_map_seq by exact Hi.
  unfold wavePoint, sliceWidth. destruct (Nat.eqb i 0); split; reflexivity.
Qed.

(** X2: on a spectrum whose bins are all [0], every point of layer
    [layer] lies at [y = height / 2 - layer * 30]: the three polylines are
    horizontal lines 30 apart. *)
Theorem drawWave_silent_flat (c : Ctx) (layer i : nat) :
  List.length dataArray = bufferLength ->
  Forall (fun d => d = 0%Z) dataArray ->
  (layer < 3)%nat -> (i < bufferLength)%nat ->
  let ops := emitted (drawWave now width height bufferLength dataArray) c in
  cmdY (nth i (pathOf (nth layer (strokes ops) noOp)) noCmd)
  = height / 2 - INR layer * 30.
Proof.
  intros Hlen Hzero Hl Hi ops. subst ops.
  destruct (drawWave_emitted c Hlen) as [_ ->].
  assert (Hline : nth layer (strokes
                    (FillRect (Solid (Rgba 0 0 0 0.2)) 0 0 width height
                     :: map (waveOp now width height bufferLength dataArray)
                            [0; 1; 2]%nat)) noOp
                  = waveOp now width height bufferLength dataArray layer).
  { destruct layer as [|[|[|?]]]; [reflexivity|reflexivity|reflexivity|lia]. }
  rewrite Hline. unfold waveOp, pathOf.
  rewrite nth_map_seq by exact Hi.
  assert (Hbin : nth i dataArray 0%Z = 0%Z).
  { rewrite Forall_forall in Hzero. apply Hzero. apply nth_In. lia. }
  unfold wavePoint, waveY. rewrite Hbin.
  destruct (Nat.eqb i 0); cbn [cmdY]; lra.
Qed.

End WaveFacts.

(** ** Radial mode, any spectrum *)

Section CircleMore.

Variables (width height : R) (bufferLength : nat) (dataArray : list Z).

Lemma drawCircle_segments (c : Ctx) :
  List.length dataArray = bufferLength ->
  0 <= width -> 0 <= height ->
  segments (emitted (drawCircle width height bufferLength dataArray) c)
  = map (fun i => match segmentOf (spokeOp width height bufferLength dataArray i) with
                  | Some sg => sg
                  | None => noSegment
                  end) (seq 0 bufferLength).
Proof.
  intros Hlen Hw Hh.
  destruct (drawCircle_emitted width height bufferLength dataArray c Hlen Hw Hh)
    as [_ ->].
  change (?a :: ?l ++ ?t) with ([a] ++ l ++ t).
  rewrite !segments_app, segments_spokes. cbn [segments segmentOf baseCircleOp app].
  rewrite app_nil_r. reflexivity.
Qed.

Lemma spoke_length (a b : R) :
  0 <= b -> sqrt ((- (cos a * b)) * (- (cos a * b)) + (- (sin a * b)) * (- (sin a * b))) = b.
Proof.
  intros Hb.
  replace ((- (cos a * b)) * (- (cos a * b)) + (- (sin a * b)) * (- (sin a * b)))
    with (cos a * b * (cos a * b) + sin a * b * (sin a * b)) by ring.
  apply on_circle. exact Hb.
Qed.

(** X3: on a spectrum of [bufferLength] bytes over a surface of
    non-negative dimensions, the segment [drawCircle] strokes for bin [i]
    starts on the base circle of radius [min(width, height) / 4], points
    away from the centre and has length [dataArray[i] / 255 * 100], a
    length between [0] and [100]; the base circle is stroked last. *)
Theorem drawCircle_spoke_lengths (c : Ctx) (i : nat) :
  List.length dataArray = bufferLength ->
  Forall isByte dataArray ->
  0 <= width -> 0 <= height ->
  (i < bufferLength)%nat ->
  let ops := emitted (drawCircle width height bufferLength dataArray) c in
  let sg := nth i (segments ops) noSegment in
  let centre := (width / 2, height / 2) in
  let baseRadius := Rmin width height / 4 in
  let len := IZR (nth i dataArray 0%Z) / 255 * 100 in
  List.length (segments ops) = bufferLength
  /\ distance (fst sg) centre = baseRadius
  /\ distance (snd sg) centre = baseRadius + len
  /\ distance (fst sg) (snd sg) = len
  /\ 0 <= len <= 100
  /\ last ops noOp = baseCircleOp width height.
Proof.
  intros Hlen Hbytes Hw Hh Hi ops sg centre baseRadius len. subst sg ops.
  rewrite (drawCircle_segments c Hlen Hw Hh).
  rewrite length_map, length_seq. split; [reflexivity|].
  rewrite nth_map_seq by exact Hi.
  assert (Hbyte : isByte (nth i dataArray 0%Z)).
  { rewrite Forall_forall in Hbytes. apply Hbytes. apply nth_In. lia. }
  assert (Hlen0 : 0 <= len <= 100).
  { unfold len. destruct Hbyte as [Hlo Hhi].
    apply IZR_le in Hlo. apply IZR_le in Hhi. lra. }
  pose proof (radius_nonneg width height Hw Hh) as Hr.
  unfold spokeOp, spokeLength, distance, centre, baseRadius. cbn [segmentOf fst snd].
  fold len. unfold centerX, centerY.
  assert (Hrad : radius width height = Rmin width height / 4) by reflexivity.
  rewrite <- Hrad.
  set (a := spokeAngle bufferLength i). set (r := radius width height) in *.
  split; [|split; [|split; [|split]]].
  - replace (width / 2 + cos a * r - width / 2) with (cos a * r) by ring.
    replace (height / 2 + sin a * r - height / 2) with (sin a * r) by ring.
    apply on_circle. exact Hr.
  - replace (width / 2 + cos a * (r + len) - width / 2) with (cos a * (r + len)) by ring.
    replace (height / 2 + sin a * (r + len) - height / 2) with (sin a * (r + len)) by ring.
    apply on_circle. lra.
  - replace (width / 2 + cos a * r - (width / 2 + cos a * (r + len)))
      with (- (cos a * len)) by ring.
    replace (height / 2 + sin a * r - (height / 2 + sin a * (r + len)))
      with (- (sin a * len)) by ring.
    apply spoke_length. lra.
  - exact Hlen0.
  - destruct (drawCircle_emitted width height bufferLength dataArray c Hlen Hw Hh)
      as [_ ->].
    change (?x :: ?l ++ ?t) with ((x :: l) ++ t). apply last_last.
Qed.

End CircleMore.

(** ** Bars mode, heights and overflow *)

Section BarsMore.

Variables (width height : R) (bufferLength : nat) (dataArray : list Z).

(** X4: on a spectrum of [bufferLength] bytes over a surface of
    non-negative height, the bar of bin [i] stands on the bottom edge of
    the surface and is [dataArray[i] / 255 * height * 0.8] tall: never
    taller than 80% of the surface, and exactly that for a bin at 255. *)
Theorem drawBars_bar_heights (c : Ctx) (i : nat) :
  List.length dataArray = bufferLength ->
  Forall isByte dataArray ->
  0 <= height ->
  (i < bufferLength)%nat ->
  let bar := nth i (barFills (emitted (drawBars width height bufferLength dataArray) c))
                 noOp in
  rectBottom bar = height
  /\ rectHeight bar = IZR (nth i dataArray 0%Z) / 255 * height * 0.8
  /\ 0 <= rectHeight bar <= 0.8 * height
  /\ (nth i dataArray 0%Z = 255%Z -> rectHeight bar = 0.8 * height).
Proof.
  intros Hlen Hbytes Hh Hi bar. subst bar.
  rewrite (drawBars_barFills width height bufferLength dataArray c Hlen).
  rewrite nth_map_seq by exact Hi.
  assert (Hbyte : isByte (nth i dataArray 0%Z)).
  { rewrite Forall_forall in Hbytes. apply Hbytes. apply nth_In. lia. }
  destruct Hbyte as [Hlo Hhi]. apply IZR_le in Hlo. apply IZR_le in Hhi.
  unfold barOp, barHeightAt, rectBottom, rectTop, rectHeight.
  split; [lra|]. split; [reflexivity|]. split.
  - assert (0 <= IZR (nth i dataArray 0%Z) / 255 <= 1) by lra. nra.
  - intros ->. lra.
Qed.

(** X5: the bars are not fitted to the surface: on a surface of
    non-negative width the bar of every bin [i] with
    [bufferLength <= 2.5 * i] starts at or beyond the right edge. *)
Theorem drawBars_overflow (c : Ctx) (i : nat) :
  List.length dataArray = bufferLength ->
  0 <= width ->
  (i < bufferLength)%nat ->
  INR bufferLength <= 2.5 * INR i ->
  width <= rectX (nth i (barFills (emitted (drawBars width height bufferLength dataArray) c))
                      noOp).
Proof.
  intros Hlen Hw Hi Hfar.
  rewrite (drawBars_barFills width height bufferLength dataArray c Hlen).
  rewrite nth_map_seq by exact Hi.
  unfold barOp, rectX, barStep, barWidth.
  assert (Hn : 0 < INR bufferLength) by (apply lt_0_INR; lia).
  assert (Hi0 : 0 <= INR i) by apply pos_INR.
  assert (Hq : width <= INR i * (width / INR bufferLength * 2.5)).
  { replace (INR i * (width / INR bufferLength * 2.5))
      with (width * (2.5 * INR i / INR bufferLength)) by (field; lra).
    assert (1 <= 2.5 * INR i / INR bufferLength).
    { apply (Rmult_le_reg_r (INR bufferLength)); [exact Hn|].
      unfold Rdiv. rewrite Rmult_assoc, Rinv_l by lra. lra. }
    nra. }
  lra.
Qed.

End BarsMore.

(** ** Particles mode, the field across a tick *)

Section ParticlesMore.

Variables (now width height : R) (bufferLength : nat) (dataArray : list Z).

(** The particle array after one call of the callback, whether the call
    returns or raises: the particle at [index] is moved, the others are
    left alone. *)
Lemma drawParticles_body_particles (scale : R) (index : nat) (s : Store) :
  fst (snd (drawParticles_body now width height bufferLength dataArray scale index tt s))
  = match nth_error (fst s) index with
    | Some p0 => set_nth index (move width height scale p0) (fst s)
    | None => fst s
    end.
Proof.
  unfold drawParticles_body.
  unfold bind at 1, get at 1.
  destruct (nth_error (fst s) index) as [p0|]; [|reflexivity].
  unfold bind at 1, setParticle, modify. cbv beta iota.
  set (s1 := (set_nth index (move width height scale p0) (fst s), snd s)).
  change (set_nth index (move width height scale p0) (fst s)) with (fst s1).
  clearbody s1.
  destruct (typed_get _ _) as [d|]; [|reflexivity].
  unfold bind at 1.
  match goal with |- context [onCtx ?m s1] =>
    pose proof (onCtx_particles m s1) as Hg; destruct (onCtx m s1) as [[g|e] s2] end;
    cbn [snd] in Hg; [|cbn [snd]; exact Hg].
  unfold bind at 1.
  match goal with |- context [onCtx ?m s2] =>
    pose proof (onCtx_particles m s2) as Hd; destruct (onCtx m s2) as [[[]|e] s3] end;
    cbn [snd] in Hd; [|cbn [snd]; congruence].
  apply (for_range_keeps (fun s => fst s = fst s1)).
  - intros j [] s4 H4. rewrite link_particles. exact H4.
  - congruence.
Qed.

Lemma set_nth_Forall2 {A} (Rel : A -> A -> Prop) (i : nat) (q : A) (l l' : list A) :
  Forall2 Rel l l' ->
  (forall p p', nth_error l i = Some p -> nth_error l' i = Some p' -> Rel p q) ->
  Forall2 Rel l (set_nth i q l').
Proof.
  intros HF. revert i. induction HF as [|a b l l' Hab HF IH]; intros i Hq.
  - destruct i; cbn; constructor.
  - destruct i as [|i]; cbn.
    + constructor; [apply (Hq a b); reflexivity|exact HF].
    + constructor; [exact Hab|]. apply IH. intros p p' Hp Hp'.
      apply (Hq p p'); assumption.
Qed.

Lemma Forall2_nth_error {A} (Rel : A -> A -> Prop) (l l' : list A) (i : nat) (p p' : A) :
  Forall2 Rel l l' -> nth_error l i = Some p -> nth_error l' i = Some p' -> Rel p p'.
Proof.
  intros HF. revert i. induction HF as [|a b l l' Hab HF IH]; intros i Hp Hp'.
  - destruct i; discriminate.
  - destruct i as [|i]; cbn in *.
    + congruence.
    + eapply IH; eassumption.
Qed.

Lemma reflect_abs (pos bound speed : R) :
  Rabs (reflect pos bound speed) = Rabs speed.
Proof.
  unfold reflect. destruct (numlt pos 0 || numlt bound pos); [|reflexivity].
  replace (speed * -1) with (- speed) by ring. apply Rabs_Ropp.
Qed.

Lemma move_sameAttributes (scale : R) (p p' : Particle.t) :
  sameAttributes p p' -> sameAttributes p (move width height scale p').
Proof.
  intros (Hr & Hh & Hx & Hy). unfold sameAttributes, move. cbn.
  rewrite !reflect_abs. repeat split; assumption.
Qed.

Lemma sameAttributes_refl (l : list Particle.t) : Forall2 sameAttributes l l.
Proof.
  induction l as [|p l IH]; constructor; [|exact IH].
  repeat split.
Qed.

(** X6: on an empty spectrum [drawParticles] paints the background and
    raises TypeError, whatever the field and the surface; no particle is
    touched. *)
Theorem drawParticles_empty_spectrum (ps : list Particle.t) (c : Ctx) :
  fst (drawParticles now width height bufferLength [] (ps, c)) = Throw TypeError
  /\ fst (snd (drawParticles now width height bufferLength [] (ps, c))) = ps
  /\ emittedField (drawParticles now width height bufferLength []) (ps, c)
     = [FillRect (Solid (Rgba 0 0 0 0.1)) 0 0 width height].
Proof.
  unfold emittedField, drawParticles, onCtx. run.
  split; [reflexivity|]. split; [reflexivity|].
  rewrite skipn_app, skipn_all, Nat.sub_diag. reflexivity.
Qed.

Lemma drawParticles_sameAttributes (ps : list Particle.t) (c : Ctx) :
  Forall2 sameAttributes ps
          (fst (snd (drawParticles now width height bufferLength dataArray (ps, c)))).
Proof.
  unfold drawParticles. unfold bind at 1.
  match goal with |- context [onCtx ?m (ps, c)] =>
    pose proof (onCtx_particles m (ps, c)) as H1;
    destruct (onCtx m (ps, c)) as [[[]|e] s1] end;
    cbn [snd fst] in H1; [|cbn [snd]; rewrite H1; apply sameAttributes_refl].
  unfold bind at 1.
  destruct (map IZR dataArray) as [|a rest];
    [cbn; rewrite H1; apply sameAttributes_refl|].
  unfold reduce, ret at 1. unfold bind at 1, get at 1.
  apply (for_range_keeps (fun s => Forall2 sameAttributes ps (fst s))).
  - intros i [] s2 H2. rewrite drawParticles_body_particles.
    destruct (nth_error (fst s2) i) as [p0|] eqn:Hp0; [|exact H2].
    apply set_nth_Forall2; [exact H2|].
    intros p p' Hp Hp'. apply move_sameAttributes.
    rewrite Hp0 in Hp'. injection Hp' as <-.
    eapply Forall2_nth_error; eassumption.
  - rewrite H1. apply sameAttributes_refl.
Qed.

(** X7: whatever the spectrum, and whether [drawParticles] returns or
    raises, the field keeps its size and every particle keeps its radius,
    its hue and the magnitude of its speed along each axis: only
    positions and the signs of the speeds change. *)
Theorem drawParticles_keeps_attributes (ps : list Particle.t) (c : Ctx) :
  let ps' := fst (snd (drawParticles now width height bufferLength dataArray (ps, c))) in
  List.length ps' = List.length ps
  /\ Forall2 sameAttributes ps ps'.
Proof.
  intros ps'. pose proof (drawParticles_sameAttributes ps c) as H. fold ps' in H.
  split; [symmetry; eapply Forall2_length; exact H|exact H].
Qed.

Lemma fold_left_Rplus_zero (l : list Z) :
  Forall (fun d => d = 0%Z) l -> fold_left Rplus (map IZR l) 0 = 0.
Proof.
  induction 1 as [|d l Hd Hl IH]; [reflexivity|].
  cbn. subst d. rewrite Rplus_0_l. exact IH.
Qed.

Lemma energy_silent :
  Forall (fun d => d = 0%Z) dataArray -> energy bufferLength dataArray = 0.
Proof.
  intros Hzero. unfold energy.
  destruct dataArray as [|a rest]; [reflexivity|].
  inversion Hzero; subst. cbn [map].
  rewrite (fold_left_Rplus_zero rest) by assumption.
  unfold Rdiv. rewrite !Rmult_0_l. reflexivity.
Qed.

Lemma move_zero_inBounds (p : Particle.t) :
  inBounds width height p -> move width height 0 p = p.
Proof.
  intros [[Hx0 Hx1] [Hy0 Hy1]]. destruct p as [x y r sx sy h]. cbn in *.
  unfold move. cbn. unfold reflect, clamp, Math_max, Math_min.
  replace (x + sx * 0) with x by ring. replace (y + sy * 0) with y by ring.
  rewrite !numlt_false by lra. cbn [orb].
  rewrite (Rmin_right width x), (Rmin_right height y) by lra.
  rewrite !Rmax_right by lra. reflexivity.
Qed.

Lemma set_nth_same {A} (i : nat) (a : A) (l : list A) :
  nth_error l i = Some a -> set_nth i a l = l.
Proof.
  revert i. induction l as [|b l IH]; intros i Hi.
  - destruct i; discriminate.
  - destruct i as [|i]; cbn in *.
    + congruence.
    + rewrite IH by exact Hi. reflexivity.
Qed.

(** X8: on a spectrum of [bufferLength] zero bytes, at least one, a field
    that lies within the surface does not move: after [drawParticles],
    returned or raised, the particle array is the one before the call,
    positions and speeds included. *)
Theorem drawParticles_silent_freezes (ps : list Particle.t) (c : Ctx) :
  spectrumOk bufferLength dataArray ->
  Forall (fun d => d = 0%Z) dataArray ->
  Forall (inBounds width height) ps ->
  fst (snd (drawParticles now width height bufferLength dataArray (ps, c))) = ps.
Proof.
  intros Hok Hzero Hin.
  pose proof energy_silent Hzero as He. unfold energy in He.
  unfold drawParticles. unfold bind at 1.
  match goal with |- context [onCtx ?m (ps, c)] =>
    pose proof (onCtx_particles m (ps, c)) as H1;
    destruct (onCtx m (ps, c)) as [[[]|e] s1] end;
    cbn [snd fst] in H1; [|exact H1].
  unfold bind at 1.
  destruct (map IZR dataArray) as [|a rest]; [exact H1|].
  unfold reduce, ret at 1. unfold bind at 1, get at 1.
  rewrite He.
  apply (for_range_keeps (fun s => fst s = ps)).
  - intros i [] s2 H2. rewrite drawParticles_body_particles.
    destruct (nth_error (fst s2) i) as [p0|] eqn:Hp0; [|exact H2].
    rewrite move_zero_inBounds.
    + rewrite set_nth_same by exact Hp0. exact H2.
    + rewrite Forall_forall in Hin. apply Hin. rewrite <- H2.
      eapply nth_error_In. exact Hp0.
  - exact H1.
Qed.

End ParticlesMore.

(** ** Particles mode, what a tick paints *)

Section ParticlesPaint.

Variables (now width height : R) (bufferLength : nat) (dataArray : list Z).

Let body := drawParticles_body now width height bufferLength dataArray.

(** On a silent spectrum one call of the callback strokes nothing,
    whether it returns or raises. *)
Lemma drawParticles_body_silent (scale : R) (index : nat) (s : Store) :
  Forall (fun d => d = 0%Z) dataArray ->
  exists ops,
    painted (snd (snd (body scale index tt s))) = painted (snd s) ++ ops
    /\ strokes ops = [].
Proof.
  intros Hzero. unfold body, drawParticles_body.
  unfold bind at 1, get at 1. cbv beta iota.
  destruct (nth_error (fst s) index) as [p0|].
  2:{ exists []. rewrite app_nil_r. split; reflexivity. }
  unfold bind at 1, setParticle, modify. cbv beta iota. cbn [fst snd].
  destruct (typed_get dataArray _) as [d|] eqn:Hd.
  2:{ exists []. rewrite app_nil_r. split; reflexivity. }
  assert (d = 0%Z) as ->.
  { unfold typed_get in Hd. destruct (Z.ltb _ 0); [discriminate|].
    rewrite Forall_forall in Hzero. apply Hzero. eapply nth_error_In. exact Hd. }
  replace (IZR 0 / 255) with 0 by lra.
  set (p := move width height scale p0).
  unfold bind at 1, onCtx at 1, zoom at 1, createRadialGradient.
  cbv beta iota. cbn [fst snd].
  destruct (numlt 0 0 || numlt (Particle.radius p * (1 + 0 * 2)) 0) eqn:Hneg.
  { exists []. cbn. rewrite app_nil_r. split; reflexivity. }
  apply orb_false_elim in Hneg. destruct Hneg as [_ Hneg].
  cbn [ret fst snd].
  unfold bind at 1, onCtx at 1, zoom at 1, arc. rewrite Hneg. run.
  rewrite link_loop_silent. cbn.
  eexists. split; reflexivity.
Qed.

(** X9: on a spectrum whose bins are all [0], [drawParticles] strokes
    nothing, whatever the field: no two particles are linked in that
    tick. *)
Theorem drawParticles_silent_no_links (s : Store) :
  Forall (fun d => d = 0%Z) dataArray ->
  strokes (emittedField (drawParticles now width height bufferLength dataArray) s) = [].
Proof.
  intros Hzero.
  assert (exists ops,
             painted (snd (snd (drawParticles now width height bufferLength dataArray s)))
             = painted (snd s) ++ ops /\ strokes ops = []) as (ops & Hp & Hs).
  { unfold drawParticles. unfold bind at 1.
    match goal with |- context [onCtx ?m s] =>
      assert (exists c1, onCtx m s = (Normal tt, (fst s, c1))
                         /\ painted c1
                            = painted (snd s)
                              ++ [FillRect (Solid (Rgba 0 0 0 0.1)) 0 0 width height])
        as (c1 & -> & Hc1)
        by (unfold onCtx, zoom; run; eexists; split; reflexivity) end.
    assert (H1 : exists ops, painted (snd (fst s, c1)) = painted (snd s) ++ ops
                             /\ strokes ops = []).
    { eexists. split; [exact Hc1|reflexivity]. }
    unfold bind at 1.
    destruct (map IZR dataArray) as [|a rest]; [exact H1|].
    unfold reduce, ret at 1. unfold bind at 1, get at 1. cbv beta zeta.
    apply (for_range_keeps
             (fun s' => exists ops, painted (snd s') = painted (snd s) ++ ops
                                    /\ strokes ops = [])); [|exact H1].
    intros i [] s2 (ops2 & Hp2 & Hs2). cbv beta.
    destruct (drawParticles_body_silent
                (fold_left Rplus rest a / INR bufferLength / 128) i s2 Hzero)
      as (ops3 & Hp3 & Hs3).
    exists (ops2 ++ ops3). unfold body in Hp3. split.
    - transitivity (painted (snd s2) ++ ops3); [exact Hp3|].
      rewrite Hp2, <- app_assoc. reflexivity.
    - unfold strokes in *. rewrite filter_app, Hs2, Hs3. reflexivity. }
  unfold emittedField. rewrite Hp, skipn_app, skipn_all, Nat.sub_diag. exact Hs.
Qed.

(** The links of a particle add strokes only. *)
Lemma link_loop_paints (p : Particle.t) (hue intensity : R) (n j : nat)
      (ps : list Particle.t) (c : Ctx) :
  (j + n <= List.length ps)%nat ->
  exists c' links,
    for_range n j (link p hue intensity) tt (ps, c) = (Normal tt, (ps, c'))
    /\ painted c' = painted c ++ links
    /\ fills links = [].
Proof.
  revert j c. induction n as [|n IH]; intros j c Hj.
  - exists c, []. rewrite app_nil_r. repeat split.
  - destruct (nth_error ps j) as [other|] eqn:Ho.
    2:{ apply nth_error_None in Ho. lia. }
    cbn [for_range]. unfold bind at 1. unfold link at 1.
    unfold bind at 1, get at 1. cbn [fst]. rewrite Ho.
    destruct (numlt _ _).
    + unfold onCtx, zoom. run.
      match goal with |- context [for_range n (S j) _ tt (ps, ?c1)] =>
        destruct (IH (S j) c1) as (c' & links & Hrun & Hp & Hf) end.
      { lia. }
      exists c'. eexists. split; [exact Hrun|]. split.
      * rewrite Hp. cbn. rewrite <- app_assoc. reflexivity.
      * cbn. exact Hf.
    + unfold ret at 1.
      destruct (IH (S j) c) as (c' & links & Hrun & Hp & Hf); [lia|].
      exists c', links. repeat split; assumption.
Qed.

(** One call of the callback on a well-formed store paints the disc of
    the moved particle, then its links. *)
Lemma drawParticles_body_paints (scale : R) (done todo : list Particle.t)
      (p0 : Particle.t) (c : Ctx) :
  spectrumOk bufferLength dataArray ->
  0 <= Particle.radius p0 ->
  exists c' links,
    body scale (List.length done) tt (done ++ p0 :: todo, c)
    = (Normal tt, (done ++ move width height scale p0 :: todo, c'))
    /\ painted c'
       = painted c
         ++ discOp now (move width height scale p0)
                   (binOf bufferLength dataArray (List.length done)
                          (List.length (done ++ p0 :: todo)))
         :: links
    /\ fills links = [].
Proof.
  intros Hok Hrad. unfold body, drawParticles_body, binOf.
  unfold bind at 1, get at 1. cbn [fst].
  rewrite nth_error_mid.
  unfold bind at 1, setParticle, modify. cbn [fst snd].
  rewrite set_nth_mid.
  destruct (typed_get_some now width height bufferLength dataArray
              (List.length done) (List.length (done ++ p0 :: todo)))
    as (d & -> & Hd); [rewrite length_app; cbn; lia|exact Hok|].
  set (p := move width height scale p0).
  assert (Hsize : 0 <= Particle.radius p * (1 + IZR d / 255 * 2)).
  { assert (0 <= IZR d) by (apply IZR_le; lia).
    assert (0 <= IZR d / 255) by (apply Rmult_le_pos; lra).
    apply Rmult_le_pos; [exact Hrad|lra]. }
  unfold bind at 1, onCtx at 1, zoom at 1, createRadialGradient.
  rewrite (numlt_false 0 0) by lra. rewrite numlt_false by exact Hsize.
  cbn [orb ret fst snd].
  unfold bind at 1, onCtx at 1, zoom at 1, arc.
  rewrite numlt_false by exact Hsize. run.
  match goal with |- context [for_range ?n ?j ?f tt (?ps, ?c1)] =>
    destruct (link_loop_paints p (rem (Particle.hue p + now / 50) 360) (IZR d / 255)
                               n j ps c1) as (c' & links & Hrun & Hp & Hf) end.
  { rewrite !length_app. cbn. lia. }
  exists c', links. split; [exact Hrun|]. split; [|exact Hf].
  rewrite Hp. cbn. rewrite <- app_assoc. reflexivity.
Qed.

Lemma drawParticles_loop_paints (scale : R) (todo done : list Particle.t) (c : Ctx) :
  spectrumOk bufferLength dataArray ->
  fieldOk todo ->
  exists c' ops,
    for_range (List.length todo) (List.length done) (body scale) tt (done ++ todo, c)
    = (Normal tt, (done ++ map (move width height scale) todo, c'))
    /\ painted c' = painted c ++ ops
    /\ fills ops
       = map (fun ip => discOp now (move width height scale (snd ip))
                               (binOf bufferLength dataArray (fst ip)
                                      (List.length (done ++ todo))))
             (combine (seq (List.length done) (List.length todo)) todo).
Proof.
  intros Hok. revert done c.
  induction todo as [|p0 todo IH]; intros done c Hfield.
  - exists c, []. cbn. rewrite !app_nil_r. repeat split.
  - inversion Hfield as [|? ? Hrad Hrest]; subst.
    cbn [List.length for_range]. unfold bind at 1.
    destruct (drawParticles_body_paints scale done todo p0 c Hok Hrad)
      as (c1 & links & -> & Hp1 & Hf1).
    destruct (IH (done ++ [move width height scale p0]) c1 Hrest)
      as (c' & ops & Hrun & Hp & Hf).
    rewrite length_app, <- app_assoc in Hrun. cbn in Hrun.
    rewrite Nat.add_1_r in Hrun.
    exists c'. eexists. rewrite Hrun. split; [rewrite <- app_assoc; reflexivity|].
    split.
    + rewrite Hp, Hp1, <- app_assoc. cbn. reflexivity.
    + unfold fills in *. cbn [filter isFill discOp].
      rewrite filter_app, Hf1, Hf. cbn [app seq combine map fst snd].
      replace (List.length ((done ++ [move width height scale p0]) ++ todo))
        with (List.length (done ++ p0 :: todo))
        by (rewrite !length_app; cbn [List.length]; lia).
      replace (List.length (done ++ [move width height scale p0]))
        with (S (List.length done))
        by (rewrite length_app; cbn [List.length]; lia).
      reflexivity.
Qed.

Lemma nth_error_combine_seq {A} (l : list A) (lo i : nat) (a : A) :
  nth_error l i = Some a ->
  nth_error (combine (seq lo (List.length l)) l) i = Some ((lo + i)%nat, a).
Proof.
  revert lo i. induction l as [|q l IH]; intros lo i Hi; [destruct i; discriminate|].
  destruct i as [|i]; cbn in *.
  - injection Hi as ->. rewrite Nat.add_0_r. reflexivity.
  - rewrite (IH (S lo) i Hi). f_equal. f_equal. lia.
Qed.

(** X10: on a well-formed spectrum and field [drawParticles] paints
    exactly one disc per particle, in the order of the field; the disc of
    a particle is centred at its position after the move, and its radius
    is the particle's radius scaled by [1 + 2 * intensity] of its bin: at
    least the radius and at most three times the radius. *)
Theorem drawParticles_one_disc_each (ps : list Particle.t) (c : Ctx)
        (i : nat) (p : Particle.t) :
  spectrumOk bufferLength dataArray ->
  fieldOk ps ->
  nth_error ps i = Some p ->
  let ops := emittedField (drawParticles now width height bufferLength dataArray) (ps, c) in
  let moved := move width height (energy bufferLength dataArray) p in
  let disc := nth i (fills ops) noOp in
  List.length (fills ops) = List.length ps
  /\ disc = discOp now moved (binOf bufferLength dataArray i (List.length ps))
  /\ discCentre disc = (Particle.x moved, Particle.y moved)
  /\ Particle.radius p <= discRadius disc <= 3 * Particle.radius p.
Proof.
  intros Hok Hfield Hi ops moved disc.
  assert (Hfills : fills ops
                   = map (fun ip => discOp now
                                      (move width height (energy bufferLength dataArray) (snd ip))
                                      (binOf bufferLength dataArray (fst ip) (List.length ps)))
                         (combine (seq 0 (List.length ps)) ps)).
  { subst ops. pose proof Hok as (Hlen & Hne & Hbytes).
    unfold emittedField, drawParticles.
    unfold bind at 1, onCtx at 1, zoom at 1. run.
    unfold energy. destruct (map IZR dataArray) as [|a rest] eqn:Hmap.
    { destruct dataArray; [congruence|discriminate]. }
    run.
    match goal with |- context [for_range _ 0 ?f tt (ps, ?c1)] =>
      destruct (drawParticles_loop_paints
                  (fold_left Rplus rest a / INR bufferLength / 128)
                  ps [] c1 Hok Hfield) as (c' & ops & Hrun & Hp & Hf) end.
    cbn [app List.length] in Hrun, Hf. unfold body in Hrun. rewrite Hrun.
    cbn [snd]. rewrite Hp. cbn [painted paint].
    rewrite <- app_assoc, skipn_app, skipn_all, Nat.sub_diag. cbn [app skipn].
    unfold fills at 1. cbn [filter isFill]. exact Hf. }
  assert (Hnth : disc = discOp now moved (binOf bufferLength dataArray i (List.length ps))).
  { subst disc. rewrite Hfills.
    pose proof (nth_error_combine_seq ps 0 i p Hi) as Hc. cbn [Nat.add] in Hc.
    erewrite nth_error_nth; [|rewrite nth_error_map, Hc; reflexivity].
    reflexivity. }
  split; [rewrite Hfills, length_map, length_combine, length_seq; lia|].
  split; [exact Hnth|]. rewrite Hnth.
  split; [reflexivity|].
  unfold discOp, discRadius, pathOf. cbn [Particle.radius moved move].
  assert (Hrad : 0 <= Particle.radius p).
  { unfold fieldOk in Hfield. rewrite Forall_forall in Hfield.
    apply Hfield. eapply nth_error_In. exact Hi. }
  assert (Hbyte : (0 <= binOf bufferLength dataArray i (List.length ps) <= 255)%Z).
  { unfold binOf.
    destruct (typed_get_some now width height bufferLength dataArray i (List.length ps))
      as (d & -> & Hd); [apply nth_error_Some; congruence|exact Hok|exact Hd]. }
  destruct Hbyte as [Hlo Hhi]. apply IZR_le in Hlo. apply IZR_le in Hhi.
  subst moved. cbn.
  assert (0 <= IZR (binOf bufferLength dataArray i (List.length ps)) / 255 <= 1) by lra.
  nra.
Qed.

End ParticlesPaint.

(** ** The engine across events *)

Section EngineMore.

Lemma or1_pos (d : R) : 0 <= d -> 0 < or1 d.
Proof.
  intros Hd. unfold or1. destruct (Req_dec_T d 0); lra.
Qed.

Lemma newParticle_fresh (random : nat -> R) (s : State) (i : nat) :
  (forall n, 0 <= random n < 1) ->
  0 <= canvasWidth s -> 0 <= canvasHeight s -> 0 <= devicePixelRatio s ->
  freshParticle (logicalWidth s) (logicalHeight s) (newParticle random s i).
Proof.
  intros Hrandom Hw Hh Hd.
  pose proof (or1_pos _ Hd) as Hpos.
  assert (Hinv : 0 < / or1 (devicePixelRatio s)) by (apply Rinv_0_lt_compat; exact Hpos).
  unfold freshParticle, newParticle, logicalWidth, logicalHeight.
  cbn [Particle.x Particle.y Particle.radius Particle.speedX Particle.speedY
       Particle.hue].
  unfold Rdiv.
  pose proof (Hrandom (6 * i)%nat) as H0.
  pose proof (Hrandom (6 * i + 1)%nat) as H1.
  pose proof (Hrandom (6 * i + 2)%nat) as H2.
  pose proof (Hrandom (6 * i + 3)%nat) as H3.
  pose proof (Hrandom (6 * i + 4)%nat) as H4.
  pose proof (Hrandom (6 * i + 5)%nat) as H5.
  assert (Hlw : 0 <= canvasWidth s * / or1 (devicePixelRatio s)) by nra.
  assert (Hlh : 0 <= canvasHeight s * / or1 (devicePixelRatio s)) by nra.
  repeat split; try lra.
  - rewrite Rmult_assoc. nra.
  - rewrite Rmult_assoc. nra.
  - rewrite Rmult_assoc. nra.
  - rewrite Rmult_assoc. nra.
Qed.

(** X11: with random numbers in [0, 1), on a canvas of non-negative size
    and pixel ratio, [initParticles] replaces the field, whatever it
    held, by 100 particles, each within the surface, with a radius in
    [1, 4), speeds in [-1, 1) along each axis and a hue in [0, 360). *)
Theorem initParticles_fresh_field (random : nat -> R) (s : State) :
  (forall n, 0 <= random n < 1) ->
  0 <= canvasWidth s -> 0 <= canvasHeight s -> 0 <= devicePixelRatio s ->
  let s' := snd (initParticles random s) in
  fst (initParticles random s) = Normal tt
  /\ List.length (particles s') = 100%nat
  /\ Forall (freshParticle (logicalWidth s') (logicalHeight s')) (particles s')
  /\ s' = set_particles (particles s') s.
Proof.
  intros Hrandom Hw Hh Hd. unfold initParticles. run.
  split; [reflexivity|]. split; [reflexivity|]. split; [|reflexivity].
  change (Forall (freshParticle (logicalWidth s) (logicalHeight s))
                 (map (newParticle random s) (seq 0 100))).
  apply Forall_map. apply Forall_forall. intros i _.
  apply newParticle_fresh; assumption.
Qed.

Lemma engineOk_frame (s s' : State) :
  canvasWidth s' = canvasWidth s -> canvasHeight s' = canvasHeight s ->
  devicePixelRatio s' = devicePixelRatio s ->
  dataArray s' = dataArray s -> bufferLength s' = bufferLength s ->
  particles s' = particles s -> analyser s' = analyser s ->
  engineOk s -> engineOk s'.
Proof.
  unfold engineOk, logicalWidth, logicalHeight.
  intros -> -> -> -> -> -> ->. exact (fun H => H).
Qed.

Lemma onContext_engineOk {A} (m : M Ctx A) (s : State) :
  engineOk s -> engineOk (snd (onContext m s)).
Proof.
  unfold onContext, zoom. destruct (m (ctx s)) as [r c']. cbn [snd].
  apply engineOk_frame; reflexivity.
Qed.

Lemma Forall_firstn_keeps {A} (P : A -> Prop) (n : nat) (l : list A) :
  Forall P l -> Forall P (firstn n l).
Proof.
  intros H. revert n. induction H as [|a l Ha Hl IH]; intros n.
  - destruct n; constructor.
  - destruct n; cbn; constructor; auto.
Qed.

Lemma Forall_skipn_keeps {A} (P : A -> Prop) (n : nat) (l : list A) :
  Forall P l -> Forall P (skipn n l).
Proof.
  intros H. revert n. induction H as [|a l Ha Hl IH]; intros n.
  - destruct n; constructor.
  - destruct n; cbn; [constructor; assumption|apply IH].
Qed.

Lemma overwrite_bytes (sample arr : list Z) :
  Forall isByte sample -> Forall isByte arr -> Forall isByte (overwrite sample arr).
Proof.
  intros Hs Ha. unfold overwrite. apply Forall_app. split.
  - apply Forall_firstn_keeps. exact Hs.
  - apply Forall_skipn_keeps. exact Ha.
Qed.

Lemma sameAttributes_fieldOk (ps ps' : list Particle.t) :
  Forall2 sameAttributes ps ps' -> fieldOk ps -> fieldOk ps'.
Proof.
  unfold fieldOk. induction 1 as [|p p' l l' Hp HF IH]; intros Hok; [constructor|].
  inversion Hok; subst. constructor; [|apply IH; assumption].
  destruct Hp as [-> _]. assumption.
Qed.

Lemma logical_nonneg (s : State) :
  0 <= canvasWidth s -> 0 <= canvasHeight s -> 0 <= devicePixelRatio s ->
  0 <= logicalWidth s /\ 0 <= logicalHeight s.
Proof.
  intros Hw Hh Hd. pose proof (or1_pos _ Hd) as Hpos.
  assert (Hinv : 0 < / or1 (devicePixelRatio s)) by (apply Rinv_0_lt_compat; exact Hpos).
  unfold logicalWidth, logicalHeight, Rdiv. split; nra.
Qed.

Lemma drawParticles__engineOk (now : R) (s : State) :
  engineOk s -> engineOk (snd (drawParticles_ now s)).
Proof.
  intros Hok. unfold drawParticles_, bind, get, onField, zoom.
  pose proof (drawParticles_sameAttributes now (logicalWidth s) (logicalHeight s)
                (bufferLength s) (dataArray s) (particles s) (ctx s)) as Hattr.
  destruct Hok as (Hcw & Hch & Hd & Hlen & Hbytes & Hfield & Hin & Han).
  destruct (logical_nonneg s Hcw Hch Hd) as [Hw Hh].
  pose proof (drawParticles_keeps_in_bounds now (logicalWidth s) (logicalHeight s)
                (bufferLength s) (dataArray s) (particles s, ctx s) Hw Hh Hin) as Hin'.
  destruct (drawParticles now (logicalWidth s) (logicalHeight s)
                          (bufferLength s) (dataArray s) (particles s, ctx s))
    as [r [ps' c']].
  cbn [fst snd] in *.
  unfold engineOk, logicalWidth, logicalHeight in *. cbn.
  repeat split; try assumption.
  - eapply sameAttributes_fieldOk; eassumption.
  - apply Han. assumption.
  - rewrite <- (Forall2_length Hattr). apply Han. assumption.
Qed.

Lemma dispatch_engineOk (now : R) (s : State) :
  engineOk s ->
  engineOk
    (snd ((if String.eqb (mode s) "bars" then drawBars_
           else if String.eqb (mode s) "circle" then drawCircle_
           else if String.eqb (mode s) "wave" then drawWave_ now
           else if String.eqb (mode s) "particles" then drawParticles_ now
           else ret tt) s)).
Proof.
  intros Hok.
  destruct (String.eqb (mode s) "bars");
    [|destruct (String.eqb (mode s) "circle");
      [|destruct (String.eqb (mode s) "wave");
        [|destruct (String.eqb (mode s) "particles")]]].
  - unfold drawBars_, bind, get. apply onContext_engineOk. exact Hok.
  - unfold drawCircle_, bind, get. apply onContext_engineOk. exact Hok.
  - unfold drawWave_, bind, get. apply onContext_engineOk. exact Hok.
  - apply drawParticles__engineOk. exact Hok.
  - exact Hok.
Qed.

Lemma visualize_not_playing (now : R) (sample : list Z) (s : State) :
  isPlaying s = false -> visualize now sample s = (Normal tt, s).
Proof.
  intros Hstop. unfold visualize, bind, get. rewrite Hstop. reflexivity.
Qed.

Lemma visualize_no_analyser (now : R) (sample : list Z) (s : State) :
  isPlaying s = true -> analyser s = None ->
  visualize now sample s
  = (Throw TypeError,
     set_animationId (Some (nextHandle s))
       (set_nextHandle (S (nextHandle s))
          (set_pendingFrames (pendingFrames s ++ [nextHandle s]) s))).
Proof.
  intros Hplay Han.
  unfold visualize, requestAnimationFrame, getByteFrequencyData.
  unfold bind, get, modify, ret. rewrite Hplay. cbn [negb].
  cbn [analyser set_animationId set_nextHandle set_pendingFrames].
  rewrite Han. reflexivity.
Qed.

Lemma visualize_engineOk (now : R) (sample : list Z) (s : State) :
  engineOk s -> Forall isByte sample ->
  engineOk (snd (visualize now sample s)).
Proof.
  intros Hok Hsample.
  destruct (isPlaying s) eqn:Hplay.
  2:{ rewrite visualize_not_playing by exact Hplay. exact Hok. }
  destruct (analyser s) as [n|] eqn:Han.
  2:{ rewrite visualize_no_analyser by assumption. cbn [snd].
      revert Hok. apply engineOk_frame; reflexivity. }
  rewrite (visualize_dispatch now sample s n Hplay Han).
  set (s2 := set_dataArray _ _).
  assert (Hok2 : engineOk s2).
  { destruct Hok as (Hw & Hh & Hd & Hlen & Hbytes & Hfield & Hin & Hinit).
    unfold engineOk, logicalWidth, logicalHeight in *. subst s2. cbn.
    repeat split; try assumption.
    - rewrite overwrite_length. exact Hlen.
    - apply overwrite_bytes; assumption.
    - apply Hinit. assumption.
    - apply Hinit. assumption. }
  exact (dispatch_engineOk now s2 Hok2).
Qed.

Lemma initAudioContext_run (state0 : AudioContextState) (random : nat -> R)
      (s : State) :
  initAudioContext state0 random s
  = (Normal tt,
     set_particles
       (map (newParticle random
               (set_dataArray (repeat 0%Z 128)
                  (set_bufferLength 128
                     (set_analyser (Some 128%nat)
                        (set_audioContext (Some state0) s)))))
            (seq 0 100))
       (set_dataArray (repeat 0%Z 128)
          (set_bufferLength 128
             (set_analyser (Some 128%nat)
                (set_audioContext (Some state0) s))))).
Proof. reflexivity. Qed.

Lemma handleFileSelect_run (state0 : AudioContextState) (random : nat -> R)
      (s : State) :
  handleFileSelect state0 random s
  = match audioContext s with
    | None => initAudioContext state0 random
                (set_audioCurrentTime 0 (set_audioPaused true s))
    | Some _ => (Normal tt, set_audioCurrentTime 0 (set_audioPaused true s))
    end.
Proof.
  unfold handleFileSelect, setAudioSrc, bind, get, modify.
  cbn [audioContext set_audioCurrentTime set_audioPaused].
  destruct (audioContext s); reflexivity.
Qed.

Lemma initAudioContext_engineOk (state0 : AudioContextState) (random : nat -> R)
      (s : State) :
  (forall n, 0 <= random n < 1) ->
  engineOk s ->
  engineOk (snd (initAudioContext state0 random s)).
Proof.
  intros Hrandom Hok. pose proof Hok as (Hcw & Hch & Hd & _).
  rewrite initAudioContext_run. cbn [snd].
  set (s4 := set_dataArray _ _).
  assert (Hfresh : Forall (freshParticle (logicalWidth s4) (logicalHeight s4))
                          (map (newParticle random s4) (seq 0 100))).
  { apply Forall_map. apply Forall_forall. intros i _.
    apply (newParticle_fresh random s4 i Hrandom); assumption. }
  unfold engineOk.
  change (logicalWidth (set_particles (map (newParticle random s4) (seq 0 100)) s4))
    with (logicalWidth s).
  change (logicalHeight (set_particles (map (newParticle random s4) (seq 0 100)) s4))
    with (logicalHeight s).
  change (logicalWidth s4) with (logicalWidth s) in Hfresh.
  change (logicalHeight s4) with (logicalHeight s) in Hfresh.
  cbn [dataArray bufferLength particles analyser set_particles
       canvasWidth canvasHeight devicePixelRatio].
  change (dataArray s4) with (repeat 0%Z 128).
  change (bufferLength s4) with 128%nat.
  change (canvasWidth s4) with (canvasWidth s).
  change (canvasHeight s4) with (canvasHeight s).
  change (devicePixelRatio s4) with (devicePixelRatio s).
  split; [exact Hcw|]. split; [exact Hch|]. split; [exact Hd|].
  split; [apply repeat_length|].
  split.
  { apply Forall_forall. intros d Hdin. apply repeat_spec in Hdin. subst d.
    unfold isByte. lia. }
  split.
  { unfold fieldOk. eapply Forall_impl; [|exact Hfresh].
    intros p (_ & _ & Hr & _). cbn beta. lra. }
  split.
  { eapply Forall_impl; [|exact Hfresh].
    intros p (Hx & Hy & _). split; assumption. }
  intros _. split; [reflexivity|].
  rewrite length_map, length_seq. reflexivity.
Qed.

Lemma handleFileSelect_engineOk (state0 : AudioContextState) (random : nat -> R)
      (s : State) :
  (forall n, 0 <= random n < 1) ->
  engineOk s ->
  engineOk (snd (handleFileSelect state0 random s)).
Proof.
  intros Hrandom Hok.
  assert (Hok0 : engineOk (set_audioCurrentTime 0 (set_audioPaused true s)))
    by (revert Hok; apply engineOk_frame; reflexivity).
  rewrite handleFileSelect_run.
  destruct (audioContext s); [exact Hok0|].
  apply initAudioContext_engineOk; assumption.
Qed.

End EngineMore.

Section EngineTheorems.

Lemma play_visualize (now : R) (sample : list Z) (s : State) :
  play now sample s = visualize now sample (started s).
Proof.
  unfold play, started, bind, get, modify.
  destruct (audioContext s) as [[|]|]; reflexivity.
Qed.

Lemma started_engineOk (s : State) : engineOk s -> engineOk (started s).
Proof.
  unfold started. destruct (audioContext s) as [[|]|];
    apply engineOk_frame; reflexivity.
Qed.

Lemma callbacks_engineOk (now : R) (sample : list Z) (l : list nat) (s : State) :
  Forall isByte sample -> engineOk s ->
  engineOk (fold_left (fun s0 (_ : nat) => runCallback now sample s0) l s).
Proof.
  intros Hsample. revert s. induction l as [|h l IH]; intros s Hok; [exact Hok|].
  cbn. apply IH. unfold runCallback. apply visualize_engineOk; assumption.
Qed.

Lemma fire_engineOk (e : Event) (s : State) :
  eventOk e -> engineOk s -> engineOk (fire e s).
Proof.
  intros He Hok. destruct e as [state0 random|now sample| | | |value|now sample];
    cbn [fire eventOk] in *.
  - apply handleFileSelect_engineOk; assumption.
  - rewrite play_visualize. apply visualize_engineOk; [|exact He].
    apply started_engineOk. exact Hok.
  - revert Hok. apply engineOk_frame; reflexivity.
  - rewrite stop_run. cbn [snd]. revert Hok. apply engineOk_frame; reflexivity.
  - rewrite stop_run. cbn [snd]. revert Hok. apply engineOk_frame; reflexivity.
  - revert Hok. apply engineOk_frame; reflexivity.
  - unfold animationFrame. apply callbacks_engineOk; [exact He|].
    revert Hok. apply engineOk_frame; reflexivity.
Qed.

Lemma construct_engineOk (canvasWidth canvasHeight devicePixelRatio : R) :
  0 <= canvasWidth -> 0 <= canvasHeight -> 0 <= devicePixelRatio ->
  engineOk (construct canvasWidth canvasHeight devicePixelRatio).
Proof.
  intros Hw Hh Hd. unfold engineOk, construct. cbn.
  split; [exact Hw|]. split; [exact Hh|]. split; [exact Hd|].
  split; [reflexivity|]. split; [constructor|]. split; [constructor|].
  split; [constructor|].
  intros Hnone. exfalso. apply Hnone. reflexivity.
Qed.

(** X12: on a canvas of non-negative size and pixel ratio, after any
    sequence of events (file selections, clicks on play, pause and stop,
    the end of the track, mode changes and display frames) whose random
    numbers lie in [0, 1) and whose spectra are bytes, the engine holds a
    spectrum array of [bufferLength] bytes and a field of particles of
    non-negative radius within the surface; once a file has been selected
    there are 128 bins and 100 particles. *)
Theorem engine_invariant (canvasWidth canvasHeight devicePixelRatio : R)
        (es : list Event) :
  0 <= canvasWidth -> 0 <= canvasHeight -> 0 <= devicePixelRatio ->
  Forall eventOk es ->
  engineOk (fireAll es (construct canvasWidth canvasHeight devicePixelRatio)).
Proof.
  intros Hw Hh Hd Hes.
  pose proof (construct_engineOk _ _ _ Hw Hh Hd) as Hok.
  revert Hok. generalize (construct canvasWidth canvasHeight devicePixelRatio).
  unfold fireAll. induction Hes as [|e es He Hes IH]; intros s Hok; [exact Hok|].
  cbn. apply IH. apply fire_engineOk; assumption.
Qed.

Lemma onContext_outcome {A} (m : M Ctx A) (s : State) :
  fst (onContext m s) = fst (m (ctx s)).
Proof.
  unfold onContext, zoom. destruct (m (ctx s)). reflexivity.
Qed.

Lemma visualize_returns (now : R) (sample : list Z) (s : State) :
  engineOk s -> analyser s <> None -> Forall isByte sample ->
  fst (visualize now sample s) = Normal tt.
Proof.
  intros Hok Han Hsample.
  destruct (isPlaying s) eqn:Hplay.
  2:{ rewrite visualize_not_playing by exact Hplay. reflexivity. }
  destruct (analyser s) as [n|] eqn:Hn; [|congruence].
  rewrite (visualize_dispatch now sample s n Hplay Hn).
  set (s2 := set_dataArray _ _).
  destruct Hok as (Hcw & Hch & Hd & Hlen & Hbytes & Hfield & Hin & Hinit).
  destruct (logical_nonneg s Hcw Hch Hd) as [Hw Hh].
  destruct Hinit as [H128 H100]; [rewrite Hn; discriminate|].
  assert (Hlen2 : List.length (overwrite sample (dataArray s)) = bufferLength s)
    by (rewrite overwrite_length; exact Hlen).
  destruct (String.eqb (mode s) "bars");
    [|destruct (String.eqb (mode s) "circle");
      [|destruct (String.eqb (mode s) "wave");
        [|destruct (String.eqb (mode s) "particles")]]].
  - unfold drawBars_, bind, get. cbv beta iota. rewrite onContext_outcome.
    apply drawBars_emitted. exact Hlen2.
  - unfold drawCircle_, bind, get. cbv beta iota. rewrite onContext_outcome.
    apply drawCircle_emitted; assumption.
  - unfold drawWave_, bind, get. cbv beta iota. rewrite onContext_outcome.
    apply drawWave_emitted. exact Hlen2.
  - unfold drawParticles_, bind, get, onField, zoom. cbv beta iota.
    change (logicalWidth s2) with (logicalWidth s).
    change (logicalHeight s2) with (logicalHeight s).
    change (bufferLength s2) with (bufferLength s).
    change (dataArray s2) with (overwrite sample (dataArray s)).
    change (particles s2) with (particles s).
    assert (Hspec : spectrumOk (bufferLength s) (overwrite sample (dataArray s))).
    { split; [exact Hlen2|]. split.
      - intros E. rewrite E in Hlen2. cbn in Hlen2. lia.
      - apply overwrite_bytes; assumption. }
    destruct (drawParticles_run now (logicalWidth s) (logicalHeight s) (bufferLength s)
                (overwrite sample (dataArray s)) (particles s) (ctx s2) Hspec Hfield)
      as (c' & ->).
    reflexivity.
  - reflexivity.
Qed.

(** X13: on a well-formed engine whose audio graph exists, with a
    spectrum of bytes, a tick returns without raising in every mode, known
    or not, and so does [play]. *)
Theorem tick_returns (now : R) (sample : list Z) (s : State) :
  engineOk s -> analyser s <> None -> Forall isByte sample ->
  fst (visualize now sample s) = Normal tt
  /\ fst (play now sample s) = Normal tt.
Proof.
  intros Hok Han Hsample. split.
  - apply visualize_returns; assumption.
  - rewrite play_visualize. apply visualize_returns.
    + apply started_engineOk. exact Hok.
    + unfold started. destruct (audioContext s) as [[|]|]; exact Han.
    + exact Hsample.
Qed.

End EngineTheorems.

Section EngineLoops.

Lemma callbacks_no_analyser (now : R) (sample : list Z) (l : list nat) (s : State) :
  isPlaying s = true -> analyser s = None ->
  isPlaying (fold_left (fun s0 (_ : nat) => runCallback now sample s0) l s) = true
  /\ analyser (fold_left (fun s0 (_ : nat) => runCallback now sample s0) l s) = None
  /\ ctx (fold_left (fun s0 (_ : nat) => runCallback now sample s0) l s) = ctx s
  /\ particles (fold_left (fun s0 (_ : nat) => runCallback now sample s0) l s)
     = particles s.
Proof.
  revert s. induction l as [|h l IH]; intros s Hplay Han; cbn [fold_left].
  - repeat split; assumption.
  - assert (E : runCallback now sample s
                = set_animationId (Some (nextHandle s))
                    (set_nextHandle (S (nextHandle s))
                       (set_pendingFrames (pendingFrames s ++ [nextHandle s]) s))).
    { unfold runCallback. rewrite (visualize_no_analyser now sample s Hplay Han).
      reflexivity. }
    rewrite E.
    match goal with |- context [fold_left _ l ?s1] =>
      destruct (IH s1) as (H1 & H2 & H3 & H4); [exact Hplay|exact Han|] end.
    repeat split; assumption.
Qed.

Lemma frames_no_analyser (inputs : list (R * list Z)) (s : State) :
  isPlaying s = true -> analyser s = None ->
  isPlaying (frames inputs s) = true /\ analyser (frames inputs s) = None
  /\ ctx (frames inputs s) = ctx s /\ particles (frames inputs s) = particles s.
Proof.
  revert s. induction inputs as [|i inputs IH]; intros s Hplay Han;
    cbn [frames fold_left].
  - repeat split; assumption.
  - assert (Hf : isPlaying (animationFrame (fst i) (snd i) s) = true
                 /\ analyser (animationFrame (fst i) (snd i) s) = None
                 /\ ctx (animationFrame (fst i) (snd i) s) = ctx s
                 /\ particles (animationFrame (fst i) (snd i) s) = particles s).
    { unfold animationFrame.
      exact (callbacks_no_analyser (fst i) (snd i) (pendingFrames s)
               (set_pendingFrames [] s) Hplay Han). }
    destruct Hf as (H1 & H2 & H3 & H4).
    destruct (IH (animationFrame (fst i) (snd i) s) H1 H2) as (I1 & I2 & I3 & I4).
    unfold frames in *. repeat split; congruence.
Qed.

(** X14: [play] on an engine without an audio graph (no file selected
    yet) raises TypeError at the analyser, after the engine has been set
    playing and the next frame requested: nothing is painted and the
    particles are untouched, and so it stays over every run of frames
    that follows: a tick from the state such a run leaves raises TypeError
    again, and so does each callback of the next frame, however many of
    its callbacks have run before. *)
Theorem play_without_file (now : R) (sample : list Z) (s : State) :
  analyser s = None ->
  let s' := snd (play now sample s) in
  fst (play now sample s) = Throw TypeError
  /\ isPlaying s' = true
  /\ pendingFrames s' = pendingFrames s ++ [nextHandle s]
  /\ ctx s' = ctx s /\ particles s' = particles s
  /\ forall inputs now' sample',
       fst (visualize now' sample' (frames inputs s')) = Throw TypeError
       /\ isPlaying (frames inputs s') = true
       /\ pendingFrames (frames inputs s') <> []
       /\ ctx (frames inputs s') = ctx s
       /\ particles (frames inputs s') = particles s
       /\ forall ran : list nat,
            fst (visualize now' sample'
                   (fold_left (fun t (_ : nat) => runCallback now' sample' t) ran
                              (set_pendingFrames [] (frames inputs s'))))
            = Throw TypeError.
Proof.
  intros Han s'. subst s'. rewrite play_visualize.
  assert (Hplay : isPlaying (started s) = true) by reflexivity.
  assert (Han' : analyser (started s) = None).
  { unfold started. destruct (audioContext s) as [[|]|]; exact Han. }
  rewrite (visualize_no_analyser now sample (started s) Hplay Han'). cbn [fst snd].
  set (s1 := set_animationId _ _).
  assert (Hctx : ctx s1 = ctx s)
    by (unfold s1, started; destruct (audioContext s) as [[|]|]; reflexivity).
  assert (Hps : particles s1 = particles s)
    by (unfold s1, started; destruct (audioContext s) as [[|]|]; reflexivity).
  split; [reflexivity|]. split; [reflexivity|].
  split; [unfold s1, started; destruct (audioContext s) as [[|]|]; reflexivity|].
  split; [exact Hctx|]. split; [exact Hps|].
  intros inputs now' sample'.
  destruct (frames_no_analyser inputs s1) as (H1 & H2 & H3 & H4);
    [reflexivity|exact Han'|].
  split; [rewrite visualize_no_analyser by assumption; reflexivity|].
  split; [exact H1|]. split.
  - apply frames_alive; [reflexivity|].
    unfold s1. cbn [pendingFrames set_animationId set_nextHandle set_pendingFrames].
    intros E. apply app_eq_nil in E. destruct E as [_ E]. discriminate E.
  - split; [congruence|]. split; [congruence|].
    intros ran.
    destruct (callbacks_no_analyser now' sample' ran
                (set_pendingFrames [] (frames inputs s1)) H1 H2) as (R1 & R2 & _).
    rewrite visualize_no_analyser by assumption. reflexivity.
Qed.

Lemma callbacks_count (now : R) (sample : list Z) (l : list nat) (s : State) :
  isPlaying s = true ->
  let s' := fold_left (fun s0 (_ : nat) => runCallback now sample s0) l s in
  isPlaying s' = true
  /\ List.length (pendingFrames s') = (List.length (pendingFrames s) + List.length l)%nat
  /\ nextHandle s' = (nextHandle s + List.length l)%nat.
Proof.
  revert s. induction l as [|h l IH]; intros s Hplay; cbn.
  - split; [exact Hplay|]. split; lia.
  - destruct (visualize_playing now sample s Hplay) as (Hp & Hq & _ & Hn).
    destruct (IH (runCallback now sample s) Hp) as (IH1 & IH2 & IH3).
    split; [exact IH1|]. unfold runCallback in IH2, IH3 |- *.
    rewrite IH2, IH3, Hq, Hn, length_app. cbn. split; lia.
Qed.

Lemma animationFrame_count (now : R) (sample : list Z) (s : State) :
  isPlaying s = true ->
  isPlaying (animationFrame now sample s) = true
  /\ List.length (pendingFrames (animationFrame now sample s))
     = List.length (pendingFrames s)
  /\ nextHandle (animationFrame now sample s)
     = (nextHandle s + List.length (pendingFrames s))%nat.
Proof.
  intros Hplay. unfold animationFrame.
  destruct (callbacks_count now sample (pendingFrames s) (set_pendingFrames [] s) Hplay)
    as (H1 & H2 & H3).
  split; [exact H1|]. split; [exact H2|exact H3].
Qed.

Lemma frames_count (inputs : list (R * list Z)) (s : State) :
  isPlaying s = true ->
  isPlaying (frames inputs s) = true
  /\ List.length (pendingFrames (frames inputs s)) = List.length (pendingFrames s)
  /\ nextHandle (frames inputs s)
     = (nextHandle s + List.length inputs * List.length (pendingFrames s))%nat.
Proof.
  revert s. induction inputs as [|i inputs IH]; intros s Hplay; cbn [frames fold_left].
  - split; [exact Hplay|]. split; [reflexivity|]. cbn. lia.
  - destruct (animationFrame_count (fst i) (snd i) s Hplay) as (H1 & H2 & H3).
    destruct (IH (animationFrame (fst i) (snd i) s) H1) as (IH1 & IH2 & IH3).
    unfold frames in *. split; [exact IH1|]. split; [congruence|].
    rewrite IH3, H2, H3. cbn [List.length]. lia.
Qed.

(** X15: [play] does not check whether the engine is playing: each call
    leaves one more callback pending, and while the engine plays every
    frame runs one tick per pending callback and leaves as many pending.
    After [play], a run of [k] frames has run [k] times as many ticks as
    callbacks were pending. *)
Theorem play_adds_a_loop (now : R) (sample : list Z) (s : State)
        (inputs : list (R * list Z)) :
  let s1 := snd (play now sample s) in
  isPlaying s1 = true
  /\ pendingFrames s1 = pendingFrames s ++ [nextHandle s]
  /\ List.length (pendingFrames (frames inputs s1)) = S (List.length (pendingFrames s))
  /\ nextHandle (frames inputs s1)
     = (nextHandle s1 + List.length inputs * S (List.length (pendingFrames s)))%nat.
Proof.
  intros s1. subst s1. rewrite play_visualize.
  assert (Hplay : isPlaying (started s) = true) by reflexivity.
  destruct (visualize_playing now sample (started s) Hplay) as (Hp & Hq & _ & Hn).
  assert (Hpend : pendingFrames (started s) = pendingFrames s).
  { unfold started. destruct (audioContext s) as [[|]|]; reflexivity. }
  assert (Hnext : nextHandle (started s) = nextHandle s).
  { unfold started. destruct (audioContext s) as [[|]|]; reflexivity. }
  destruct (frames_count inputs (snd (visualize now sample (started s))) Hp)
    as (_ & Hlen & Hticks).
  split; [exact Hp|]. split; [rewrite Hq, Hnext, Hpend; reflexivity|].
  rewrite Hlen, Hticks, Hq, length_app, Hpend. cbn [List.length].
  split; [lia|]. f_equal. f_equal. lia.
Qed.

Lemma frames_not_playing (inputs : list (R * list Z)) (s : State) :
  isPlaying s = false ->
  frames inputs s = match inputs with
                    | [] => s
                    | _ :: _ => set_pendingFrames [] s
                    end.
Proof.
  intros Hstop. destruct inputs as [|i inputs]; [reflexivity|].
  cbn [frames fold_left]. rewrite animationFrame_stopped by exact Hstop.
  assert (H : forall l s0, isPlaying s0 = false -> pendingFrames s0 = [] ->
                           fold_left (fun s1 i0 => animationFrame (fst i0) (snd i0) s1) l s0
                           = s0).
  { induction l as [|j l IH]; intros s0 H0 Hp; [reflexivity|].
    cbn. rewrite animationFrame_stopped by exact H0.
    assert (E : set_pendingFrames [] s0 = s0).
    { destruct s0. cbn in Hp. subst. reflexivity. }
    rewrite E. apply IH; assumption. }
  apply H; [exact Hstop|reflexivity].
Qed.

(** X16: [pause] stops the loop without cancelling or clearing: the call
    returns and paints nothing, and over the frames that follow the
    pending callbacks find the engine paused and do nothing, so that the
    picture and the particles stay as they were and, from the first frame
    on, no callback is pending. *)
Theorem pause_freezes (s : State) (inputs : list (R * list Z)) :
  let s1 := snd (pause s) in
  fst (pause s) = Normal tt
  /\ isPlaying s1 = false
  /\ pendingFrames s1 = pendingFrames s
  /\ ctx (frames inputs s1) = ctx s
  /\ particles (frames inputs s1) = particles s
  /\ isPlaying (frames inputs s1) = false
  /\ (inputs <> [] -> pendingFrames (frames inputs s1) = []).
Proof.
  intros s1. subst s1. unfold pause. run.
  split; [reflexivity|]. split; [reflexivity|]. split; [reflexivity|].
  rewrite frames_not_playing by reflexivity.
  destruct inputs as [|i inputs]; cbn.
  - repeat split. intros H. congruence.
  - repeat split.
Qed.

Lemma onContext_particles {A} (m : M Ctx A) (s : State) :
  particles (snd (onContext m s)) = particles s.
Proof.
  unfold onContext, zoom. destruct (m (ctx s)). reflexivity.
Qed.

(** X17: only the Particles mode moves the field: a tick in any other
    mode, whether it returns or raises and whatever the spectrum, leaves
    the particle array as it was. *)
Theorem visualize_other_modes_keep_particles (now : R) (sample : list Z) (s : State) :
  mode s <> "particles"%string ->
  particles (snd (visualize now sample s)) = particles s.
Proof.
  intros Hmode.
  destruct (isPlaying s) eqn:Hplay.
  2:{ rewrite visualize_not_playing by exact Hplay. reflexivity. }
  destruct (analyser s) as [n|] eqn:Han.
  2:{ rewrite visualize_no_analyser by assumption. reflexivity. }
  rewrite (visualize_dispatch now sample s n Hplay Han).
  set (s2 := set_dataArray _ _).
  assert (Hp : String.eqb (mode s) "particles" = false)
    by (apply String.eqb_neq; exact Hmode).
  rewrite Hp.
  destruct (String.eqb (mode s) "bars");
    [|destruct (String.eqb (mode s) "circle");
      [|destruct (String.eqb (mode s) "wave")]].
  - unfold drawBars_, bind, get. cbv beta iota. rewrite onContext_particles. reflexivity.
  - unfold drawCircle_, bind, get. cbv beta iota. rewrite onContext_particles. reflexivity.
  - unfold drawWave_, bind, get. cbv beta iota. rewrite onContext_particles. reflexivity.
  - reflexivity.
Qed.


End EngineLoops.

(** ** Transport glue *)

Section GlueFacts.

Lemma twoDigits_pad (n : nat) :
  (n < 60)%nat -> padStart 2 "0" (toString (Z.of_nat n)) = twoDigits (Z.of_nat n).
Proof.
  intros Hn.
  do 60 (destruct n as [|n]; [reflexivity|]). lia.
Qed.

Lemma minutes_and_seconds (seconds : R) :
  0 <= seconds ->
  (0 <= Math_floor (seconds / 60))%Z
  /\ (0 <= Math_floor (rem seconds 60) < 60)%Z
  /\ Zfloor seconds
     = (60 * Math_floor (seconds / 60) + Math_floor (rem seconds 60))%Z.
Proof.
  intros Hs. unfold Math_floor, rem, trunc.
  assert (Hq : 0 <= seconds / 60) by lra.
  destruct (Rle_dec 0 (seconds / 60)) as [_|Hn]; [|contradiction].
  set (m := Zfloor (seconds / 60)).
  pose proof (Zfloor_bound (seconds / 60)) as Hb. fold m in Hb.
  assert (Hm : (0 <= m)%Z) by (apply Zfloor_lub; cbn; lra).
  replace (seconds - 60 * IZR m) with (seconds + IZR (- (60 * m)))
    by (rewrite opp_IZR, mult_IZR; ring).
  rewrite Zfloor_addz.
  pose proof (Zfloor_bound seconds) as Hf.
  assert (Hlo : (60 * m <= Zfloor seconds)%Z).
  { apply Zfloor_lub. rewrite mult_IZR. lra. }
  assert (Hhi : (Zfloor seconds < 60 * m + 60)%Z).
  { apply lt_IZR. rewrite plus_IZR, mult_IZR. lra. }
  split; [exact Hm|]. split; lia.
Qed.

(** X19: for a time of [seconds >= 0], [formatTime] prints the whole
    minutes, a colon, and the whole seconds of the last minute on exactly
    two digits: with [floor(seconds) = 60 * m + s] and [0 <= s < 60] the
    text is the decimal digits of [m], [":"], and the two digits of
    [s]. *)
Theorem formatTime_minutes_seconds (seconds : R) :
  0 <= seconds ->
  exists m s : Z,
    (0 <= m)%Z /\ (0 <= s < 60)%Z
    /\ Zfloor seconds = (60 * m + s)%Z
    /\ formatTime seconds = (toString m ++ ":" ++ twoDigits s)%string.
Proof.
  intros Hs. destruct (minutes_and_seconds seconds Hs) as (Hm & Hsec & Hsum).
  exists (Math_floor (seconds / 60)), (Math_floor (rem seconds 60)).
  split; [exact Hm|]. split; [exact Hsec|]. split; [exact Hsum|].
  unfold formatTime. cbv zeta.
  rewrite <- (Z2Nat.id (Math_floor (rem seconds 60))) by lia.
  rewrite twoDigits_pad by lia. reflexivity.
Qed.

(** X20: a click at [clickX] on a progress bar of width
    [offsetWidth > 0], for a track of [duration > 0], moves the current
    time to the same fraction of the duration and touches nothing else;
    the progress that [updateProgress] then shows is that fraction in
    percent, and for a click within the bar the time lies within the
    track and the progress between 0 and 100. *)
Theorem seek_then_progress (clickX offsetWidth duration : R) (s : State) :
  0 < offsetWidth -> 0 < duration ->
  let s' := snd (seek clickX offsetWidth duration s) in
  s' = set_audioCurrentTime (clickX / offsetWidth * duration) s
  /\ fst (updateProgress duration s') = clickX / offsetWidth * 100
  /\ (0 <= clickX <= offsetWidth ->
      0 <= audioCurrentTime s' <= duration
      /\ 0 <= fst (updateProgress duration s') <= 100).
Proof.
  intros Hw Hd s'. subst s'. unfold seek, modify, updateProgress. cbn.
  split; [reflexivity|].
  assert (Hfrac : clickX / offsetWidth * duration / duration * 100
                  = clickX / offsetWidth * 100) by (field; lra).
  split; [exact Hfrac|].
  intros [Hlo Hhi]. rewrite Hfrac.
  assert (Hq : 0 <= clickX / offsetWidth <= 1).
  { split.
    - apply Rmult_le_pos; [exact Hlo|]. left. apply Rinv_0_lt_compat. exact Hw.
    - apply (Rmult_le_reg_r offsetWidth); [exact Hw|].
      unfold Rdiv. rewrite Rmult_assoc, Rinv_l by lra. lra. }
  split; [nra|lra].
Qed.

End GlueFacts.

(** ** A tick draws the spectrum it samples *)

Section TickFacts.

Lemma overwrite_full (sample arr : list Z) :
  List.length sample = List.length arr -> overwrite sample arr = sample.
Proof.
  intros Hlen. unfold overwrite.
  rewrite firstn_all2, skipn_all2 by lia. apply app_nil_r.
Qed.

Lemma onContext_painted {A} (m : M Ctx A) (s : State) :
  painted (ctx (snd (onContext m s))) = painted (snd (m (ctx s))).
Proof.
  unfold onContext, zoom. destruct (m (ctx s)). reflexivity.
Qed.

(** X21: a tick of a playing engine in Bars mode, with a sample of as
    many bins as the spectrum array holds, returns and adds to the
    surface the background and then, for every bin in order, the bar and
    the cap of the value sampled in this tick; what the array held before
    the tick plays no part. *)
Theorem tick_bars_draws_sample (now : R) (sample : list Z) (s : State) (n : nat) :
  isPlaying s = true -> analyser s = Some n ->
  mode s = "bars"%string ->
  List.length (dataArray s) = bufferLength s ->
  List.length sample = bufferLength s ->
  let s' := snd (visualize now sample s) in
  fst (visualize now sample s) = Normal tt
  /\ dataArray s' = sample
  /\ painted (ctx s')
     = painted (ctx s)
       ++ FillRect (Solid (Rgba 0 0 0 0.2)) 0 0 (logicalWidth s) (logicalHeight s)
       :: flat_map (fun i => [barOp (logicalWidth s) (logicalHeight s)
                                    (bufferLength s) sample i;
                              capOp (logicalWidth s) (logicalHeight s)
                                    (bufferLength s) sample i])
                   (seq 0 (bufferLength s)).
Proof.
  intros Hplay Han Hmode Hlen Hsample s'. subst s'.
  rewrite (visualize_dispatch now sample s n Hplay Han), Hmode.
  cbn [String.eqb Ascii.eqb Bool.eqb andb].
  rewrite (overwrite_full sample (dataArray s)) by congruence.
  set (s2 := set_dataArray _ _).
  unfold drawBars_, bind, get. cbv beta iota.
  change (logicalWidth s2) with (logicalWidth s).
  change (logicalHeight s2) with (logicalHeight s).
  change (bufferLength s2) with (bufferLength s).
  change (dataArray s2) with sample.
  destruct (drawBars_painted (logicalWidth s) (logicalHeight s) (bufferLength s)
              sample (ctx s2) Hsample) as (c' & Hrun & Hp).
  rewrite onContext_outcome, onContext_painted, Hrun. cbn [fst snd].
  split; [reflexivity|]. split; [|exact Hp].
  unfold onContext, zoom. rewrite Hrun. reflexivity.
Qed.

(** X22: a tick of a playing, well-formed engine in Particles mode, with
    a sample of 128 bytes, returns and moves every particle of the field
    once, by its speed scaled by the energy factor of the sample: the
    mean of the sampled bytes over 128. *)
Theorem tick_particles_moves_field (now : R) (sample : list Z) (s : State) :
  engineOk s -> analyser s <> None ->
  isPlaying s = true -> mode s = "particles"%string ->
  Forall isByte sample -> List.length sample = 128%nat ->
  fst (visualize now sample s) = Normal tt
  /\ particles (snd (visualize now sample s))
     = map (move (logicalWidth s) (logicalHeight s) (energy 128 sample)) (particles s)
  /\ energy 128 sample = fold_right Rplus 0 (map IZR sample) / 128 / 128.
Proof.
  intros Hok Han Hplay Hmode Hbytes Hlen.
  destruct Hok as (Hcw & Hch & Hd & Hdlen & Hdbytes & Hfield & Hin & Hinit).
  destruct (analyser s) as [n|] eqn:Hn; [|congruence].
  destruct Hinit as [H128 H100]; [discriminate|].
  assert (Hover : overwrite sample (dataArray s) = sample)
    by (apply overwrite_full; congruence).
  assert (Hspec : spectrumOk (bufferLength s) (overwrite sample (dataArray s))).
  { rewrite Hover, H128. split; [exact Hlen|]. split; [|exact Hbytes].
    intros E. rewrite E in Hlen. discriminate. }
  destruct (visualize_particles_tick now sample s n Hplay Hn Hmode Hspec Hfield)
    as [Hret Hps].
  rewrite Hover, H128 in Hps.
  split; [exact Hret|]. split; [exact Hps|].
  unfold energy. destruct sample as [|a rest]; [discriminate|].
  cbn [map fold_right].
  assert (Hsum : forall l x, fold_left Rplus l x = x + fold_right Rplus 0 l).
  { induction l as [|y l IH]; intros x; cbn; [ring|]. rewrite IH. ring. }
  rewrite Hsum, INR_IZR_INZ. change (Z.of_nat 128) with 128%Z. reflexivity.
Qed.

End TickFacts.

(** ** Concrete instances of the further properties *)

Lemma zero_in_unit : forall n : nat, 0 <= (fun _ : nat => 0) n < 1.
Proof. intros n. cbn. lra. Qed.

Lemma loadedEngine_ok : engineOk loadedEngine.
Proof.
  unfold loadedEngine. apply handleFileSelect_engineOk; [exact zero_in_unit|].
  apply construct_engineOk; lra.
Qed.

Lemma loadedEngine_analyser : analyser loadedEngine <> None.
Proof.
  unfold loadedEngine. rewrite handleFileSelect_run.
  cbn [audioContext construct]. rewrite initAudioContext_run. discriminate.
Qed.

Lemma loadedPlaying_ok : engineOk loadedPlaying.
Proof.
  unfold loadedPlaying. generalize loadedEngine_ok.
  apply engineOk_frame; reflexivity.
Qed.

Lemma bytes_repeat (d : Z) (n : nat) : isByte d -> Forall isByte (repeat d n).
Proof.
  intros Hd. apply Forall_forall. intros x Hx. apply repeat_spec in Hx. subst x. exact Hd.
Qed.

(** X1 at a spectrum of two bins. *)
Lemma drawWave_three_polylines_witness :
  List.length (strokes (emitted (drawWave 0 800 400 2 [255%Z; 0%Z]) fresh)) = 3%nat.
Proof.
  assert (Hlen : List.length [255%Z; 0%Z] = 2%nat) by reflexivity.
  assert (Hl : (1 < 3)%nat) by lia.
  assert (Hi : (1 < 2)%nat) by lia.
  exact (proj1 (proj2 (drawWave_three_polylines 0 800 400 2 [255%Z; 0%Z] fresh 1 1
                         Hlen Hl Hi))).
Defined.

(** X2 at a silent spectrum of two bins. *)
Lemma drawWave_silent_flat_witness :
  cmdY (nth 1 (pathOf (nth 2 (strokes (emitted (drawWave 0 800 400 2 [0%Z; 0%Z]) fresh))
                           noOp)) noCmd)
  = 400 / 2 - INR 2 * 30.
Proof.
  assert (Hlen : List.length [0%Z; 0%Z] = 2%nat) by reflexivity.
  assert (Hzero : Forall (fun d => d = 0%Z) [0%Z; 0%Z]) by (repeat constructor).
  assert (Hl : (2 < 3)%nat) by lia.
  assert (Hi : (1 < 2)%nat) by lia.
  exact (drawWave_silent_flat 0 800 400 2 [0%Z; 0%Z] fresh 2 1 Hlen Hzero Hl Hi).
Defined.

(** X3 at a spectrum of two bins. *)
Lemma drawCircle_spoke_lengths_witness :
  distance (fst (nth 0 (segments (emitted (drawCircle 800 400 2 [255%Z; 0%Z]) fresh))
                     noSegment))
           (snd (nth 0 (segments (emitted (drawCircle 800 400 2 [255%Z; 0%Z]) fresh))
                     noSegment))
  = IZR (nth 0 [255%Z; 0%Z] 0%Z) / 255 * 100.
Proof.
  assert (Hlen : List.length [255%Z; 0%Z] = 2%nat) by reflexivity.
  assert (Hbytes : Forall isByte [255%Z; 0%Z]) by (repeat constructor; unfold isByte; lia).
  assert (Hw : 0 <= 800) by lra.
  assert (Hh : 0 <= 400) by lra.
  assert (Hi : (0 < 2)%nat) by lia.
  exact (proj1 (proj2 (proj2 (proj2
           (drawCircle_spoke_lengths 800 400 2 [255%Z; 0%Z] fresh 0
              Hlen Hbytes Hw Hh Hi))))).
Defined.

(** X4 at a spectrum of two bins. *)
Lemma drawBars_bar_heights_witness :
  rectBottom (nth 0 (barFills (emitted (drawBars 800 400 2 [255%Z; 0%Z]) fresh)) noOp)
  = 400.
Proof.
  assert (Hlen : List.length [255%Z; 0%Z] = 2%nat) by reflexivity.
  assert (Hbytes : Forall isByte [255%Z; 0%Z]) by (repeat constructor; unfold isByte; lia).
  assert (Hh : 0 <= 400) by lra.
  assert (Hi : (0 < 2)%nat) by lia.
  exact (proj1 (drawBars_bar_heights 800 400 2 [255%Z; 0%Z] fresh 0 Hlen Hbytes Hh Hi)).
Defined.

(** X5 at a spectrum of two bins: the second bar starts beyond the
    surface. *)
Lemma drawBars_overflow_witness :
  800 <= rectX (nth 1 (barFills (emitted (drawBars 800 400 2 [255%Z; 0%Z]) fresh)) noOp).
Proof.
  assert (Hlen : List.length [255%Z; 0%Z] = 2%nat) by reflexivity.
  assert (Hw : 0 <= 800) by lra.
  assert (Hi : (1 < 2)%nat) by lia.
  assert (Hfar : INR 2 <= 2.5 * INR 1) by (cbn; lra).
  exact (drawBars_overflow 800 400 2 [255%Z; 0%Z] fresh 1 Hlen Hw Hi Hfar).
Defined.

(** X8 at one particle. *)
Lemma drawParticles_silent_freezes_witness :
  fst (snd (drawParticles 0 800 400 1 [0%Z] ([edgeParticle], fresh))) = [edgeParticle].
Proof.
  assert (Hzero : Forall (fun d => d = 0%Z) [0%Z]) by (repeat constructor).
  assert (Hin : Forall (inBounds 800 400) [edgeParticle]).
  { constructor; [|constructor]. unfold inBounds, edgeParticle. cbn. lra. }
  exact (drawParticles_silent_freezes 0 800 400 1 [0%Z] [edgeParticle] fresh
           spectrumOk_silent Hzero Hin).
Defined.

(** X9 at two particles. *)
Lemma drawParticles_silent_no_links_witness :
  strokes (emittedField (drawParticles 0 800 400 1 [0%Z])
                        ([edgeParticle; edgeParticle], fresh)) = [].
Proof.
  assert (Hzero : Forall (fun d => d = 0%Z) [0%Z]) by (repeat constructor).
  exact (drawParticles_silent_no_links 0 800 400 1 [0%Z]
           ([edgeParticle; edgeParticle], fresh) Hzero).
Defined.

(** X10 at one particle and a loud spectrum. *)
Lemma drawParticles_one_disc_each_witness :
  List.length (fills (emittedField (drawParticles 0 800 400 1 [255%Z])
                                   ([edgeParticle], fresh))) = 1%nat.
Proof.
  assert (Hi : nth_error [edgeParticle] 0 = Some edgeParticle) by reflexivity.
  exact (proj1 (drawParticles_one_disc_each 0 800 400 1 [255%Z] [edgeParticle] fresh
                  0 edgeParticle spectrumOk_loud fieldOk_edge Hi)).
Defined.

(** X11 at the constructed engine. *)
Lemma initParticles_fresh_field_witness :
  List.length (particles (snd (initParticles (fun _ => 0) (construct 800 400 1))))
  = 100%nat.
Proof.
  assert (Hw : 0 <= canvasWidth (construct 800 400 1)) by (cbn; lra).
  assert (Hh : 0 <= canvasHeight (construct 800 400 1)) by (cbn; lra).
  assert (Hd : 0 <= devicePixelRatio (construct 800 400 1)) by (cbn; lra).
  exact (proj1 (proj2 (initParticles_fresh_field (fun _ => 0) (construct 800 400 1)
                         zero_in_unit Hw Hh Hd))).
Defined.

(** X12 at a session: a file, play, a frame, Particles mode, a frame,
    stop. *)
Lemma engine_invariant_witness :
  engineOk (fireAll [FileSelected Running (fun _ => 0); PlayClicked 0 [];
                     Frame 16 []; ModeChanged "particles"; Frame 32 [];
                     StopClicked]
                    (construct 800 400 1)).
Proof.
  assert (Hw : 0 <= 800) by lra.
  assert (Hh : 0 <= 400) by lra.
  assert (Hd : 0 <= 1) by lra.
  assert (Hes : Forall eventOk [FileSelected Running (fun _ => 0); PlayClicked 0 [];
                                Frame 16 []; ModeChanged "particles"; Frame 32 [];
                                StopClicked]).
  { constructor; [exact zero_in_unit|]. repeat constructor. }
  exact (engine_invariant 800 400 1 _ Hw Hh Hd Hes).
Defined.

(** X13 at the loaded engine. *)
Lemma tick_returns_witness :
  fst (visualize 0 [] loadedEngine) = Normal tt
  /\ fst (play 0 [] loadedEngine) = Normal tt.
Proof.
  assert (Hsample : Forall isByte []) by constructor.
  exact (tick_returns 0 [] loadedEngine loadedEngine_ok loadedEngine_analyser Hsample).
Defined.

(** X14 at the constructed engine. *)
Lemma play_without_file_witness :
  fst (play 0 [] (construct 800 400 1)) = Throw TypeError.
Proof.
  assert (Han : analyser (construct 800 400 1) = None) by reflexivity.
  exact (proj1 (play_without_file 0 [] (construct 800 400 1) Han)).
Defined.

(** X17 at an engine playing in Bars mode. *)
Lemma visualize_other_modes_keep_particles_witness :
  particles (snd (visualize 0 [] (playing "bars" [0%Z] [edgeParticle]))) = [edgeParticle].
Proof.
  assert (Hmode : mode (playing "bars" [0%Z] [edgeParticle]) <> "particles"%string)
    by discriminate.
  exact (visualize_other_modes_keep_particles 0 [] (playing "bars" [0%Z] [edgeParticle])
           Hmode).
Defined.

(** X19 at 125 seconds. *)
Lemma formatTime_minutes_seconds_witness :
  exists m s : Z,
    (0 <= m)%Z /\ (0 <= s < 60)%Z
    /\ Zfloor 125 = (60 * m + s)%Z
    /\ formatTime 125 = (toString m ++ ":" ++ twoDigits s)%string.
Proof.
  assert (Hs : 0 <= 125) by lra.
  exact (formatTime_minutes_seconds 125 Hs).
Defined.

(** X20 at a click in the middle of the bar. *)
Lemma seek_then_progress_witness :
  fst (updateProgress 180 (snd (seek 150 300 180 (construct 800 400 1))))
  = 150 / 300 * 100.
Proof.
  assert (Hw : 0 < 300) by lra.
  assert (Hd : 0 < 180) by lra.
  exact (proj1 (proj2 (seek_then_progress 150 300 180 (construct 800 400 1) Hw Hd))).
Defined.

(** X21 at an engine playing in Bars mode over two bins. *)
Lemma tick_bars_draws_sample_witness :
  dataArray (snd (visualize 0 [255%Z; 7%Z] (playing "bars" [0%Z; 0%Z] []))) = [255%Z; 7%Z].
Proof.
  assert (Hplay : isPlaying (playing "bars" [0%Z; 0%Z] []) = true) by reflexivity.
  assert (Han : analyser (playing "bars" [0%Z; 0%Z] []) = Some 2%nat) by reflexivity.
  assert (Hmode : mode (playing "bars" [0%Z; 0%Z] []) = "bars"%string) by reflexivity.
  assert (Hlen : List.length (dataArray (playing "bars" [0%Z; 0%Z] []))
                 = bufferLength (playing "bars" [0%Z; 0%Z] [])) by reflexivity.
  assert (Hsample : List.length [255%Z; 7%Z]
                    = bufferLength (playing "bars" [0%Z; 0%Z] [])) by reflexivity.
  exact (proj1 (proj2 (tick_bars_draws_sample 0 [255%Z; 7%Z]
                         (playing "bars" [0%Z; 0%Z] []) 2
                         Hplay Han Hmode Hlen Hsample))).
Defined.

(** X22 at the loaded engine playing in Particles mode, on a spectrum at
    full scale. *)
Lemma tick_particles_moves_field_witness :
  fst (visualize 0 (repeat 255%Z 128) loadedPlaying) = Normal tt.
Proof.
  assert (Han : analyser loadedPlaying <> None) by exact loadedEngine_analyser.
  assert (Hplay : isPlaying loadedPlaying = true) by reflexivity.
  assert (Hmode : mode loadedPlaying = "particles"%string) by reflexivity.
  assert (Hbytes : Forall isByte (repeat 255%Z 128))
    by (apply bytes_repeat; unfold isByte; lia).
  assert (Hlen : List.length (repeat 255%Z 128) = 128%nat) by apply repeat_length.
  exact (proj1 (tick_particles_moves_field 0 (repeat 255%Z 128) loadedPlaying
                  loadedPlaying_ok Han Hplay Hmode Hbytes Hlen)).
Defined.

(** Two particles at the same place, the first with its bin at 255: the
    threshold is 100, the distance 0, and the callback of the first strokes
    the link to the second. *)
Lemma drawParticles_body_loud_bin_links :
  List.length
    (strokes (emittedField (drawParticles_body 0 800 400 1 [255%Z] 0 0 tt)
                           ([edgeParticle; edgeParticle], fresh))) = 1%nat.
Proof.
  assert (Hin : inBounds 800 400 edgeParticle).
  { unfold inBounds, edgeParticle. cbn. lra. }
  unfold emittedField, drawParticles_body.
  unfold bind at 1, get at 1. cbn [fst nth_error].
  unfold bind at 1, setParticle, modify. cbn [fst snd List.length set_nth].
  rewrite dataIndex_first_of_two. cbn [typed_get Z.ltb Z.compare Z.to_nat nth_error].
  rewrite (move_zero_inBounds 800 400 edgeParticle Hin).
  unfold bind at 1, onCtx at 1, zoom at 1, createRadialGradient.
  cbn [snd fst].
  rewrite (numlt_false 0 0) by lra.
  rewrite (numlt_false (Particle.radius edgeParticle * (1 + 255 / 255 * 2)) 0)
    by (cbn; lra).
  cbn [orb ret fst snd].
  unfold bind at 1, onCtx at 1, zoom at 1, arc.
  rewrite (numlt_false (Particle.radius edgeParticle * (1 + 255 / 255 * 2)) 0)
    by (cbn; lra).
  cbn [Nat.sub Nat.add for_range].
  unfold link.
  run.
  replace (Math_sqrt ((800 - 800) * (800 - 800) + (200 - 200) * (200 - 200)))
    with 0.
  2:{ unfold Math_sqrt.
      replace ((800 - 800) * (800 - 800) + (200 - 200) * (200 - 200))
        with 0 by ring.
      symmetry. apply sqrt_0. }
  rewrite (numlt_true 0 (100 * (255 / 255))) by lra.
  reflexivity.
Qed.


(** ** A tick samples, draws and keeps the loop alive *)

Section PaintedForms.

Variables (now width height : R) (bufferLength : nat) (dataArray : list Z).

(** What [drawCircle] leaves on the surface. *)
Lemma drawCircle_painted (c : Ctx) :
  List.length dataArray = bufferLength ->
  0 <= width -> 0 <= height ->
  exists c',
    drawCircle width height bufferLength dataArray c = (Normal tt, c')
    /\ painted c'
       = painted c
         ++ FillRect (Solid (Rgba 0 0 0 0.1)) 0 0 width height
         :: map (spokeOp width height bufferLength dataArray) (seq 0 bufferLength)
         ++ [baseCircleOp width height].
Proof.
  intros Hlen Hw Hh. unfold drawCircle. run.
  match goal with |- context [for_range _ 0 _ tt ?c1] =>
    destruct (drawCircle_loop width height bufferLength dataArray bufferLength 0 c1)
      as (c1' & Hrun & Hp) end.
  { lia. }
  rewrite Hrun. unfold arc.
  rewrite (numlt_false _ _ (radius_nonneg width height Hw Hh)). run.
  eexists. split; [reflexivity|]. cbn. rewrite Hp. cbn.
  rewrite <- !app_assoc. reflexivity.
Qed.

(** What [drawWave] leaves on the surface. *)
Lemma drawWave_painted (c : Ctx) :
  List.length dataArray = bufferLength ->
  exists c',
    drawWave now width height bufferLength dataArray c = (Normal tt, c')
    /\ painted c'
       = painted c
         ++ FillRect (Solid (Rgba 0 0 0 0.2)) 0 0 width height
         :: map (waveOp now width height bufferLength dataArray) [0; 1; 2]%nat.
Proof.
  intros Hlen.
  unfold drawWave. unfold bind at 1. unfold setFillStyle, modify at 1.
  unfold bind at 1. unfold fillRect, modify at 1. cbv beta iota.
  set (c0 := paint _ _).
  cbn [for_range]. unfold bind at 1.
  destruct (drawWave_layer_run now width height bufferLength dataArray 0 c0 Hlen)
    as (c1 & -> & Hp1 & _).
  unfold bind at 1.
  destruct (drawWave_layer_run now width height bufferLength dataArray 1 c1 Hlen)
    as (c2 & -> & Hp2 & _).
  unfold bind at 1.
  destruct (drawWave_layer_run now width height bufferLength dataArray 2 c2 Hlen)
    as (c3 & -> & Hp3 & _).
  exists c3. split; [reflexivity|].
  rewrite Hp3, Hp2, Hp1. unfold c0. cbn. rewrite <- !app_assoc. reflexivity.
Qed.

(** What [drawParticles] leaves in the field and on the surface: every
    particle moved once, the background, and one disc per particle among
    the links. *)
Lemma drawParticles_paints (ps : list Particle.t) (c : Ctx) :
  spectrumOk bufferLength dataArray ->
  fieldOk ps ->
  exists c' rest,
    drawParticles now width height bufferLength dataArray (ps, c)
    = (Normal tt, (map (move width height (energy bufferLength dataArray)) ps, c'))
    /\ painted c'
       = painted c ++ FillRect (Solid (Rgba 0 0 0 0.1)) 0 0 width height :: rest
    /\ fills rest
       = map (fun ip => discOp now
                          (move width height (energy bufferLength dataArray) (snd ip))
                          (binOf bufferLength dataArray (fst ip) (List.length ps)))
             (combine (seq 0 (List.length ps)) ps).
Proof.
  intros Hok Hfield. pose proof Hok as (Hlen & Hne & Hbytes).
  unfold drawParticles. unfold bind at 1, onCtx at 1, zoom at 1. run.
  unfold energy. destruct (map IZR dataArray) as [|a rest0] eqn:Hmap.
  { destruct dataArray; [congruence|discriminate]. }
  run.
  match goal with |- context [for_range _ 0 ?f tt (ps, ?c1)] =>
    destruct (drawParticles_loop_paints now width height bufferLength dataArray
                (fold_left Rplus rest0 a / INR bufferLength / 128)
                ps [] c1 Hok Hfield) as (c' & ops & Hrun & Hp & Hf) end.
  cbn [app List.length] in Hrun, Hf.
  exists c', ops. split; [exact Hrun|]. split; [|exact Hf].
  rewrite Hp. cbn [painted paint]. rewrite <- app_assoc. reflexivity.
Qed.

End PaintedForms.

Section TickDraws.

(** The dispatch of [visualize] leaves the spectrum array, the analyser
    and the mode alone, and the field too outside Particles mode. *)
Lemma dispatch_keeps (now : R) (s : State) :
  let s' :=
    snd ((if String.eqb (mode s) "bars" then drawBars_
          else if String.eqb (mode s) "circle" then drawCircle_
          else if String.eqb (mode s) "wave" then drawWave_ now
          else if String.eqb (mode s) "particles" then drawParticles_ now
          else ret tt) s) in
  dataArray s' = dataArray s
  /\ analyser s' = analyser s
  /\ mode s' = mode s
  /\ (mode s <> "particles"%string -> particles s' = particles s).
Proof.
  cbv zeta.
  destruct (String.eqb (mode s) "bars") eqn:Eb;
    [|destruct (String.eqb (mode s) "circle") eqn:Ec;
      [|destruct (String.eqb (mode s) "wave") eqn:Ew;
        [|destruct (String.eqb (mode s) "particles") eqn:Ep]]].
  - unfold drawBars_, bind, get, onContext, zoom. cbv beta iota.
    destruct (drawBars _ _ _ _ _) as [r c']. cbn.
    split; [reflexivity|]. split; [reflexivity|]. split; [reflexivity|].
    intros _. reflexivity.
  - unfold drawCircle_, bind, get, onContext, zoom. cbv beta iota.
    destruct (drawCircle _ _ _ _ _) as [r c']. cbn.
    split; [reflexivity|]. split; [reflexivity|]. split; [reflexivity|].
    intros _. reflexivity.
  - unfold drawWave_, bind, get, onContext, zoom. cbv beta iota.
    destruct (drawWave _ _ _ _ _ _) as [r c']. cbn.
    split; [reflexivity|]. split; [reflexivity|]. split; [reflexivity|].
    intros _. reflexivity.
  - unfold drawParticles_, bind, get, onField, zoom. cbv beta iota.
    destruct (drawParticles _ _ _ _ _ _) as [r [ps' c']]. cbn.
    split; [reflexivity|]. split; [reflexivity|]. split; [reflexivity|].
    intros Hmode. apply String.eqb_eq in Ep. contradiction.
  - cbn.
    split; [reflexivity|]. split; [reflexivity|]. split; [reflexivity|].
    intros _. reflexivity.
Qed.

(** A tick of a playing engine with an analyser stores the sample in the
    spectrum array and leaves the analyser and the mode alone, and the
    field too outside Particles mode. *)
Lemma visualize_keeps (now : R) (sample : list Z) (s : State) (n : nat) :
  isPlaying s = true -> analyser s = Some n ->
  dataArray (snd (visualize now sample s)) = overwrite sample (dataArray s)
  /\ analyser (snd (visualize now sample s)) = Some n
  /\ mode (snd (visualize now sample s)) = mode s
  /\ (mode s <> "particles"%string ->
      particles (snd (visualize now sample s)) = particles s).
Proof.
  intros Hplay Han.
  rewrite (visualize_dispatch now sample s n Hplay Han).
  set (s2 := set_dataArray _ _).
  destruct (dispatch_keeps now s2) as (H1 & H2 & H3 & H4).
  split; [exact H1|]. split; [exact (eq_trans H2 Han)|]. split; [exact H3|exact H4].
Qed.

Lemma overwrite_nothing (arr : list Z) : overwrite [] arr = arr.
Proof. unfold overwrite. rewrite firstn_nil. reflexivity. Qed.

(** What a tick paints in Bars mode. *)
Lemma tick_paints_bars (now : R) (sample : list Z) (s : State) (n : nat) :
  isPlaying s = true -> analyser s = Some n ->
  mode s = "bars"%string ->
  List.length (dataArray s) = bufferLength s ->
  painted (ctx (snd (visualize now sample s)))
  = painted (ctx s)
    ++ FillRect (Solid (Rgba 0 0 0 0.2)) 0 0 (logicalWidth s) (logicalHeight s)
    :: flat_map (fun i => [barOp (logicalWidth s) (logicalHeight s) (bufferLength s)
                                 (overwrite sample (dataArray s)) i;
                           capOp (logicalWidth s) (logicalHeight s) (bufferLength s)
                                 (overwrite sample (dataArray s)) i])
                (seq 0 (bufferLength s)).
Proof.
  intros Hplay Han Hmode Hlen.
  rewrite (visualize_dispatch now sample s n Hplay Han), Hmode.
  cbn [String.eqb Ascii.eqb Bool.eqb andb].
  set (s2 := set_dataArray _ _).
  unfold drawBars_, bind, get. cbv beta iota.
  change (logicalWidth s2) with (logicalWidth s).
  change (logicalHeight s2) with (logicalHeight s).
  change (bufferLength s2) with (bufferLength s).
  change (dataArray s2) with (overwrite sample (dataArray s)).
  assert (Hlen2 : List.length (overwrite sample (dataArray s)) = bufferLength s)
    by (rewrite overwrite_length; exact Hlen).
  destruct (drawBars_painted (logicalWidth s) (logicalHeight s) (bufferLength s)
              (overwrite sample (dataArray s)) (ctx s2) Hlen2) as (c' & Hrun & Hp).
  rewrite onContext_painted, Hrun. exact Hp.
Qed.

(** What a tick paints in Radial mode. *)
Lemma tick_paints_circle (now : R) (sample : list Z) (s : State) (n : nat) :
  isPlaying s = true -> analyser s = Some n ->
  mode s = "circle"%string ->
  List.length (dataArray s) = bufferLength s ->
  0 <= logicalWidth s -> 0 <= logicalHeight s ->
  painted (ctx (snd (visualize now sample s)))
  = painted (ctx s)
    ++ FillRect (Solid (Rgba 0 0 0 0.1)) 0 0 (logicalWidth s) (logicalHeight s)
    :: map (spokeOp (logicalWidth s) (logicalHeight s) (bufferLength s)
                    (overwrite sample (dataArray s)))
           (seq 0 (bufferLength s))
    ++ [baseCircleOp (logicalWidth s) (logicalHeight s)].
Proof.
  intros Hplay Han Hmode Hlen Hw Hh.
  rewrite (visualize_dispatch now sample s n Hplay Han), Hmode.
  cbn [String.eqb Ascii.eqb Bool.eqb andb].
  set (s2 := set_dataArray _ _).
  unfold drawCircle_, bind, get. cbv beta iota.
  change (logicalWidth s2) with (logicalWidth s).
  change (logicalHeight s2) with (logicalHeight s).
  change (bufferLength s2) with (bufferLength s).
  change (dataArray s2) with (overwrite sample (dataArray s)).
  assert (Hlen2 : List.length (overwrite sample (dataArray s)) = bufferLength s)
    by (rewrite overwrite_length; exact Hlen).
  destruct (drawCircle_painted (logicalWidth s) (logicalHeight s) (bufferLength s)
              (overwrite sample (dataArray s)) (ctx s2) Hlen2 Hw Hh)
    as (c' & Hrun & Hp).
  rewrite onContext_painted, Hrun. exact Hp.
Qed.

(** What a tick paints in Wave mode. *)
Lemma tick_paints_wave (now : R) (sample : list Z) (s : State) (n : nat) :
  isPlaying s = true -> analyser s = Some n ->
  mode s = "wave"%string ->
  List.length (dataArray s) = bufferLength s ->
  painted (ctx (snd (visualize now sample s)))
  = painted (ctx s)
    ++ FillRect (Solid (Rgba 0 0 0 0.2)) 0 0 (logicalWidth s) (logicalHeight s)
    :: map (waveOp now (logicalWidth s) (logicalHeight s) (bufferLength s)
                   (overwrite sample (dataArray s)))
           [0; 1; 2]%nat.
Proof.
  intros Hplay Han Hmode Hlen.
  rewrite (visualize_dispatch now sample s n Hplay Han), Hmode.
  cbn [String.eqb Ascii.eqb Bool.eqb andb].
  set (s2 := set_dataArray _ _).
  unfold drawWave_, bind, get. cbv beta iota.
  change (logicalWidth s2) with (logicalWidth s).
  change (logicalHeight s2) with (logicalHeight s).
  change (bufferLength s2) with (bufferLength s).
  change (dataArray s2) with (overwrite sample (dataArray s)).
  assert (Hlen2 : List.length (overwrite sample (dataArray s)) = bufferLength s)
    by (rewrite overwrite_length; exact Hlen).
  destruct (drawWave_painted now (logicalWidth s) (logicalHeight s) (bufferLength s)
              (overwrite sample (dataArray s)) (ctx s2) Hlen2)
    as (c' & Hrun & Hp).
  rewrite onContext_painted, Hrun. exact Hp.
Qed.

(** What a tick does in Particles mode: the field is moved once and the
    background and one disc per particle are painted. *)
Lemma tick_paints_particles (now : R) (sample : list Z) (s : State) (n : nat) :
  isPlaying s = true -> analyser s = Some n ->
  mode s = "particles"%string ->
  spectrumOk (bufferLength s) (overwrite sample (dataArray s)) ->
  fieldOk (particles s) ->
  particles (snd (visualize now sample s))
  = map (move (logicalWidth s) (logicalHeight s)
              (energy (bufferLength s) (overwrite sample (dataArray s))))
        (particles s)
  /\ exists rest,
       painted (ctx (snd (visualize now sample s)))
       = painted (ctx s)
         ++ FillRect (Solid (Rgba 0 0 0 0.1)) 0 0 (logicalWidth s) (logicalHeight s)
         :: rest
       /\ fills rest
          = map (fun ip =>
                   discOp now
                     (move (logicalWidth s) (logicalHeight s)
                           (energy (bufferLength s) (overwrite sample (dataArray s)))
                           (snd ip))
                     (binOf (bufferLength s) (overwrite sample (dataArray s))
                            (fst ip) (List.length (particles s))))
                (combine (seq 0 (List.length (particles s))) (particles s)).
Proof.
  intros Hplay Han Hmode Hok Hfield.
  rewrite (visualize_dispatch now sample s n Hplay Han), Hmode.
  cbn [String.eqb Ascii.eqb Bool.eqb andb].
  unfold drawParticles_, bind, get, onField, zoom.
  set (s2 := set_dataArray _ _).
  change (logicalWidth s2) with (logicalWidth s).
  change (logicalHeight s2) with (logicalHeight s).
  change (bufferLength s2) with (bufferLength s).
  change (dataArray s2) with (overwrite sample (dataArray s)).
  change (particles s2) with (particles s).
  destruct (drawParticles_paints now (logicalWidth s) (logicalHeight s) (bufferLength s)
              (overwrite sample (dataArray s)) (particles s) (ctx s2) Hok Hfield)
    as (c' & rest & -> & Hp & Hf).
  split; [reflexivity|].
  exists rest. split; [exact Hp|exact Hf].
Qed.

(** C3, as the code has it: a tick of a playing engine has no length
    check and is not skipped, whatever the sample holds.  It requests the
    next frame before it samples and draws, so whether sampling and
    drawing return or raise, the engine is still playing with the next
    tick pending, and so it stays over any run of frames.  Without an
    audio graph sampling raises TypeError and nothing is drawn.  On a
    well-formed engine whose audio graph exists, with a sample of bytes of
    any length, the tick returns: the sample is written into the spectrum
    array, which keeps its 128 bins (all of them as they were when the
    sample has length zero), and the routine of the mode runs on that
    array.  Bars paints the background and a bar and a cap per bin,
    Radial the background, a spoke per bin and the base circle, Wave the
    background and three polylines, Particles moves every particle once by
    the energy factor and paints the background and one disc per particle
    among the links; a mode outside the four leaves the surface alone. *)
Theorem visualize_draws_and_keeps_loop_alive
        (now : R) (sample : list Z) (s : State) :
  isPlaying s = true ->
  let s' := snd (visualize now sample s) in
  let width := logicalWidth s in
  let height := logicalHeight s in
  let data := overwrite sample (dataArray s) in
  (isPlaying s' = true
   /\ animationId s' = Some (nextHandle s)
   /\ In (nextHandle s) (pendingFrames s')
   /\ forall inputs,
        isPlaying (frames inputs s') = true
        /\ pendingFrames (frames inputs s') <> [])
  /\ (analyser s = None ->
      fst (visualize now sample s) = Throw TypeError
      /\ ctx s' = ctx s
      /\ particles s' = particles s)
  /\ (engineOk s -> analyser s <> None -> Forall isByte sample ->
      fst (visualize now sample s) = Normal tt
      /\ dataArray s' = data
      /\ List.length data = 128%nat
      /\ bufferLength s = 128%nat
      /\ (sample = [] -> data = dataArray s)
      /\ (mode s = "bars"%string ->
          painted (ctx s')
          = painted (ctx s)
            ++ FillRect (Solid (Rgba 0 0 0 0.2)) 0 0 width height
            :: flat_map (fun i => [barOp width height 128 data i;
                                   capOp width height 128 data i])
                        (seq 0 128))
      /\ (mode s = "circle"%string ->
          painted (ctx s')
          = painted (ctx s)
            ++ FillRect (Solid (Rgba 0 0 0 0.1)) 0 0 width height
            :: map (spokeOp width height 128 data) (seq 0 128)
            ++ [baseCircleOp width height])
      /\ (mode s = "wave"%string ->
          painted (ctx s')
          = painted (ctx s)
            ++ FillRect (Solid (Rgba 0 0 0 0.2)) 0 0 width height
            :: map (waveOp now width height 128 data) [0; 1; 2]%nat)
      /\ (mode s = "particles"%string ->
          particles s' = map (move width height (energy 128 data)) (particles s)
          /\ exists rest,
               painted (ctx s')
               = painted (ctx s)
                 ++ FillRect (Solid (Rgba 0 0 0 0.1)) 0 0 width height :: rest
               /\ fills rest
                  = map (fun ip =>
                           discOp now
                             (move width height (energy 128 data) (snd ip))
                             (binOf 128 data (fst ip) (List.length (particles s))))
                        (combine (seq 0 (List.length (particles s))) (particles s)))
      /\ (~ In (mode s) validModes -> ctx s' = ctx s)
      /\ (mode s <> "particles"%string -> particles s' = particles s)).
Proof.
  intros Hplay s' width height data.
  split; [|split].
  - destruct (visualize_playing now sample s Hplay) as (Hp & Hq & Hid & _).
    fold s' in Hp, Hq, Hid.
    split; [exact Hp|]. split; [exact Hid|]. split.
    + rewrite Hq. apply in_or_app. right. left. reflexivity.
    + intros inputs. apply frames_alive; [exact Hp|].
      rewrite Hq. intros E. apply app_eq_nil in E. destruct E as [_ E].
      discriminate E.
  - intros Han. subst s'.
    rewrite (visualize_no_analyser now sample s Hplay Han).
    split; [reflexivity|]. split; reflexivity.
  - intros Hok Han Hsample.
    destruct (analyser s) as [n|] eqn:Hn; [clear Han|congruence].
    pose proof (visualize_returns now sample s) as Hret.
    rewrite Hn in Hret.
    specialize (Hret Hok ltac:(discriminate) Hsample).
    destruct (visualize_keeps now sample s n Hplay Hn) as (Hdata & _ & _ & Hps).
    fold s' in Hdata, Hps.
    destruct Hok as (Hcw & Hch & Hd & Hlen & Hbytes & Hfield & Hin & Hinit).
    destruct (logical_nonneg s Hcw Hch Hd) as [Hw Hh].
    destruct Hinit as [H128 H100]; [rewrite Hn; discriminate|].
    assert (Hlen2 : List.length data = 128%nat)
      by (unfold data; rewrite overwrite_length, Hlen; exact H128).
    split; [exact Hret|]. split; [exact Hdata|]. split; [exact Hlen2|].
    split; [exact H128|].
    split; [intros ->; apply overwrite_nothing|].
    split; [|split; [|split; [|split; [|split]]]].
    + intros Hmode. subst s' width height data. rewrite <- H128.
      apply (tick_paints_bars now sample s n); assumption.
    + intros Hmode. subst s' width height data. rewrite <- H128.
      apply (tick_paints_circle now sample s n); assumption.
    + intros Hmode. subst s' width height data. rewrite <- H128.
      apply (tick_paints_wave now sample s n); assumption.
    + intros Hmode. subst s' width height. rewrite <- H128.
      apply (tick_paints_particles now sample s n); try assumption.
      split; [rewrite H128; exact Hlen2|]. split.
      * intros E. fold data in E. rewrite E in Hlen2. discriminate Hlen2.
      * apply overwrite_bytes; assumption.
    + intros Hmode.
      exact (proj1 (proj2 (visualize_unknown_mode now sample s n Hplay Hn Hmode))).
    + exact Hps.
Qed.

End TickDraws.

(** ** The tick at a playing engine *)

Lemma playingEngine_ok : engineOk playingEngine.
Proof.
  unfold playingEngine, fireAll. cbn [fold_left].
  apply fire_engineOk.
  { cbn [eventOk]. apply bytes_repeat. unfold isByte. lia. }
  apply fire_engineOk; [exact I|].
  apply fire_engineOk; [exact zero_in_unit|].
  apply construct_engineOk; lra.
Qed.

Lemma playingEngine_state :
  isPlaying playingEngine = true
  /\ analyser playingEngine = Some 128%nat
  /\ mode playingEngine = "particles"%string.
Proof.
  unfold playingEngine, fireAll. cbn [fold_left fire].
  rewrite play_visualize.
  set (s0 := started _).
  assert (Hp : isPlaying s0 = true) by reflexivity.
  assert (Ha : analyser s0 = Some 128%nat) by reflexivity.
  assert (Hm : mode s0 = "particles"%string) by reflexivity.
  destruct (visualize_playing 0 (repeat 0%Z 128) s0 Hp) as (H1 & _).
  destruct (visualize_keeps 0 (repeat 0%Z 128) s0 128 Hp Ha) as (_ & H2 & H3 & _).
  split; [exact H1|]. split; [exact H2|]. rewrite H3. exact Hm.
Qed.

(** C3 at the playing engine, on a sample of length zero. *)
Lemma visualize_draws_and_keeps_loop_alive_witness :
  isPlaying (snd (visualize 0 [] playingEngine)) = true
  /\ fst (visualize 0 [] playingEngine) = Normal tt
  /\ dataArray (snd (visualize 0 [] playingEngine)) = dataArray playingEngine
  /\ List.length (dataArray (snd (visualize 0 [] playingEngine))) = 128%nat
  /\ particles (snd (visualize 0 [] playingEngine))
     = map (move (logicalWidth playingEngine) (logicalHeight playingEngine)
                 (energy 128 (overwrite [] (dataArray playingEngine))))
           (particles playingEngine).
Proof.
  assert (Hmode : mode playingEngine = "particles"%string)
    by exact (proj2 (proj2 playingEngine_state)).
  assert (Hplay : isPlaying playingEngine = true) by exact (proj1 playingEngine_state).
  assert (Han : analyser playingEngine <> None).
  { rewrite (proj1 (proj2 playingEngine_state)). discriminate. }
  assert (Hsample : Forall isByte []) by constructor.
  destruct (visualize_draws_and_keeps_loop_alive 0 [] playingEngine Hplay)
    as (Hloop & _ & Hdraw).
  destruct (Hdraw playingEngine_ok Han Hsample)
    as (Hret & Hdata & Hlen & _ & Hzero & _ & _ & _ & Hparticles & _).
  split; [exact (proj1 Hloop)|]. split; [exact Hret|].
  split; [rewrite Hdata; exact (Hzero eq_refl)|].
  split; [rewrite Hdata; exact Hlen|].
  exact (proj1 (Hparticles Hmode)).
Defined.

(** C3 as stated fails: at the playing engine a tick whose sample has
    length zero, not the 128 bins of the spectrum array, is not skipped:
    it returns after painting the background and the 100 discs of the
    field. *)
Lemma visualize_zero_length_not_skipped :
  engineOk playingEngine
  /\ isPlaying playingEngine = true
  /\ bufferLength playingEngine = 128%nat
  /\ List.length (@nil Z) <> bufferLength playingEngine
  /\ fst (visualize 0 [] playingEngine) = Normal tt
  /\ exists rest,
       painted (ctx (snd (visualize 0 [] playingEngine)))
       = painted (ctx playingEngine)
         ++ FillRect (Solid (Rgba 0 0 0 0.1)) 0 0
                     (logicalWidth playingEngine) (logicalHeight playingEngine)
         :: rest
       /\ List.length (fills rest) = 100%nat.
Proof.
  pose proof playingEngine_ok as Hok.
  destruct playingEngine_state as (Hplay & Han & Hmode).
  assert (Hsome : analyser playingEngine <> None) by (rewrite Han; discriminate).
  pose proof Hok as (_ & _ & _ & Hlen & Hbytes & Hfield & _ & Hinit).
  destruct (Hinit Hsome) as [H128 H100].
  split; [exact Hok|]. split; [exact Hplay|]. split; [exact H128|].
  split; [rewrite H128; discriminate|].
  split.
  - apply visualize_returns; [exact Hok|exact Hsome|constructor].
  - assert (Hspec : spectrumOk (bufferLength playingEngine)
                               (overwrite [] (dataArray playingEngine))).
    { rewrite overwrite_nothing. split; [exact Hlen|]. split; [|exact Hbytes].
      intros E. rewrite E in Hlen. rewrite H128 in Hlen. discriminate Hlen. }
    destruct (tick_paints_particles 0 [] playingEngine 128 Hplay Han Hmode Hspec Hfield)
      as (_ & rest & Hp & Hf).
    exists rest. split; [exact Hp|].
    rewrite Hf, length_map, length_combine, length_seq, H100. reflexivity.
Qed.
